(** * Transaction processing simulator: lifecycle, rules engine, batch
      orchestration and webhook dispatch

    A shallow embedding of the TypeScript services
    ([TransactionService], [RulesEngine], [BatchService], [WebhookService])
    and of the models they use.

    Conventions of the embedding.
    - A JavaScript [number] that carries a quantity (an amount, a rule
      threshold, a success rate) is an IEEE-754 binary64 value, modelled by
      Rocq's primitive [float]; counters that only ever hold small
      non-negative integers ([retryCount], [maxRetries], attempt numbers,
      lengths) are [nat], integer priorities and millisecond clocks are [Z].
    - The module-level [Map]s are finite maps: [gmap] where iteration order
      is irrelevant, an insertion-ordered association list ([JsMap]) for the
      rule store, whose iteration order decides ties between priorities.
    - Objects held in a [Map] are shared by reference in the source; a write
      through such a reference is a write to the store entry.
    - An [async] method is a state transformer that either returns a value or
      throws; both outcomes carry the state reached (effects that happened
      before a [throw] stay).
    - What the process cannot decide by itself is an explicit parameter:
      [uuidv4], the regular-expression engine, string-to-number coercion,
      [Math.random], the HTTP outcome of a delivery, [JSON.stringify] and the
      HMAC primitive.
    - The webhook stores are the in-memory ones (no database connected);
      [console.log] and the Winston transport are left out.
    - A query that iterates over a store kept as a [gmap] takes the order in
      which the keys of the store were first inserted as an argument.
    - The map of the registered webhooks is an argument of the methods that
      read it, and is handed back by those that write to it. *)

From Stdlib Require Import ZArith List String Ascii Bool Lia Floats Uint63 Sorted.
From stdpp Require Import base option list gmap strings pretty.
Import ListNotations.

Set Warnings "-register-all".
Open Scope string_scope.
Open Scope Z_scope.

(** ** Enumerations of [models/Transaction.ts], [models/Rule.ts],
       [models/Error.ts] *)

Inductive TransactionStatus :=
  | PENDING | VALIDATING | PROCESSING | COMPLETED | FAILED | CANCELLED | REFUNDED.

Inductive TransactionType := PAYMENT | TRANSFER | WITHDRAWAL | DEPOSIT | REFUND.

Inductive TransactionPriority := LOW | NORMAL | HIGH | URGENT.

Inductive RuleSeverity := RS_INFO | RS_WARNING | RS_ERROR | RS_CRITICAL.

Inductive RuleAction := ALLOW | DENY | FLAG | REQUIRE_APPROVAL.

Inductive ErrorSeverity := ES_DEBUG | ES_INFO | ES_WARNING | ES_ERROR | ES_CRITICAL.

Inductive ErrorCategory :=
  | VALIDATION | EC_PROCESSING | NETWORK | DATABASE | AUTHENTICATION
  | AUTHORIZATION | BUSINESS_RULE | SYSTEM | UNKNOWN.

#[global] Instance TransactionStatus_eq_dec : EqDecision TransactionStatus.
Proof. solve_decision. Defined.

#[global] Instance RuleAction_eq_dec : EqDecision RuleAction.
Proof. solve_decision. Defined.

(** The enums are string enums: their run-time value is their name. *)
Definition status_name (s : TransactionStatus) : string :=
  match s with
  | PENDING => "PENDING" | VALIDATING => "VALIDATING"
  | PROCESSING => "PROCESSING" | COMPLETED => "COMPLETED"
  | FAILED => "FAILED" | CANCELLED => "CANCELLED" | REFUNDED => "REFUNDED"
  end.

Definition type_name (t : TransactionType) : string :=
  match t with
  | PAYMENT => "PAYMENT" | TRANSFER => "TRANSFER" | WITHDRAWAL => "WITHDRAWAL"
  | DEPOSIT => "DEPOSIT" | REFUND => "REFUND"
  end.

Definition priority_name (p : TransactionPriority) : string :=
  match p with
  | LOW => "LOW" | NORMAL => "NORMAL" | HIGH => "HIGH" | URGENT => "URGENT"
  end.

(** [ERROR_CODES] (the ones the services use). *)
Definition INVALID_AMOUNT := "E1001".
Definition INVALID_CURRENCY := "E1002".
Definition INVALID_ACCOUNT := "E1003".
Definition PROCESSING_FAILED := "E2005".
Definition RULE_VIOLATION := "E3001".
Definition INVALID_STATUS_TRANSITION := "E4001".
Definition TRANSACTION_NOT_FOUND := "E4002".

(** ** JavaScript values that reach the rule engine *)

(** [JObject] is any object that is not an array (a [Date], the metadata
    record): it is never [===] to a value written in a rule. *)
Inductive JsValue :=
  | JUndefined
  | JNull
  | JBool (b : bool)
  | JNum (x : float)
  | JStr (s : string)
  | JArr (items : list JsValue)
  | JObject.

Definition nat_to_float (n : nat) : float :=
  PrimFloat.of_uint63 (Uint63.of_Z (Z.of_nat n)).

(** [a === b].  Numbers compare as IEEE values ([NaN] differs from itself);
    two arrays or objects are the same only when they are the same
    reference, which a transaction field and a rule value never are. *)
Definition strict_equals (a b : JsValue) : bool :=
  match a, b with
  | JUndefined, JUndefined => true
  | JNull, JNull => true
  | JBool x, JBool y => Bool.eqb x y
  | JNum x, JNum y => PrimFloat.eqb x y
  | JStr x, JStr y => String.eqb x y
  | _, _ => false
  end.

(** SameValueZero, the comparison of [Array.prototype.includes]: as [===]
    but [NaN] is found. *)
Definition same_value_zero (a b : JsValue) : bool :=
  match a, b with
  | JNum x, JNum y => PrimFloat.eqb x y || (PrimFloat.is_nan x && PrimFloat.is_nan y)
  | _, _ => strict_equals a b
  end.

Definition includes (items : list JsValue) (v : JsValue) : bool :=
  existsb (fun item => same_value_zero item v) items.

(** ** Records of [models/Transaction.ts] *)

Record Transaction := mkTransaction {
  tx_id : string;
  tx_type : TransactionType;
  tx_status : TransactionStatus;
  tx_priority : TransactionPriority;
  tx_amount : float;
  tx_currency : string;
  tx_sourceAccount : string;
  tx_destinationAccount : option string;
  tx_description : option string;
  tx_metadata : option JsValue;
  tx_createdAt : Z;
  tx_updatedAt : Z;
  tx_completedAt : option Z;
  tx_errorCode : option string;
  tx_errorMessage : option string;
  tx_retryCount : nat;
  tx_maxRetries : nat
}.

Record CreateTransactionRequest := mkRequest {
  req_type : TransactionType;
  req_amount : float;
  req_currency : string;
  req_sourceAccount : string;
  req_destinationAccount : option string;
  req_description : option string;
  req_priority : option TransactionPriority;
  req_metadata : option JsValue
}.

Record StatusTransition := mkTransition {
  st_transactionId : string;
  st_fromStatus : TransactionStatus;
  st_toStatus : TransactionStatus;
  st_timestamp : Z;
  st_reason : option string;
  st_triggeredBy : string
}.

(** [VALID_STATUS_TRANSITIONS]. *)
Definition VALID_STATUS_TRANSITIONS (s : TransactionStatus) : list TransactionStatus :=
  match s with
  | PENDING => [VALIDATING; CANCELLED]
  | VALIDATING => [PROCESSING; FAILED; CANCELLED]
  | PROCESSING => [COMPLETED; FAILED]
  | COMPLETED => [REFUNDED]
  | FAILED => [PENDING]
  | CANCELLED => []
  | REFUNDED => []
  end.

(** [validTransitions.includes(newStatus)]. *)
Definition status_includes (l : list TransactionStatus) (s : TransactionStatus) : bool :=
  existsb (fun x => bool_decide (x = s)) l.

(** Field updates of a transaction object. *)
Definition tx_set_status (s : TransactionStatus) (now : Z) (t : Transaction) : Transaction :=
  mkTransaction (tx_id t) (tx_type t) s (tx_priority t) (tx_amount t)
    (tx_currency t) (tx_sourceAccount t) (tx_destinationAccount t)
    (tx_description t) (tx_metadata t) (tx_createdAt t) now
    (tx_completedAt t) (tx_errorCode t) (tx_errorMessage t)
    (tx_retryCount t) (tx_maxRetries t).

Definition tx_set_error (code msg : option string) (t : Transaction) : Transaction :=
  mkTransaction (tx_id t) (tx_type t) (tx_status t) (tx_priority t) (tx_amount t)
    (tx_currency t) (tx_sourceAccount t) (tx_destinationAccount t)
    (tx_description t) (tx_metadata t) (tx_createdAt t) (tx_updatedAt t)
    (tx_completedAt t) code msg (tx_retryCount t) (tx_maxRetries t).

Definition tx_set_completedAt (now : Z) (t : Transaction) : Transaction :=
  mkTransaction (tx_id t) (tx_type t) (tx_status t) (tx_priority t) (tx_amount t)
    (tx_currency t) (tx_sourceAccount t) (tx_destinationAccount t)
    (tx_description t) (tx_metadata t) (tx_createdAt t) (tx_updatedAt t)
    (Some now) (tx_errorCode t) (tx_errorMessage t)
    (tx_retryCount t) (tx_maxRetries t).

(** [transaction.retryCount++; errorCode = undefined; errorMessage = undefined]. *)
Definition tx_begin_retry (t : Transaction) : Transaction :=
  mkTransaction (tx_id t) (tx_type t) (tx_status t) (tx_priority t) (tx_amount t)
    (tx_currency t) (tx_sourceAccount t) (tx_destinationAccount t)
    (tx_description t) (tx_metadata t) (tx_createdAt t) (tx_updatedAt t)
    (tx_completedAt t) None None (S (tx_retryCount t)) (tx_maxRetries t).

(** ** Records of [models/Rule.ts] *)

Inductive RuleConditionType :=
  | AMOUNT_THRESHOLD | TRANSACTION_TYPE | CURRENCY | ACCOUNT_PATTERN
  | TIME_WINDOW | FREQUENCY | COMPOSITE.

(** The declared operators; [OP_OTHER] is any other string a rule received
    over HTTP may carry (the [default:] branch of the evaluator). *)
Inductive Operator :=
  | EQ | NEQ | GT | GTE | LT | LTE | IN | NOT_IN | MATCHES | AND | OR
  | OP_OTHER (name : string).

(** [field] and [children] are optional properties. *)
Inductive RuleCondition :=
  mkCondition (c_type : RuleConditionType) (c_operator : Operator)
              (c_value : JsValue) (c_field : option string)
              (c_children : option (list RuleCondition)).

Record Rule := mkRule {
  rule_id : string;
  rule_name : string;
  rule_description : string;
  rule_enabled : bool;
  rule_priority : Z;
  rule_condition : RuleCondition;
  rule_action : RuleAction;
  rule_severity : RuleSeverity;
  rule_createdAt : Z;
  rule_updatedAt : Z
}.

(** [Omit<Rule, 'id' | 'createdAt' | 'updatedAt'>]. *)
Record RuleTemplate := mkTemplate {
  tpl_name : string;
  tpl_description : string;
  tpl_enabled : bool;
  tpl_priority : Z;
  tpl_condition : RuleCondition;
  tpl_action : RuleAction;
  tpl_severity : RuleSeverity
}.

Record RuleEvaluationResult := mkResult {
  res_ruleId : string;
  res_ruleName : string;
  res_passed : bool;
  res_action : RuleAction;
  res_severity : RuleSeverity;
  res_message : string;
  res_evaluatedAt : Z
}.

Record RulesEngineConfig := mkConfig {
  stopOnFirstDeny : bool;
  logAllEvaluations : bool;
  defaultAction : RuleAction
}.

Definition defaultConfig : RulesEngineConfig := mkConfig true true ALLOW.

(** The value [evaluateTransaction] returns. *)
Record Evaluation := mkEvaluation {
  allowed : bool;
  results : list RuleEvaluationResult;
  flagged : bool;
  requiresApproval : bool;
  denyReason : option string
}.

Definition leaf (t : RuleConditionType) (op : Operator) (v : JsValue) (f : string)
  : RuleCondition :=
  mkCondition t op v (Some f) None.

(** The four templates of [DEFAULT_RULES]. *)
Definition High_Amount_Threshold : RuleTemplate :=
  mkTemplate "High Amount Threshold" "Flag transactions over $10,000" true 1
    (leaf AMOUNT_THRESHOLD GT (JNum 10000%float) "amount") FLAG RS_WARNING.

Definition Very_High_Amount_Block : RuleTemplate :=
  mkTemplate "Very High Amount Block" "Block transactions over $100,000" true 0
    (leaf AMOUNT_THRESHOLD GT (JNum 100000%float) "amount") DENY RS_CRITICAL.

(** The literal [0.01] is the double nearest to it. *)
Definition Minimum_Amount : RuleTemplate :=
  mkTemplate "Minimum Amount" "Reject transactions below $0.01" true 0
    (leaf AMOUNT_THRESHOLD LT (JNum 0x1.47ae147ae147bp-7%float) "amount") DENY RS_ERROR.

Definition Supported_Currencies : RuleTemplate :=
  mkTemplate "Supported Currencies" "Only allow USD, EUR, GBP currencies" true 2
    (leaf CURRENCY IN (JArr [JStr "USD"; JStr "EUR"; JStr "GBP"]) "currency")
    ALLOW RS_INFO.

(** [DEFAULT_RULES], in the order of the array. *)
Definition DEFAULT_RULES : list RuleTemplate :=
  [High_Amount_Threshold; Very_High_Amount_Block; Minimum_Amount; Supported_Currencies].

(** ** Records of [models/Error.ts] and of the webhook schema *)

Record ErrorLogEntry := mkErrorLogEntry {
  err_id : string;
  err_timestamp : Z;
  err_severity : ErrorSeverity;
  err_category : ErrorCategory;
  err_code : string;
  err_message : string;
  err_transactionId : option string;
  err_resolved : bool
}.

Record Webhook := mkWebhook {
  wh_id : string;
  wh_name : string;
  wh_url : string;
  wh_secret : option string;
  wh_events : list string;
  wh_isActive : bool;
  wh_retryCount : nat;
  wh_maxRetries : nat;
  wh_createdAt : Z;
  wh_updatedAt : Z
}.

Record HttpResponse := mkResponse {
  resp_status : Z;
  resp_body : option string
}.

Record WebhookLog := mkWebhookLog {
  log_id : string;
  log_webhookId : string;
  log_event : string;
  log_payload : JsValue;
  log_response : option HttpResponse;
  log_success : bool;
  log_error : option string;
  log_attempts : nat;
  log_createdAt : Z
}.

(** A callback registered with [setTimeout]: the retry it will run. *)
Record Timer := mkTimer {
  timer_delay : Z;
  timer_webhook : Webhook;
  timer_event : string;
  timer_payload : JsValue;
  timer_attempt : nat
}.

(** The body, the headers and the options of one [axios.post]. *)
Record Envelope := mkEnvelope {
  env_event : string;
  env_timestamp : string;
  env_payload : JsValue
}.

Record Request := mkHttpRequest {
  http_url : string;
  http_body : Envelope;
  http_headers : list (string * string);
  http_timeout : Z
}.

(** What the POST does: it resolves with a status and the response data
    (as text), or it rejects with a message and, when the server answered,
    its response. *)
Inductive HttpOutcome :=
  | HttpResolved (status : Z) (data : string)
  | HttpRejected (message : string) (response : option HttpResponse).

(** ** Results of [BatchService.batchCreate] *)

Record FailedCreate := mkFailedCreate {
  fc_index : nat;
  fc_request : CreateTransactionRequest;
  fc_error : string
}.

Record BatchSummary := mkSummary {
  sum_total : nat;
  sum_success : nat;
  sum_failed : nat;
  sum_successRate : string
}.

Record BatchCreateResult := mkBatchCreateResult {
  bc_successful : list Transaction;
  bc_failed : list FailedCreate;
  bc_summary : BatchSummary
}.

(** ** An insertion-ordered [Map<string, V>] *)

Section JsMap.
Context {V : Type}.

Definition JsMap := list (string * V).

Fixpoint jsmap_get (k : string) (m : list (string * V)) : option V :=
  match m with
  | [] => None
  | (k', v) :: rest => if String.eqb k' k then Some v else jsmap_get k rest
  end.

(** [m.set(k, v)]: an existing key keeps its position, a new key goes last. *)
Fixpoint jsmap_set (k : string) (v : V) (m : list (string * V)) : list (string * V) :=
  match m with
  | [] => [(k, v)]
  | (k', v') :: rest =>
      if String.eqb k' k then (k, v) :: rest else (k', v') :: jsmap_set k v rest
  end.

Fixpoint jsmap_delete (k : string) (m : list (string * V)) : list (string * V) :=
  match m with
  | [] => []
  | (k', v') :: rest =>
      if String.eqb k' k then rest else (k', v') :: jsmap_delete k rest
  end.

(** [Array.from(m.values())]. *)
Definition jsmap_values (m : list (string * V)) : list V := map snd m.
End JsMap.

(** ** The state of the process *)

Record State := mkState {
  transactions : gmap string Transaction;
  statusHistory : gmap string (list StatusTransition);
  rules : list (string * Rule);
  config : RulesEngineConfig;
  maxBatchSize : nat;
  errorLogs : gmap string ErrorLogEntry;
  inMemoryWebhookLogs : gmap string WebhookLog;
  timers : list Timer;
  uuid_count : nat;
  clock : Z
}.

Definition with_transactions (f : gmap string Transaction -> gmap string Transaction)
  (s : State) : State :=
  mkState (f (transactions s)) (statusHistory s) (rules s) (config s)
    (maxBatchSize s) (errorLogs s) (inMemoryWebhookLogs s) (timers s)
    (uuid_count s) (clock s).

Definition with_statusHistory
  (f : gmap string (list StatusTransition) -> gmap string (list StatusTransition))
  (s : State) : State :=
  mkState (transactions s) (f (statusHistory s)) (rules s) (config s)
    (maxBatchSize s) (errorLogs s) (inMemoryWebhookLogs s) (timers s)
    (uuid_count s) (clock s).

Definition with_rules (f : list (string * Rule) -> list (string * Rule))
  (s : State) : State :=
  mkState (transactions s) (statusHistory s) (f (rules s)) (config s)
    (maxBatchSize s) (errorLogs s) (inMemoryWebhookLogs s) (timers s)
    (uuid_count s) (clock s).

Definition with_config (c : RulesEngineConfig) (s : State) : State :=
  mkState (transactions s) (statusHistory s) (rules s) c
    (maxBatchSize s) (errorLogs s) (inMemoryWebhookLogs s) (timers s)
    (uuid_count s) (clock s).

Definition with_maxBatchSize (n : nat) (s : State) : State :=
  mkState (transactions s) (statusHistory s) (rules s) (config s)
    n (errorLogs s) (inMemoryWebhookLogs s) (timers s)
    (uuid_count s) (clock s).

Definition with_errorLogs (f : gmap string ErrorLogEntry -> gmap string ErrorLogEntry)
  (s : State) : State :=
  mkState (transactions s) (statusHistory s) (rules s) (config s)
    (maxBatchSize s) (f (errorLogs s)) (inMemoryWebhookLogs s) (timers s)
    (uuid_count s) (clock s).

Definition with_webhookLogs (f : gmap string WebhookLog -> gmap string WebhookLog)
  (s : State) : State :=
  mkState (transactions s) (statusHistory s) (rules s) (config s)
    (maxBatchSize s) (errorLogs s) (f (inMemoryWebhookLogs s)) (timers s)
    (uuid_count s) (clock s).

Definition with_timers (f : list Timer -> list Timer) (s : State) : State :=
  mkState (transactions s) (statusHistory s) (rules s) (config s)
    (maxBatchSize s) (errorLogs s) (inMemoryWebhookLogs s) (f (timers s))
    (uuid_count s) (clock s).

Definition with_uuid_count (n : nat) (s : State) : State :=
  mkState (transactions s) (statusHistory s) (rules s) (config s)
    (maxBatchSize s) (errorLogs s) (inMemoryWebhookLogs s) (timers s)
    n (clock s).

Definition with_clock (t : Z) (s : State) : State :=
  mkState (transactions s) (statusHistory s) (rules s) (config s)
    (maxBatchSize s) (errorLogs s) (inMemoryWebhookLogs s) (timers s)
    (uuid_count s) t.

(** ** Computations that may throw *)

Inductive Outcome (A : Type) :=
  | Returned (a : A)
  | Thrown (message : string).
Arguments Returned {A} a.
Arguments Thrown {A} message.

(** A method body: from the state before to the outcome and the state after. *)
Definition M (A : Type) : Type := State -> Outcome A * State.

Definition ret {A} (a : A) : M A := fun s => (Returned a, s).

Definition throw {A} (message : string) : M A := fun s => (Thrown message, s).

Definition bind {A B} (m : M A) (k : A -> M B) : M B :=
  fun s =>
    match m s with
    | (Returned a, s') => k a s'
    | (Thrown e, s') => (Thrown e, s')
    end.

Definition get_state : M State := fun s => (Returned s, s).

Definition modify (f : State -> State) : M unit := fun s => (Returned tt, f s).

Notation "'do' x <- m ; k" := (bind m (fun x => k))
  (at level 10, x name, m at level 100, k at level 200).
Notation "m ;; k" := (bind m (fun _ => k))
  (at level 100, k at level 200, right associativity).

(** The double-quote character, for messages that quote a name. *)
Definition dquote : string := String (ascii_of_nat 34) EmptyString.

(** [s.toUpperCase()] on ASCII letters (other characters are kept). *)
Definition upper_ascii (c : ascii) : ascii :=
  let n := nat_of_ascii c in
  if ((97 <=? n) && (n <=? 122))%nat then ascii_of_nat (n - 32) else c.

Fixpoint toUpperCase (s : string) : string :=
  match s with
  | EmptyString => EmptyString
  | String c rest => String (upper_ascii c) (toUpperCase rest)
  end.

(** [a || b] on an optional string: [undefined] and the empty string are falsy. *)
Definition or_string (a : option string) (b : string) : string :=
  match a with
  | Some s => if String.eqb s EmptyString then b else s
  | None => b
  end.

(** [!x] on a number: true for [0], [-0] and [NaN]. *)
Definition falsy_number (x : float) : bool :=
  PrimFloat.is_nan x || PrimFloat.eqb x 0%float.

(** [arr.every(f)] and [arr.some(f)] for a callback that may throw
    ([None]): the scan stops at the first deciding element. *)
Definition every {A} (f : A -> option bool) : list A -> option bool :=
  fix go (l : list A) : option bool :=
    match l with
    | [] => Some true
    | x :: rest =>
        match f x with
        | Some true => go rest
        | other => other
        end
    end.

Definition some {A} (f : A -> option bool) : list A -> option bool :=
  fix go (l : list A) : option bool :=
    match l with
    | [] => Some false
    | x :: rest =>
        match f x with
        | Some false => go rest
        | other => other
        end
    end.

(** [transaction[field]]: own properties only; an optional property that
    was never set, and any other name, reads [undefined]. *)
Definition opt_string_value (o : option string) : JsValue :=
  match o with Some s => JStr s | None => JUndefined end.

Definition transaction_field (t : Transaction) (field : string) : JsValue :=
  if String.eqb field "id" then JStr (tx_id t)
  else if String.eqb field "type" then JStr (type_name (tx_type t))
  else if String.eqb field "status" then JStr (status_name (tx_status t))
  else if String.eqb field "priority" then JStr (priority_name (tx_priority t))
  else if String.eqb field "amount" then JNum (tx_amount t)
  else if String.eqb field "currency" then JStr (tx_currency t)
  else if String.eqb field "sourceAccount" then JStr (tx_sourceAccount t)
  else if String.eqb field "destinationAccount" then opt_string_value (tx_destinationAccount t)
  else if String.eqb field "description" then opt_string_value (tx_description t)
  else if String.eqb field "metadata" then
    match tx_metadata t with Some v => v | None => JUndefined end
  else if String.eqb field "createdAt" then JObject
  else if String.eqb field "updatedAt" then JObject
  else if String.eqb field "completedAt" then
    match tx_completedAt t with Some _ => JObject | None => JUndefined end
  else if String.eqb field "errorCode" then opt_string_value (tx_errorCode t)
  else if String.eqb field "errorMessage" then opt_string_value (tx_errorMessage t)
  else if String.eqb field "retryCount" then JNum (nat_to_float (tx_retryCount t))
  else if String.eqb field "maxRetries" then JNum (nat_to_float (tx_maxRetries t))
  else JUndefined.

(** [.sort((a, b) => a.priority - b.priority)]: the engine's sort is stable,
    so rules of equal priority keep the order they had. *)
Fixpoint insert_by_priority (r : Rule) (l : list Rule) : list Rule :=
  match l with
  | [] => [r]
  | x :: rest =>
      if rule_priority r <=? rule_priority x then r :: l
      else x :: insert_by_priority r rest
  end.

Definition sort_by_priority (l : list Rule) : list Rule :=
  fold_right insert_by_priority [] l.

(** [PROCESSING_DELAYS], in milliseconds. *)
Definition PROCESSING_DELAYS (p : TransactionPriority) : Z :=
  match p with
  | URGENT => 500
  | HIGH => 1000
  | NORMAL => 2000
  | LOW => 3000
  end.

(** ** The services *)

Section Services.

(** The [n]-th identifier [uuidv4()] hands out. *)
Variable uuid_nth : nat -> string.

(** [new RegExp(pattern).test(subject)]; [None] when the constructor
    throws on the pattern. *)
Variable regexp_test : JsValue -> string -> option bool.

(** The number a non-numeric comparison value (a string, an array, an
    object) is coerced to by [>], [>=], [<], [<=]. *)
Variable coerce_number : JsValue -> float.

(** [uuidv4()]. *)
Definition uuidv4 : M string :=
  fun s => (Returned (uuid_nth (uuid_count s)), with_uuid_count (S (uuid_count s)) s).

(** [new Date()]. *)
Definition new_Date : M Z := fun s => (Returned (clock s), s).

(** *** [ErrorLogger] *)

(** [errorLogger.logError(severity, category, code, message, { transactionId })];
    the Winston output is not modelled. *)
Definition logError (severity : ErrorSeverity) (category : ErrorCategory)
    (code message : string) (transactionId : option string) : M ErrorLogEntry :=
  do id <- uuidv4;
  do now <- new_Date;
  let entry := mkErrorLogEntry id now severity category code message transactionId false in
  modify (with_errorLogs (insert id entry)) ;;
  ret entry.

Definition logValidationError (code message : string) (transactionId : option string)
  : M ErrorLogEntry :=
  logError ES_ERROR VALIDATION code message transactionId.

Definition logProcessingError (code message : string) (transactionId : option string)
  : M ErrorLogEntry :=
  logError ES_ERROR EC_PROCESSING code message transactionId.

Definition logRuleViolation (ruleName message : string) (transactionId : option string)
  : M ErrorLogEntry :=
  logError ES_WARNING BUSINESS_RULE RULE_VIOLATION
    ("Rule " +:+ dquote +:+ ruleName +:+ dquote +:+ " violated: " +:+ message)
    transactionId.

(** *** [RulesEngine] *)

(** The number [value] stands for on the right of a comparison. *)
Definition to_number (v : JsValue) : float :=
  match v with
  | JNum y => y
  | JUndefined => PrimFloat.nan
  | JNull => 0%float
  | JBool true => 1%float
  | JBool false => 0%float
  | _ => coerce_number v
  end.

(** [typeof fieldValue === 'number' && cmp(fieldValue, value)]. *)
Definition number_and (fieldValue : JsValue) (cmp : float -> bool) : bool :=
  match fieldValue with
  | JNum x => cmp x
  | _ => false
  end.

(** [evaluateCondition(condition, transaction)]; [None] when the regular
    expression of a [MATCHES] leaf that is reached cannot be built. *)
Fixpoint evaluateCondition (condition : RuleCondition) (transaction : Transaction)
    {struct condition} : option bool :=
  match condition with
  | mkCondition _ operator value field children =>
      let leaf_case :=
        match field with
        | None => Some false
        | Some f =>
            if String.eqb f EmptyString then Some false
            else
              let fieldValue := transaction_field transaction f in
              match operator with
              | EQ => Some (strict_equals fieldValue value)
              | NEQ => Some (negb (strict_equals fieldValue value))
              | GT => Some (number_and fieldValue (fun x => PrimFloat.ltb (to_number value) x))
              | GTE => Some (number_and fieldValue (fun x => PrimFloat.leb (to_number value) x))
              | LT => Some (number_and fieldValue (fun x => PrimFloat.ltb x (to_number value)))
              | LTE => Some (number_and fieldValue (fun x => PrimFloat.leb x (to_number value)))
              | IN =>
                  Some (match value with
                        | JArr items => includes items fieldValue
                        | _ => false
                        end)
              | NOT_IN =>
                  Some (match value with
                        | JArr items => negb (includes items fieldValue)
                        | _ => false
                        end)
              | MATCHES =>
                  match fieldValue with
                  | JStr subject => regexp_test value subject
                  | _ => Some false
                  end
              | _ => Some false
              end
        end in
      match operator, children with
      | AND, Some cs => every (fun child => evaluateCondition child transaction) cs
      | OR, Some cs => some (fun child => evaluateCondition child transaction) cs
      | _, _ => leaf_case
      end
  end.

(** [evaluateRule(rule, transaction)], with the reading of the clock it
    stamps the result with. *)
Definition evaluateRule (rule : Rule) (transaction : Transaction) (now : Z)
  : option RuleEvaluationResult :=
  match evaluateCondition (rule_condition rule) transaction with
  | None => None
  | Some conditionMet =>
      let passed :=
        if bool_decide (rule_action rule = ALLOW) then conditionMet
        else negb conditionMet in
      let message :=
        if bool_decide (rule_action rule = ALLOW) then
          if conditionMet then "Transaction passed rule: " +:+ rule_name rule
          else "Transaction failed rule: " +:+ rule_name rule
        else
          if conditionMet then
            "Rule triggered: " +:+ rule_name rule +:+ " - " +:+ rule_description rule
          else "Transaction passed rule check: " +:+ rule_name rule in
      Some (mkResult (rule_id rule) (rule_name rule) passed
              (if conditionMet then rule_action rule else ALLOW)
              (rule_severity rule) message now)
  end.

Definition push_result (r : RuleEvaluationResult) (e : Evaluation) : Evaluation :=
  mkEvaluation (allowed e) (results e ++ [r]) (flagged e) (requiresApproval e)
    (denyReason e).

Definition set_denied (reason : string) (e : Evaluation) : Evaluation :=
  mkEvaluation false (results e) (flagged e) (requiresApproval e) (Some reason).

Definition set_flagged (e : Evaluation) : Evaluation :=
  mkEvaluation (allowed e) (results e) true (requiresApproval e) (denyReason e).

Definition set_requiresApproval (e : Evaluation) : Evaluation :=
  mkEvaluation (allowed e) (results e) (flagged e) true (denyReason e).

(** [Array.from(rules.values()).filter(r => r.enabled).sort(...)]. *)
Definition activeRules (s : State) : list Rule :=
  sort_by_priority (filter (fun r => rule_enabled r = true) (jsmap_values (rules s))).

(** The [for (const rule of activeRules)] loop, from the rules still to be
    visited and the locals [allowed], [results], [flagged],
    [requiresApproval], [denyReason].  A condition that cannot be evaluated
    throws the engine's SyntaxError out of the loop (its message, which
    quotes the pattern, is shortened here). *)
Fixpoint evaluate_loop (transaction : Transaction) (remaining : list Rule)
    (acc : Evaluation) : M Evaluation :=
  match remaining with
  | [] => ret acc
  | rule :: rest =>
      do now <- new_Date;
      match evaluateRule rule transaction now with
      | None => throw "Invalid regular expression"
      | Some result =>
          let acc := push_result result acc in
          if res_passed result then evaluate_loop transaction rest acc
          else
            match res_action result with
            | DENY =>
                let acc := set_denied (res_message result) acc in
                logRuleViolation (rule_name rule) (res_message result)
                  (Some (tx_id transaction)) ;;
                do s <- get_state;
                if stopOnFirstDeny (config s) then ret acc
                else evaluate_loop transaction rest acc
            | FLAG =>
                logRuleViolation (rule_name rule) (res_message result)
                  (Some (tx_id transaction)) ;;
                evaluate_loop transaction rest (set_flagged acc)
            | REQUIRE_APPROVAL =>
                evaluate_loop transaction rest (set_requiresApproval acc)
            | ALLOW => evaluate_loop transaction rest acc
            end
      end
  end.

Definition evaluateTransaction (transaction : Transaction) : M Evaluation :=
  do s <- get_state;
  evaluate_loop transaction (activeRules s) (mkEvaluation true [] false false None).

(** [initializeDefaultRules()]. *)
Definition instantiate (t : RuleTemplate) (id : string) (now : Z) : Rule :=
  mkRule id (tpl_name t) (tpl_description t) (tpl_enabled t) (tpl_priority t)
    (tpl_condition t) (tpl_action t) (tpl_severity t) now now.

Fixpoint initialize_from (templates : list RuleTemplate) : M unit :=
  match templates with
  | [] => ret tt
  | ruleTemplate :: rest =>
      do id <- uuidv4;
      do createdAt <- new_Date;
      modify (with_rules (jsmap_set id (instantiate ruleTemplate id createdAt))) ;;
      initialize_from rest
  end.

Definition initializeDefaultRules : M unit := initialize_from DEFAULT_RULES.

(** [addRule], [deleteRule], [updateConfig], [resetToDefaults]. *)
Definition addRule (t : RuleTemplate) : M Rule :=
  do id <- uuidv4;
  do now <- new_Date;
  let newRule := instantiate t id now in
  modify (with_rules (jsmap_set id newRule)) ;;
  ret newRule.

Definition deleteRule (id : string) : M bool :=
  do s <- get_state;
  match jsmap_get id (rules s) with
  | Some _ => modify (with_rules (jsmap_delete id)) ;; ret true
  | None => ret false
  end.

Definition updateConfig (c : RulesEngineConfig) : M unit := modify (with_config c).

Definition resetToDefaults : M unit :=
  modify (with_rules (fun _ => [])) ;; initializeDefaultRules.

(** *** [TransactionService] *)

Definition not_found (transactionId : string) : string :=
  "Transaction " +:+ transactionId +:+ " not found".

Definition invalid_transition (currentStatus newStatus : TransactionStatus) : string :=
  "Invalid status transition from " +:+ status_name currentStatus +:+ " to "
    +:+ status_name newStatus.

(** [createTransaction(request)]. *)
Definition createTransaction (request : CreateTransactionRequest) : M Transaction :=
  if falsy_number (req_amount request) || PrimFloat.leb (req_amount request) 0%float then
    logValidationError INVALID_AMOUNT "Amount must be greater than 0" None ;;
    throw "Amount must be greater than 0"
  else if String.eqb (req_currency request) EmptyString then
    logValidationError INVALID_CURRENCY "Currency is required" None ;;
    throw "Currency is required"
  else if String.eqb (req_sourceAccount request) EmptyString then
    logValidationError INVALID_ACCOUNT "Source account is required" None ;;
    throw "Source account is required"
  else
    do id <- uuidv4;
    do createdAt <- new_Date;
    do updatedAt <- new_Date;
    let transaction :=
      mkTransaction id (req_type request) PENDING
        (match req_priority request with Some p => p | None => NORMAL end)
        (req_amount request) (toUpperCase (req_currency request))
        (req_sourceAccount request) (req_destinationAccount request)
        (req_description request) (req_metadata request)
        createdAt updatedAt None None None 0%nat 3%nat in
    modify (with_transactions (insert (tx_id transaction) transaction)) ;;
    modify (with_statusHistory (insert (tx_id transaction) [])) ;;
    ret transaction.

(** [getStatusHistory(transactionId)]. *)
Definition getStatusHistory (s : State) (transactionId : string) : list StatusTransition :=
  default [] (statusHistory s !! transactionId).

(** [updateStatus(transactionId, newStatus, triggeredBy, reason)]. *)
Definition updateStatus (transactionId : string) (newStatus : TransactionStatus)
    (triggeredBy : string) (reason : option string) : M Transaction :=
  do s <- get_state;
  match transactions s !! transactionId with
  | None => throw (not_found transactionId)
  | Some transaction =>
      let currentStatus := tx_status transaction in
      let validTransitions := VALID_STATUS_TRANSITIONS currentStatus in
      if negb (status_includes validTransitions newStatus) then
        logError ES_ERROR VALIDATION INVALID_STATUS_TRANSITION
          (invalid_transition currentStatus newStatus) (Some transactionId) ;;
        throw (invalid_transition currentStatus newStatus)
      else
        do updatedAt <- new_Date;
        let transaction := tx_set_status newStatus updatedAt transaction in
        modify (with_transactions (insert transactionId transaction)) ;;
        do timestamp <- new_Date;
        let transition :=
          mkTransition transactionId currentStatus newStatus timestamp reason
            triggeredBy in
        do s' <- get_state;
        let history := getStatusHistory s' transactionId in
        modify (with_statusHistory (insert transactionId (history ++ [transition])%list)) ;;
        ret transaction
  end.

(** [transactions.get(transactionId)!]: the object the store holds now.
    The source dereferences it at once, which throws when it is absent. *)
Definition stored (transactionId : string) : M Transaction :=
  do s <- get_state;
  match transactions s !! transactionId with
  | Some transaction => ret transaction
  | None => throw "Cannot set properties of undefined"
  end.

(** [simulateProcessing(ms)]: the wait moves the clock on. *)
Definition simulateProcessing (ms : Z) : M unit :=
  modify (fun s => with_clock (clock s + ms) s).

(** [processTransaction(transactionId)]; [random] is the value
    [Math.random()] returns if the call reaches it.  The local
    [transaction] is the stored object, so it is read again after
    [updateStatus] has written to it. *)
Definition processTransaction (random : float) (transactionId : string)
  : M Transaction :=
  do s <- get_state;
  match transactions s !! transactionId with
  | None =>
      logProcessingError TRANSACTION_NOT_FOUND (not_found transactionId)
        (Some transactionId) ;;
      throw (not_found transactionId)
  | Some _ =>
      updateStatus transactionId VALIDATING "system" (Some "Starting validation") ;;
      do transaction <- stored transactionId;
      do evaluation <- evaluateTransaction transaction;
      if negb (allowed evaluation) then
        updateStatus transactionId FAILED "rules-engine"
          (Some (or_string (denyReason evaluation) "Rule validation failed")) ;;
        do failedTx <- stored transactionId;
        let failedTx := tx_set_error (Some RULE_VIOLATION) (denyReason evaluation) failedTx in
        modify (with_transactions (insert transactionId failedTx)) ;;
        ret failedTx
      else
        updateStatus transactionId PROCESSING "system" (Some "Processing transaction") ;;
        do transaction <- stored transactionId;
        simulateProcessing (PROCESSING_DELAYS (tx_priority transaction)) ;;
        let success := PrimFloat.ltb 0x1.999999999999ap-4%float random in
        if success then
          updateStatus transactionId COMPLETED "system"
            (Some "Transaction completed successfully") ;;
          do completedTx <- stored transactionId;
          do completedAt <- new_Date;
          let completedTx := tx_set_completedAt completedAt completedTx in
          modify (with_transactions (insert transactionId completedTx)) ;;
          ret completedTx
        else
          updateStatus transactionId FAILED "system" (Some "Processing failed") ;;
          do failedTx <- stored transactionId;
          let failedTx :=
            tx_set_error (Some PROCESSING_FAILED) (Some "Simulated processing failure")
              failedTx in
          modify (with_transactions (insert transactionId failedTx)) ;;
          logProcessingError PROCESSING_FAILED "Simulated processing failure"
            (Some transactionId) ;;
          modify (with_transactions (insert transactionId failedTx)) ;;
          ret failedTx
  end.

Definition retries_exhausted (maxRetries : nat) : string :=
  "Maximum retry attempts (" +:+ pretty maxRetries +:+ ") exceeded".

(** [retryTransaction(transactionId)]. *)
Definition retryTransaction (random : float) (transactionId : string) : M Transaction :=
  do s <- get_state;
  match transactions s !! transactionId with
  | None => throw (not_found transactionId)
  | Some transaction =>
      if negb (bool_decide (tx_status transaction = FAILED)) then
        throw "Only failed transactions can be retried"
      else if (tx_maxRetries transaction <=? tx_retryCount transaction)%nat then
        throw (retries_exhausted (tx_maxRetries transaction))
      else
        modify (with_transactions (insert transactionId (tx_begin_retry transaction))) ;;
        updateStatus transactionId PENDING "retry-system" (Some "Retry initiated") ;;
        processTransaction random transactionId
  end.

(** [cancelTransaction(transactionId, reason)]. *)
Definition cancelTransaction (transactionId : string) (reason : option string)
  : M Transaction :=
  do s <- get_state;
  match transactions s !! transactionId with
  | None => throw (not_found transactionId)
  | Some transaction =>
      if bool_decide (tx_status transaction = COMPLETED) then
        throw "Cannot cancel a completed transaction. Use refund instead."
      else if bool_decide (tx_status transaction = CANCELLED) then
        throw "Transaction is already cancelled"
      else
        updateStatus transactionId CANCELLED "user"
          (Some (or_string reason "Cancelled by user"))
  end.

(** [refundTransaction(transactionId, reason)]. *)
Definition refundTransaction (transactionId : string) (reason : option string)
  : M Transaction :=
  do s <- get_state;
  match transactions s !! transactionId with
  | None => throw (not_found transactionId)
  | Some transaction =>
      if negb (bool_decide (tx_status transaction = COMPLETED)) then
        throw "Only completed transactions can be refunded"
      else
        updateStatus transactionId REFUNDED "user"
          (Some (or_string reason "Refunded by user"))
  end.

(** *** [BatchService] *)

(** [Number.prototype.toString] for a magnitude of at least 10^21, where
    [toFixed] defers to it. *)
Variable exponent_form : float -> string.

(** The message [webhookService.triggerEvent(event, ...)] rejects with for
    the batch item of the given index, if it rejects.  With the in-memory
    webhook store it never does; the lookup of the webhooks in a connected
    database can. *)
Variable trigger_rejects : string -> nat -> option string.

(** The integer [n] for which [n / 10 - x] is closest to zero, the larger
    one on a tie, for a finite [x = m * 2^e >= 0]. *)
Definition nearest_tenths (m : positive) (e : Z) : Z :=
  if 0 <=? e then 10 * Z.pos m * 2 ^ e
  else (20 * Z.pos m + 2 ^ (- e)) / 2 ^ (1 - e).

Definition tenths_string (n : Z) : string :=
  pretty (n / 10) +:+ "." +:+ pretty (n mod 10).

(** [x.toFixed(1)]. *)
Definition toFixed1 (x : float) : string :=
  match Prim2SF x with
  | S754_nan => "NaN"
  | S754_infinity false => "Infinity"
  | S754_infinity true => "-Infinity"
  | S754_zero _ => "0.0"
  | S754_finite sign m e =>
      if PrimFloat.leb 1e21%float (PrimFloat.abs x) then exponent_form x
      else (if sign then "-" else EmptyString) +:+ tenths_string (nearest_tenths m e)
  end.

(** [`${((a / b) * 100).toFixed(1)}%`]. *)
Definition successRate (a b : nat) : string :=
  toFixed1 (PrimFloat.mul (PrimFloat.div (nat_to_float a) (nat_to_float b)) 100%float)
    +:+ "%".

Definition TRANSACTION_CREATED := "transaction.created".

(** The first stretch of every callback of [requests.map(async ...)]:
    [createTransaction] has no suspension point, so the call made by the
    callback of index [index] runs to its end, returning or throwing,
    before the callback of index [index + 1] starts. *)
Fixpoint create_each (index : nat) (requests : list CreateTransactionRequest)
  : M (list (nat * CreateTransactionRequest * Outcome Transaction)) :=
  match requests with
  | [] => ret []
  | request :: rest =>
      do outcome <- (fun s => let (o, s') := createTransaction request s in (Returned o, s'));
      do others <- create_each (S index) rest;
      ret ((index, request, outcome) :: others)
  end.

(** What the continuations append: a created transaction goes to
    [successful]; a creation that threw goes to [failed] with its message. *)
Definition created (settled : list (nat * CreateTransactionRequest * Outcome Transaction))
  : list Transaction :=
  flat_map (fun item =>
    match item with
    | (_, _, Returned transaction) => [transaction]
    | (_, _, Thrown _) => []
    end) settled.

Definition rejected (settled : list (nat * CreateTransactionRequest * Outcome Transaction))
  : list FailedCreate :=
  flat_map (fun item =>
    match item with
    | (_, _, Returned _) => []
    | (index, request, Thrown message) => [mkFailedCreate index request message]
    end) settled.

(** The [catch] block also receives a rejection of [triggerEvent], which is
    inside the [try]: the item, already in [successful], is then appended
    to [failed] too (after the creation failures, which are appended one
    tick after the callbacks start). *)
Definition undelivered (settled : list (nat * CreateTransactionRequest * Outcome Transaction))
  : list FailedCreate :=
  flat_map (fun item =>
    match item with
    | (index, request, Returned _) =>
        match trigger_rejects TRANSACTION_CREATED index with
        | Some message => [mkFailedCreate index request message]
        | None => []
        end
    | (_, _, Thrown _) => []
    end) settled.

(** [batchCreate(requests)].  The deliveries the dispatcher makes for the
    created transactions are described with [sendWebhook] below and leave
    the result of the batch untouched. *)
Definition batchCreate (requests : list CreateTransactionRequest) : M BatchCreateResult :=
  do s <- get_state;
  if (maxBatchSize s <? length requests)%nat then
    throw ("Batch size exceeds maximum of " +:+ pretty (maxBatchSize s))
  else
    do settled <- create_each 0 requests;
    let successful := created settled in
    let failed := (rejected settled ++ undelivered settled)%list in
    ret (mkBatchCreateResult successful failed
           (mkSummary (length requests) (length successful) (length failed)
              (successRate (length successful) (length requests)))).

(** [setMaxBatchSize(size)]. *)
Definition setMaxBatchSize (size : nat) : M unit :=
  if ((size <? 1) || (1000 <? size))%nat then
    throw "Batch size must be between 1 and 1000"
  else modify (with_maxBatchSize size).

(** *** [WebhookService] (in-memory store) *)

(** [JSON.stringify(body)], [crypto.createHmac('sha256', secret)
    .update(payload).digest('hex')] and [date.toISOString()]. *)
Variable JSON_stringify : Envelope -> string.
Variable hmac_sha256_hex : string -> string -> string.
Variable toISOString : Z -> string.

(** [generateSignature(payload, secret)]. *)
Definition generateSignature (payload secret : string) : string :=
  hmac_sha256_hex secret payload.

(** [if (webhook.secret)]: an absent and an empty secret are both falsy. *)
Definition configured_secret (webhook : Webhook) : option string :=
  match wh_secret webhook with
  | Some secret => if String.eqb secret EmptyString then None else Some secret
  | None => None
  end.

Definition build_request (webhook : Webhook) (event : string) (payload : JsValue)
    (now : Z) : Request :=
  let timestamp := toISOString now in
  let body := mkEnvelope event timestamp payload in
  let headers :=
    [("Content-Type", "application/json");
     ("X-Webhook-Event", event);
     ("X-Webhook-Timestamp", timestamp)] in
  let headers :=
    match configured_secret webhook with
    | Some secret =>
        (headers ++ [("X-Webhook-Signature",
                      generateSignature (JSON_stringify body) secret)])%list
    | None => headers
    end in
  mkHttpRequest (wh_url webhook) body headers 10000.

(** [headers[name]]. *)
Definition header (name : string) (r : Request) : option string :=
  jsmap_get name (http_headers r).

(** [saveLog(log)]. *)
Definition saveLog (log : WebhookLog) : M unit :=
  modify (with_webhookLogs (insert (log_id log) log)).

(** [setTimeout(() => this.sendWebhook(webhook, event, payload, attempt + 1), delay)]. *)
Definition setTimeout (t : Timer) : M unit :=
  modify (with_timers (fun pending => (pending ++ [t])%list)).

(** [sendWebhook(webhook, event, payload, attempt)]; [post] is what the
    network does with the request of this attempt. *)
Definition sendWebhook (post : Request -> HttpOutcome) (webhook : Webhook)
    (event : string) (payload : JsValue) (attempt : nat) : M unit :=
  do now <- new_Date;
  let request := build_request webhook event payload now in
  do log <-
    match post request with
    | HttpResolved status data =>
        do id <- uuidv4;
        do createdAt <- new_Date;
        ret (mkWebhookLog id (wh_id webhook) event payload
               (Some (mkResponse status (Some data))) true None attempt createdAt)
    | HttpRejected message response =>
        do id <- uuidv4;
        do createdAt <- new_Date;
        let log :=
          mkWebhookLog id (wh_id webhook) event payload response false
            (Some message) attempt createdAt in
        logError ES_WARNING NETWORK "WEBHOOK_FAILED"
          ("Webhook " +:+ wh_name webhook +:+ " failed: " +:+ message) None ;;
        (if (attempt <? wh_maxRetries webhook)%nat then
           setTimeout (mkTimer (2 ^ Z.of_nat attempt * 1000) webhook event payload
                         (S attempt))
         else ret tt) ;;
        ret log
    end;
  saveLog log.

(** The event loop running the callback of the [i]-th pending timer. *)
Definition fire (post : Request -> HttpOutcome) (i : nat) : M unit :=
  do s <- get_state;
  match timers s !! i with
  | None => ret tt
  | Some t =>
      modify (with_timers (delete i)) ;;
      sendWebhook post (timer_webhook t) (timer_event t) (timer_payload t)
        (timer_attempt t)
  end.

(** [n] timers coming due one after the other, the oldest pending first. *)
Fixpoint fires (post : Request -> HttpOutcome) (n : nat) : M unit :=
  match n with
  | O => ret tt
  | S k => fire post 0 ;; fires post k
  end.

End Services.

Arguments uuidv4 uuid_nth s /.
Arguments new_Date s /.

(** ** Operations of the lifecycle manager, as a caller can issue them *)

(** No identifier is created. *)
Definition nothing : string -> Prop := fun _ => False.

Inductive Op :=
  | OpCreate (request : CreateTransactionRequest)
  | OpUpdateStatus (transactionId : string) (newStatus : TransactionStatus)
      (triggeredBy : string) (reason : option string)
  | OpProcess (random : float) (transactionId : string)
  | OpRetry (random : float) (transactionId : string)
  | OpCancel (transactionId : string) (reason : option string)
  | OpRefund (transactionId : string) (reason : option string).

Section Run.
Variable uuid_nth : nat -> string.
Variable regexp_test : JsValue -> string -> option bool.
Variable coerce_number : JsValue -> float.

(** The state an operation leaves, whether it returned or threw. *)
Definition run (op : Op) (s : State) : State :=
  match op with
  | OpCreate request => snd (createTransaction uuid_nth request s)
  | OpUpdateStatus id newStatus triggeredBy reason =>
      snd (updateStatus uuid_nth id newStatus triggeredBy reason s)
  | OpProcess random id =>
      snd (processTransaction uuid_nth regexp_test coerce_number random id s)
  | OpRetry random id =>
      snd (retryTransaction uuid_nth regexp_test coerce_number random id s)
  | OpCancel id reason => snd (cancelTransaction uuid_nth id reason s)
  | OpRefund id reason => snd (refundTransaction uuid_nth id reason s)
  end.

Definition run_all (ops : list Op) (s : State) : State :=
  fold_left (fun s op => run op s) ops s.

(** The identifiers an operation may create a transaction under. *)
Definition created_by (op : Op) (s : State) : string -> Prop :=
  match op with
  | OpCreate _ => fun id => id = uuid_nth (uuid_count s)
  | _ => nothing
  end.
End Run.

(** ** Properties of the stores *)

(** A run of transition records that starts in [from], ends in [to], and in
    which every record starts where the one before it ended. *)
Fixpoint linked (from : TransactionStatus) (h : list StatusTransition)
    (to : TransactionStatus) : Prop :=
  match h with
  | [] => from = to
  | t :: rest => st_fromStatus t = from /\ linked (st_toStatus t) rest to
  end.

(** The same, with every record a member of the allowed-transition table. *)
Fixpoint legal (from : TransactionStatus) (h : list StatusTransition)
    (to : TransactionStatus) : Prop :=
  match h with
  | [] => from = to
  | t :: rest =>
      st_fromStatus t = from /\
      In (st_toStatus t) (VALID_STATUS_TRANSITIONS from) /\
      legal (st_toStatus t) rest to
  end.

(** The chain property of a history, as a reader of the history sees it. *)
Definition chain (h : list StatusTransition) (current : TransactionStatus) : Prop :=
  (forall t, head h = Some t -> st_fromStatus t = PENDING) /\
  (forall i a b, h !! i = Some a -> h !! S i = Some b ->
     st_toStatus a = st_fromStatus b) /\
  (forall t, last h = Some t -> st_toStatus t = current).

(** Every stored transaction is linked to [PENDING] by its history. *)
Definition history_chain (s : State) : Prop :=
  forall id tx, transactions s !! id = Some tx ->
    linked PENDING (getStatusHistory s id) (tx_status tx).

(** Every stored transaction is within its retry budget. *)
Definition retry_bound (s : State) : Prop :=
  forall id tx, transactions s !! id = Some tx ->
    (tx_retryCount tx <= tx_maxRetries tx)%nat.

(** One write to the transaction store and its history: a recorded
    transition of the table, a write to fields other than the status, the
    creation of a transaction under an identifier [creates] admits, or
    nothing. *)
Inductive store_step (creates : string -> Prop) (s s' : State) : Prop :=
  | step_transition id tx tx' t :
      transactions s !! id = Some tx ->
      In (tx_status tx') (VALID_STATUS_TRANSITIONS (tx_status tx)) ->
      tx_retryCount tx' = tx_retryCount tx ->
      tx_maxRetries tx' = tx_maxRetries tx ->
      st_fromStatus t = tx_status tx ->
      st_toStatus t = tx_status tx' ->
      transactions s' = <[id := tx']> (transactions s) ->
      statusHistory s' = <[id := (getStatusHistory s id ++ [t])%list]> (statusHistory s) ->
      store_step creates s s'
  | step_annotate id tx tx' :
      transactions s !! id = Some tx ->
      tx_status tx' = tx_status tx ->
      ((tx_retryCount tx <= tx_maxRetries tx)%nat ->
       (tx_retryCount tx' <= tx_maxRetries tx')%nat) ->
      transactions s' = <[id := tx']> (transactions s) ->
      statusHistory s' = statusHistory s ->
      store_step creates s s'
  | step_create id tx :
      creates id ->
      tx_status tx = PENDING ->
      (tx_retryCount tx <= tx_maxRetries tx)%nat ->
      transactions s' = <[id := tx]> (transactions s) ->
      statusHistory s' = <[id := []]> (statusHistory s) ->
      store_step creates s s'
  | step_frame :
      transactions s' = transactions s ->
      statusHistory s' = statusHistory s ->
      store_step creates s s'.

(** From [s] to [s'] the transaction [id] stays stored, and what its history
    gained is a run of table transitions from its old status to its new one. *)
Definition extends (id : string) (s s' : State) : Prop :=
  forall tx, transactions s !! id = Some tx ->
    exists tx' added,
      transactions s' !! id = Some tx' /\
      getStatusHistory s' id = (getStatusHistory s id ++ added)%list /\
      legal (tx_status tx) added (tx_status tx').

(** What a call that only writes to the error log leaves as it was. *)
Definition frame (s s' : State) : Prop :=
  transactions s' = transactions s /\
  statusHistory s' = statusHistory s /\
  rules s' = rules s /\
  config s' = config s /\
  clock s' = clock s /\
  maxBatchSize s' = maxBatchSize s /\
  inMemoryWebhookLogs s' = inMemoryWebhookLogs s /\
  timers s' = timers s.

(** ** A sample environment, to instantiate the statements below *)

Definition sample_uuid (n : nat) : string := "uuid-" +:+ pretty n.

Definition sample_regexp (pattern : JsValue) (subject : string) : option bool :=
  Some false.

Definition sample_coerce (v : JsValue) : float := PrimFloat.nan.

(** The stores as they are when the modules are loaded, before the
    constructor of the rule engine runs. *)
Definition initial_state : State :=
  mkState ∅ ∅ [] defaultConfig 100 ∅ ∅ [] 0 0.

(** The state after the rule engine has seeded its default rules. *)
Definition seeded_state : State :=
  snd (initializeDefaultRules sample_uuid initial_state).

Definition sample_transaction (amount : float) (currency : string) : Transaction :=
  mkTransaction "tx-1" PAYMENT PENDING NORMAL amount currency "ACC-001"
    None None None 0 0 None None None 0 3.

Definition sample_request (amount : float) : CreateTransactionRequest :=
  mkRequest PAYMENT amount "usd" "ACC-001" (Some "ACC-002") None None None.

(** The first identifier handed out after the four default rules. *)
Definition first_id : string := "uuid-4".

(** One transaction of 100 USD, just created. *)
Definition pending_state : State :=
  run_all sample_uuid sample_regexp sample_coerce
    [OpCreate (sample_request 100%float)] seeded_state.

(** The same transaction processed with a draw of 0.5: completed. *)
Definition completed_state : State :=
  run_all sample_uuid sample_regexp sample_coerce
    [OpCreate (sample_request 100%float); OpProcess 0.5%float first_id] seeded_state.

(** The same transaction cancelled instead. *)
Definition cancelled_state : State :=
  run_all sample_uuid sample_regexp sample_coerce
    [OpCreate (sample_request 100%float); OpCancel first_id None] seeded_state.

(** A transaction of 150000 USD, denied by the rules and retried three
    times: failed, with its retry budget spent. *)
Definition exhausted_ops : list Op :=
  [OpCreate (sample_request 150000%float); OpProcess 0.5%float first_id;
   OpRetry 0.5%float first_id; OpRetry 0.5%float first_id; OpRetry 0.5%float first_id].

Definition exhausted_state : State :=
  run_all sample_uuid sample_regexp sample_coerce exhausted_ops seeded_state.

(** The transaction stored under [first_id], whatever the state holds there. *)
Definition first_transaction (s : State) : Transaction :=
  default (sample_transaction 0%float EmptyString) (transactions s !! first_id).

(** Stand-ins for the serializer, the HMAC and the ISO date format. *)
Definition sample_stringify (body : Envelope) : string :=
  "{" +:+ env_event body +:+ "," +:+ env_timestamp body +:+ "}".

Definition sample_hmac (secret payload : string) : string :=
  "hmac(" +:+ secret +:+ "," +:+ payload +:+ ")".

Definition sample_iso (t : Z) : string := pretty t.

Definition sample_webhook : Webhook :=
  mkWebhook "wh-1" "audit" "http://unreachable.invalid/hook" (Some "s3cret")
    ["transaction.created"] true 0 3 0 0.

(** A network on which every POST is rejected. *)
Definition unreachable (r : Request) : HttpOutcome :=
  HttpRejected "connect ECONNREFUSED" None.

(** ** Create-validation and the success rate, as the specification words them *)

(** The error create-validation answers with: the amount must be greater
    than 0, the currency and the source account must be present. *)
Definition validation_error (request : CreateTransactionRequest) : option string :=
  if falsy_number (req_amount request) || PrimFloat.leb (req_amount request) 0%float then
    Some "Amount must be greater than 0"
  else if String.eqb (req_currency request) EmptyString then Some "Currency is required"
  else if String.eqb (req_sourceAccount request) EmptyString then
    Some "Source account is required"
  else None.

Definition fails_validation (request : CreateTransactionRequest) : bool :=
  match validation_error request with
  | Some _ => true
  | None => false
  end.

(** The failure entries of a batch: for each request that fails validation,
    its position, the request itself and the message. *)
Fixpoint expected_failures (index : nat) (requests : list CreateTransactionRequest)
  : list FailedCreate :=
  match requests with
  | [] => []
  | request :: rest =>
      match validation_error request with
      | Some message =>
          mkFailedCreate index request message :: expected_failures (S index) rest
      | None => expected_failures (S index) rest
      end
  end.

(** [t] tenths is a value with one decimal nearest to the percentage
    [100 * a / b]: it is off by at most one twentieth. *)
Definition nearest_tenths_of (t : Z) (a b : nat) : Prop :=
  Z.abs (2 * t * Z.of_nat b - 2000 * Z.of_nat a) <= Z.of_nat b.

(** The percentage [100 * a / b] rounded to one decimal place, a half
    rounded up, and a half rounded to the even digit. *)
Definition half_up_tenths (a b : nat) : Z :=
  (2000 * Z.of_nat a + Z.of_nat b) / (2 * Z.of_nat b).

Definition half_even_tenths (a b : nat) : Z :=
  let q := (1000 * Z.of_nat a) / Z.of_nat b in
  let r := (1000 * Z.of_nat a) mod Z.of_nat b in
  if 2 * r <? Z.of_nat b then q
  else if Z.of_nat b <? 2 * r then q + 1
  else if Z.even q then q else q + 1.

Definition rounded_percentage (tenths : Z) : string := tenths_string tenths +:+ "%".

(** The largest maximum batch size [setMaxBatchSize] accepts; the service
    starts with 100. *)
Definition maxBatchSize_limit : nat := 1000.

(** The check of one success rate: the double [(a / b) * 100] is zero only
    for [a = 0]; otherwise it is positive, below 10^21, and the tenths
    [toFixed] picks are nearest to the exact percentage. *)
Definition rate_check (a b : nat) : bool :=
  let x := PrimFloat.mul (PrimFloat.div (nat_to_float a) (nat_to_float b)) 100%float in
  match Prim2SF x with
  | S754_zero _ => Nat.eqb a 0
  | S754_finite false m e =>
      negb (PrimFloat.leb 1e21%float (PrimFloat.abs x)) && (e <? 0) &&
      (Z.abs (2 * Z.shiftr (20 * Z.pos m + Z.shiftl 1 (- e)) (1 - e) * Z.of_nat b
              - 2000 * Z.of_nat a) <=? Z.of_nat b)
  | _ => false
  end.

(** The same check on machine integers: the mantissa [m] of the double,
    2^52 <= m < 2^53, and its exponent biased by [FloatOps.shift]. *)
Definition int_of_nat (n : nat) : int := Uint63.of_Z (Z.of_nat n).

Definition rate_check_int (a b : int) : bool :=
  let x := PrimFloat.mul (PrimFloat.div (PrimFloat.of_uint63 a) (PrimFloat.of_uint63 b))
             100%float in
  negb (PrimFloat.is_nan x) &&
  if PrimFloat.is_zero x then Uint63.eqb a 0
  else
    negb (PrimFloat.is_infinity x) && negb (PrimFloat.get_sign x) &&
    negb (PrimFloat.leb 1e21%float (PrimFloat.abs x)) &&
    let (r, se) := PrimFloat.frshiftexp x in
    let m := PrimFloat.normfr_mantissa r in
    (4503599627370496 <=? m)%uint63 && (m <? 9007199254740992)%uint63 &&
    (2097 <=? se)%uint63 && (se <? 2154)%uint63 &&
    let k := (2154 - se)%uint63 in
    let t := ((20 * m + (1 << k)) >> (k + 1))%uint63 in
    (t <=? 1001)%uint63 && (2 * t * b <=? 2000 * a + b)%uint63 &&
    (2000 * a <=? 2 * t * b + b)%uint63.

(** The check of the rates [a / b], [a] counted up from the given one. *)
Fixpoint rate_check_row (fuel : nat) (a b : int) : bool :=
  match fuel with
  | O => true
  | S fuel' => rate_check_int a b && rate_check_row fuel' (a + 1)%uint63 b
  end.

(** The check of the rates [a / b] for [0 <= a <= b], [b] counted up from
    the given one, which is [n]. *)
Fixpoint rate_check_rows (fuel : nat) (n : nat) (b : int) : bool :=
  match fuel with
  | O => true
  | S fuel' =>
      rate_check_row (S n) 0%uint63 b && rate_check_rows fuel' (S n) (b + 1)%uint63
  end.

(** A dispatcher that never rejects, and one that always does. *)
Definition always_delivers (event : string) (index : nat) : option string := None.

Definition never_delivers (event : string) (index : nat) : option string :=
  Some "webhook store unavailable".

Definition sample_exponent_form (x : float) : string := "1e+21".

(** Eighty requests, the first twenty-three valid, the other fifty-seven
    with a negative amount. *)
Definition eighty_requests : list CreateTransactionRequest :=
  (repeat (sample_request 100%float) 23 ++ repeat (sample_request (-1)%float) 57)%list.

(** A trigger of DENY: the rule did not pass and its result carries DENY. *)
Definition denies (r : RuleEvaluationResult) : Prop :=
  res_passed r = false /\ res_action r = DENY.

(** ** The other methods of the services *)

#[global] Instance TransactionType_eq_dec : EqDecision TransactionType.
Proof. solve_decision. Defined.

(** A [try] block seen from its [catch]: the outcome of the body, with
    nothing thrown further. *)
Definition attempt {A} (m : M A) : M (Outcome A) :=
  fun s => let (o, s') := m s in (Returned o, s').

(** [Array.from(m.values())] for a store kept as a finite map, which does
    not record the order in which its keys were first inserted: [order]
    lists the keys in that order. *)
Definition values_in {V} (order : list string) (m : gmap string V) : list V :=
  omap (fun k => m !! k) order.

Definition insertion_order {V} (order : list string) (m : gmap string V) : Prop :=
  NoDup order /\ forall k, k ∈ order <-> is_Some (m !! k).

(** [.sort((a, b) => b.createdAt.getTime() - a.createdAt.getTime())]: the
    newest first; the sort is stable, so entries of the same millisecond
    keep the order they had. *)
Section NewestFirst.
Context {A : Type} (time : A -> Z).

Fixpoint insert_newest (x : A) (l : list A) : list A :=
  match l with
  | [] => [x]
  | y :: rest => if time y <=? time x then x :: l else y :: insert_newest x rest
  end.

Definition sort_newest_first (l : list A) : list A := fold_right insert_newest [] l.
End NewestFirst.



(** *** [TransactionService], the queries *)

(** [getAllTransactions()]. *)
Definition getAllTransactions (order : list string) (s : State) : list Transaction :=
  sort_newest_first tx_createdAt (values_in order (transactions s)).

(** [getTransactionsByStatus(status)] and [getTransactionsByType(type)]. *)
Definition getTransactionsByStatus (order : list string) (status : TransactionStatus)
    (s : State) : list Transaction :=
  List.filter (fun t => bool_decide (tx_status t = status)) (getAllTransactions order s).

Definition getTransactionsByType (order : list string) (type : TransactionType)
    (s : State) : list Transaction :=
  List.filter (fun t => bool_decide (tx_type t = type)) (getAllTransactions order s).

(** The value [getStats()] returns. *)
Record TransactionStats := mkStats {
  stats_total : nat;
  stats_byStatus : TransactionStatus -> nat;
  stats_byType : TransactionType -> nat;
  stats_totalAmount : float;
  stats_averageAmount : float
}.

(** [record[key]++]. *)
Definition increment {K} `{EqDecision K} (key : K) (record : K -> nat) : K -> nat :=
  fun k => if decide (k = key) then S (record k) else record k.

(** The locals [byStatus], [byType], [totalAmount] of [getStats()] and the
    body of its [forEach]. *)
Record Tally := mkTally {
  tally_byStatus : TransactionStatus -> nat;
  tally_byType : TransactionType -> nat;
  tally_totalAmount : float
}.

Definition tally_one (acc : Tally) (t : Transaction) : Tally :=
  mkTally (increment (tx_status t) (tally_byStatus acc))
    (increment (tx_type t) (tally_byType acc))
    (PrimFloat.add (tally_totalAmount acc) (tx_amount t)).

(** [getStats()]. *)
Definition getStats (order : list string) (s : State) : TransactionStats :=
  let allTransactions := getAllTransactions order s in
  let tally :=
    fold_left tally_one allTransactions (mkTally (fun _ => 0%nat) (fun _ => 0%nat) 0%float) in
  mkStats (length allTransactions) (tally_byStatus tally) (tally_byType tally)
    (tally_totalAmount tally)
    (if (0 <? length allTransactions)%nat then
       PrimFloat.div (tally_totalAmount tally) (nat_to_float (length allTransactions))
     else 0%float).

(** The state [updateStatus] leaves when it moves the stored transaction
    [transaction] to [newStatus]. *)
Definition moved (transactionId : string) (newStatus : TransactionStatus)
    (triggeredBy : string) (reason : option string) (transaction : Transaction)
    (s : State) : State :=
  with_statusHistory
    (insert transactionId
       (getStatusHistory s transactionId ++
          [mkTransition transactionId (tx_status transaction) newStatus (clock s) reason
             triggeredBy])%list)
    (with_transactions
       (insert transactionId (tx_set_status newStatus (clock s) transaction)) s).

(** *** [RulesEngine], the rule store *)

(** The [updates] of [updateRule]: the properties present.  The declared
    type [Partial<Omit<Rule, 'id' | 'createdAt'>>] leaves [id] and
    [createdAt] out, but the controller passes the body of the request as
    it came, which may carry them. *)
Record RuleUpdates := mkUpdates {
  upd_id : option string;
  upd_name : option string;
  upd_description : option string;
  upd_enabled : option bool;
  upd_priority : option Z;
  upd_condition : option RuleCondition;
  upd_action : option RuleAction;
  upd_severity : option RuleSeverity;
  upd_createdAt : option Z;
  upd_updatedAt : option Z
}.

(** [{ ...rule, ...updates, updatedAt: new Date() }]. *)
Definition updated_rule (rule : Rule) (updates : RuleUpdates) (now : Z) : Rule :=
  mkRule
    (default (rule_id rule) (upd_id updates))
    (default (rule_name rule) (upd_name updates))
    (default (rule_description rule) (upd_description updates))
    (default (rule_enabled rule) (upd_enabled updates))
    (default (rule_priority rule) (upd_priority updates))
    (default (rule_condition rule) (upd_condition updates))
    (default (rule_action rule) (upd_action updates))
    (default (rule_severity rule) (upd_severity updates))
    (default (rule_createdAt rule) (upd_createdAt updates))
    now.

(** [updateRule(id, updates)]. *)
Definition updateRule (id : string) (updates : RuleUpdates) : M (option Rule) :=
  do s <- get_state;
  match jsmap_get id (rules s) with
  | Some rule =>
      do now <- new_Date;
      let updatedRule := updated_rule rule updates now in
      modify (with_rules (jsmap_set id updatedRule)) ;;
      ret (Some updatedRule)
  | None => ret None
  end.

(** [setRuleEnabled(id, enabled)]. *)
Definition setRuleEnabled (id : string) (enabled : bool) : M (option Rule) :=
  updateRule id (mkUpdates None None None (Some enabled) None None None None None None).

(** [getRule(id)], [getAllRules()]. *)
Definition getRule (s : State) (id : string) : option Rule := jsmap_get id (rules s).

Definition getAllRules (s : State) : list Rule :=
  sort_by_priority (jsmap_values (rules s)).

(** *** [WebhookService], the webhook store and the dispatch of an event

    The webhooks are the module-level [Map] [inMemoryWebhooks]; the methods
    that write to it take it and hand it back. *)

(** [WEBHOOK_EVENTS], in the order of the object; [getAvailableEvents()]. *)
Definition WEBHOOK_EVENTS : list string :=
  ["transaction.created"; "transaction.processing"; "transaction.completed";
   "transaction.failed"; "transaction.cancelled"; "transaction.refunded";
   "rule.triggered"; "error.critical"].

Definition getAvailableEvents : list string := WEBHOOK_EVENTS.

Definition TRANSACTION_COMPLETED := "transaction.completed".
Definition TRANSACTION_FAILED := "transaction.failed".
Definition TRANSACTION_CANCELLED := "transaction.cancelled".

(** The argument of [createWebhook]. *)
Record WebhookData := mkWebhookData {
  wd_name : string;
  wd_url : string;
  wd_events : list string;
  wd_secret : option string
}.

(** [Partial<Webhook>]: the properties present ([secret] may be present
    and [undefined]). *)
Record WebhookUpdates := mkWebhookUpdates {
  wu_id : option string;
  wu_name : option string;
  wu_url : option string;
  wu_secret : option (option string);
  wu_events : option (list string);
  wu_isActive : option bool;
  wu_retryCount : option nat;
  wu_maxRetries : option nat;
  wu_createdAt : option Z;
  wu_updatedAt : option Z
}.

(** [{ ...webhook, ...updates, updatedAt: new Date() }]. *)
Definition updated_webhook (webhook : Webhook) (updates : WebhookUpdates) (now : Z)
  : Webhook :=
  mkWebhook
    (default (wh_id webhook) (wu_id updates))
    (default (wh_name webhook) (wu_name updates))
    (default (wh_url webhook) (wu_url updates))
    (default (wh_secret webhook) (wu_secret updates))
    (default (wh_events webhook) (wu_events updates))
    (default (wh_isActive webhook) (wu_isActive updates))
    (default (wh_retryCount webhook) (wu_retryCount updates))
    (default (wh_maxRetries webhook) (wu_maxRetries updates))
    (default (wh_createdAt webhook) (wu_createdAt updates))
    now.

(** [getAllWebhooks()], [getWebhook(id)]. *)
Definition getAllWebhooks (webhooks : list (string * Webhook)) : list Webhook :=
  jsmap_values webhooks.

Definition getWebhook (webhooks : list (string * Webhook)) (id : string) : option Webhook :=
  jsmap_get id webhooks.

(** [deleteWebhook(id)]: whether the key was there, and the store after. *)
Definition deleteWebhook (id : string) (webhooks : list (string * Webhook))
  : bool * list (string * Webhook) :=
  match jsmap_get id webhooks with
  | Some _ => (true, jsmap_delete id webhooks)
  | None => (false, webhooks)
  end.

(** [getActiveWebhooksForEvent(event)]. *)
Definition getActiveWebhooksForEvent (webhooks : list (string * Webhook)) (event : string)
  : list Webhook :=
  List.filter (fun w => wh_isActive w && existsb (String.eqb event) (wh_events w))
    (getAllWebhooks webhooks).

Section Dispatch.
Variable uuid_nth : nat -> string.
Variable JSON_stringify : Envelope -> string.
Variable hmac_sha256_hex : string -> string -> string.
Variable toISOString : Z -> string.

(** What the network does with a request. *)
Variable post : Request -> HttpOutcome.

(** The order in which the POSTs of one event settle. *)
Variable settle : list Webhook -> list Webhook.

(** [createWebhook(data)]. *)
Definition createWebhook (data : WebhookData) (webhooks : list (string * Webhook))
  : M (Webhook * list (string * Webhook)) :=
  do now <- new_Date;
  do id <- uuidv4 uuid_nth;
  let webhook :=
    mkWebhook id (wd_name data) (wd_url data) (wd_secret data) (wd_events data)
      true 0 3 now now in
  ret (webhook, jsmap_set (wh_id webhook) webhook webhooks).

(** [updateWebhook(id, updates)]. *)
Definition updateWebhook (id : string) (updates : WebhookUpdates)
    (webhooks : list (string * Webhook))
  : M (option Webhook * list (string * Webhook)) :=
  match jsmap_get id webhooks with
  | None => ret (None, webhooks)
  | Some webhook =>
      do now <- new_Date;
      let updated := updated_webhook webhook updates now in
      ret (Some updated, jsmap_set id updated webhooks)
  end.

(** The first attempts of one event.  Every request is posted before any
    answer is handled; each answer is then handled in one stretch (log,
    error entry, timer), in the order the answers come. *)
Fixpoint send_each (event : string) (payload : JsValue) (targets : list Webhook)
  : M unit :=
  match targets with
  | [] => ret tt
  | webhook :: rest =>
      attempt (sendWebhook uuid_nth JSON_stringify hmac_sha256_hex toISOString post
                 webhook event payload 1) ;;
      send_each event payload rest
  end.

(** [triggerEvent(event, payload)]; [Promise.allSettled] takes every
    outcome. *)
Definition triggerEvent (webhooks : list (string * Webhook)) (event : string)
    (payload : JsValue) : M unit :=
  send_each event payload (settle (getActiveWebhooksForEvent webhooks event)).

End Dispatch.


(** *** [BatchService], the sequential batches *)

Record FailedItem := mkFailedItem {
  fi_transactionId : string;
  fi_error : string
}.

Record ProcessSummary := mkProcessSummary {
  ps_total : nat;
  ps_completed : nat;
  ps_failed : nat;
  ps_successRate : string
}.

Record BatchProcessResult := mkBatchProcessResult {
  bp_processed : list Transaction;
  bp_failed : list FailedItem;
  bp_summary : ProcessSummary
}.

Record BatchCancelResult := mkBatchCancelResult {
  bcr_cancelled : list Transaction;
  bcr_failed : list FailedItem
}.

(** [processed.filter(t => t.status === TransactionStatus.COMPLETED).length]. *)
Definition count_completed (processed : list Transaction) : nat :=
  length (List.filter (fun t => bool_decide (tx_status t = COMPLETED)) processed).

Section Batches.
Variable uuid_nth : nat -> string.
Variable regexp_test : JsValue -> string -> option bool.
Variable coerce_number : JsValue -> float.
Variable exponent_form : float -> string.
Variable JSON_stringify : Envelope -> string.
Variable hmac_sha256_hex : string -> string -> string.
Variable toISOString : Z -> string.
Variable post : Request -> HttpOutcome.
Variable settle : list Webhook -> list Webhook.

(** The webhooks registered while the batch runs. *)
Variable webhooks : list (string * Webhook).

(** The value [Math.random()] returns to the item of the given position,
    if its processing reaches the draw. *)
Variable random : nat -> float.

(** The summary of [batchProcess]. *)
Definition process_summary (total : nat) (processed : list Transaction)
    (failed : list FailedItem) : ProcessSummary :=
  let completed := count_completed processed in
  mkProcessSummary total completed
    (length failed + (length processed - completed))
    (successRate exponent_form completed total).

(** The loop of [batchProcess], from the position and the identifiers
    still to visit and the arrays [processed] and [failed].  The payload
    [{ transaction }] of the event is an object. *)
Fixpoint process_each (index : nat) (transactionIds : list string)
    (processed : list Transaction) (failed : list FailedItem)
  : M (list Transaction * list FailedItem) :=
  match transactionIds with
  | [] => ret (processed, failed)
  | transactionId :: rest =>
      let caught (message : string) (processed : list Transaction) :=
        logError uuid_nth ES_ERROR EC_PROCESSING "BATCH_PROCESS_FAILED"
          ("Batch processing failed for transaction " +:+ transactionId)
          (Some transactionId) ;;
        process_each (S index) rest processed
          (failed ++ [mkFailedItem transactionId message])%list in
      do outcome <-
        attempt (processTransaction uuid_nth regexp_test coerce_number (random index)
                   transactionId);
      match outcome with
      | Thrown message => caught message processed
      | Returned transaction =>
          let processed := (processed ++ [transaction])%list in
          let event :=
            if bool_decide (tx_status transaction = COMPLETED) then TRANSACTION_COMPLETED
            else TRANSACTION_FAILED in
          do delivered <-
            attempt (triggerEvent uuid_nth JSON_stringify hmac_sha256_hex toISOString post
                       settle webhooks event JObject);
          match delivered with
          | Thrown message => caught message processed
          | Returned _ => process_each (S index) rest processed failed
          end
      end
  end.

(** [batchProcess(transactionIds)]. *)
Definition batchProcess (transactionIds : list string) : M BatchProcessResult :=
  do s <- get_state;
  if (maxBatchSize s <? length transactionIds)%nat then
    throw ("Batch size exceeds maximum of " +:+ pretty (maxBatchSize s))
  else
    do result <- process_each 0 transactionIds [] [];
    let (processed, failed) := result in
    ret (mkBatchProcessResult processed failed
           (process_summary (length transactionIds) processed failed)).

(** The loop of [batchCancel]. *)
Fixpoint cancel_each (transactionIds : list string) (reason : option string)
    (cancelled : list Transaction) (failed : list FailedItem)
  : M (list Transaction * list FailedItem) :=
  match transactionIds with
  | [] => ret (cancelled, failed)
  | transactionId :: rest =>
      do outcome <- attempt (cancelTransaction uuid_nth transactionId reason);
      match outcome with
      | Thrown message =>
          cancel_each rest reason cancelled
            (failed ++ [mkFailedItem transactionId message])%list
      | Returned transaction =>
          let cancelled := (cancelled ++ [transaction])%list in
          do delivered <-
            attempt (triggerEvent uuid_nth JSON_stringify hmac_sha256_hex toISOString post
                       settle webhooks TRANSACTION_CANCELLED JObject);
          match delivered with
          | Thrown message =>
              cancel_each rest reason cancelled
                (failed ++ [mkFailedItem transactionId message])%list
          | Returned _ => cancel_each rest reason cancelled failed
          end
      end
  end.

(** [batchCancel(transactionIds, reason)]. *)
Definition batchCancel (transactionIds : list string) (reason : option string)
  : M BatchCancelResult :=
  do result <- cancel_each transactionIds reason [] [];
  let (cancelled, failed) := result in
  ret (mkBatchCancelResult cancelled failed).


End Batches.

(** *** Readings of a list of rule results *)

(** The rule of this result did not pass and its result carries [action]. *)
Definition triggers (action : RuleAction) (r : RuleEvaluationResult) : bool :=
  negb (res_passed r) && bool_decide (res_action r = action).

(** The message of the last result that triggers DENY. *)
Definition last_deny_message (l : list RuleEvaluationResult) : option string :=
  match last (List.filter (triggers DENY) l) with
  | Some r => Some (res_message r)
  | None => None
  end.

(** Every rule is stored under its own identifier, once. *)
Definition rules_keyed_by_id (s : State) : Prop :=
  NoDup (map fst (rules s)) /\ Forall (fun entry => rule_id (snd entry) = fst entry) (rules s).

(** *** Which transaction an operation works on *)

(** The identifier an operation is aimed at; a creation is aimed at the
    identifier it is about to draw. *)
Definition target (uuid_nth : nat -> string) (op : Op) (s : State) : string :=
  match op with
  | OpCreate _ => uuid_nth (uuid_count s)
  | OpUpdateStatus id _ _ _ => id
  | OpProcess _ id => id
  | OpRetry _ id => id
  | OpCancel id _ => id
  | OpRefund id _ => id
  end.

(** From [s] to [s'] nothing changed under the identifier [id]: neither the
    transaction nor its history. *)
Definition untouched (id : string) (s s' : State) : Prop :=
  transactions s' !! id = transactions s !! id /\
  statusHistory s' !! id = statusHistory s !! id.

(** *** What a dispatch leaves alone *)

(** From [s] to [s'] only webhook logs, error entries, timers and drawn
    identifiers may differ. *)
Definition dispatch_frame (s s' : State) : Prop :=
  transactions s' = transactions s /\
  statusHistory s' = statusHistory s /\
  rules s' = rules s /\
  config s' = config s /\
  clock s' = clock s /\
  maxBatchSize s' = maxBatchSize s.

(** The webhook is registered, active and subscribed to the event. *)
Definition subscribed (webhooks : list (string * Webhook)) (event : string) (w : Webhook)
  : Prop :=
  w ∈ getAllWebhooks webhooks /\ wh_isActive w = true /\ event ∈ wh_events w.

(** Every webhook is registered under its own identifier, once. *)
Definition webhooks_keyed_by_id (webhooks : list (string * Webhook)) : Prop :=
  NoDup (map fst webhooks) /\
  Forall (fun entry => wh_id (snd entry) = fst entry) webhooks.

(** *** The identifiers drawn so far *)

(** A method body never takes back an identifier it has drawn, and the
    bodies below leave the maximum batch size alone: the count of the
    identifiers handed out does not go down and the maximum stays,
    whether the body returns or throws. *)
Definition grows {A} (m : M A) : Prop :=
  forall s,
    (uuid_count s <= uuid_count (snd (m s)))%nat /\
    maxBatchSize (snd (m s)) = maxBatchSize s.

(** *** Reading a success rate *)

(** The text is not the rendering of [t] tenths, unless [t] is [tenths]. *)
Definition reads_as (text : string) (tenths : Z) (t : nat) : bool :=
  implb (String.eqb (rounded_percentage (Z.of_nat t)) text) (Z.of_nat t =? tenths).

(** ** More of the sample environment *)

(** The identifier handed out after [first_id]. *)
Definition second_id : string := "uuid-5".

(** Two transactions just created, of 100 and of 250 USD, and the order in
    which their keys entered the store. *)
Definition two_pending_state : State :=
  run_all sample_uuid sample_regexp sample_coerce
    [OpCreate (sample_request 100%float); OpCreate (sample_request 250%float)] seeded_state.

Definition two_pending_order : list string := [first_id; second_id].

(** A transaction of 150000 USD, denied by the rules once: failed, with
    its retry budget untouched. *)
Definition denied_state : State :=
  run_all sample_uuid sample_regexp sample_coerce
    [OpCreate (sample_request 150000%float); OpProcess 0.5%float first_id] seeded_state.

(** A rule whose pattern the regular-expression constructor refuses, and
    an engine that refuses every pattern. *)
Definition Account_Pattern : RuleTemplate :=
  mkTemplate "Account Pattern" "Block the accounts that match" true 0
    (leaf ACCOUNT_PATTERN MATCHES (JStr "[") "sourceAccount") DENY RS_ERROR.

Definition refusing_regexp (pattern : JsValue) (subject : string) : option bool := None.

Definition pattern_state : State :=
  snd (addRule sample_uuid Account_Pattern pending_state).

(** One registered webhook, answers that come back in the reverse order,
    and a draw of 0.5 for every item of a batch. *)
Definition sample_webhooks : list (string * Webhook) := [("wh-1", sample_webhook)].

Definition sample_settle (targets : list Webhook) : list Webhook := reverse targets.

Definition sample_random (index : nat) : float := 0.5%float.

Definition sample_data : WebhookData :=
  mkWebhookData "ledger" "http://unreachable.invalid/ledger" ["transaction.completed"] None.

(** The transaction stored under [second_id], whatever the state holds there. *)
Definition second_transaction (s : State) : Transaction :=
  default (sample_transaction 0%float EmptyString) (transactions s !! second_id).


Definition open_webhook : Webhook :=
  mkWebhook "wh-2" "ledger" "http://unreachable.invalid/ledger" None
    ["transaction.completed"] true 0 3 0 0.

(** ** Basic facts *)

Lemma status_includes_In l s : status_includes l s = true <-> In s l.
Proof.
  unfold status_includes. rewrite existsb_exists. split.
  - intros (x & Hx & Hd). apply bool_decide_eq_true in Hd. by subst.
  - intros H. exists s. split; [done | by apply bool_decide_eq_true].
Qed.

Lemma linked_app a h1 b h2 c :
  linked a h1 b -> linked b h2 c -> linked a (h1 ++ h2) c.
Proof.
  revert a. induction h1 as [|t h1 IH]; simpl; intros a.
  - by intros ->.
  - intros [? ?] ?. split; eauto.
Qed.

Lemma legal_app a h1 b h2 c :
  legal a h1 b -> legal b h2 c -> legal a (h1 ++ h2) c.
Proof.
  revert a. induction h1 as [|t h1 IH]; simpl; intros a.
  - by intros ->.
  - intros (? & ? & ?) ?. repeat split; eauto.
Qed.

Lemma legal_linked a h b : legal a h b -> linked a h b.
Proof.
  revert a. induction h as [|t h IH]; simpl; intros a; [done |].
  intros (? & ? & ?). split; eauto.
Qed.

Lemma linked_chain h current : linked PENDING h current -> chain h current.
Proof.
  intros H. repeat split.
  - destruct h as [|t h]; simpl in *; [done |]. intros ? [= <-]. tauto.
  - generalize dependent PENDING. induction h as [|t h IH]; intros from H i a b Ha Hb.
    + done.
    + destruct H as [_ H]. destruct i as [|i]; simpl in *.
      * injection Ha as <-. destruct h as [|u h]; [done |].
        injection Hb as <-. simpl in H. by destruct H.
      * eapply IH; eauto.
  - generalize dependent PENDING. induction h as [|t h IH]; intros from H u Hu.
    + done.
    + destruct H as [_ H]. destruct h as [|v h].
      * simpl in *. injection Hu as <-. done.
      * eapply IH; eauto.
Qed.

Lemma frame_refl s : frame s s.
Proof. by repeat split. Qed.

Lemma frame_trans s1 s2 s3 : frame s1 s2 -> frame s2 s3 -> frame s1 s3.
Proof.
  unfold frame. intros (?&?&?&?&?&?&?&?) (?&?&?&?&?&?&?&?).
  repeat split; congruence.
Qed.

Lemma frame_step creates s s' : frame s s' -> store_step creates s s'.
Proof. intros (? & ? & _). by apply step_frame. Qed.

(** *** What one store step preserves *)

Lemma store_step_mono (c1 c2 : string -> Prop) s s' :
  (forall id, c1 id -> c2 id) -> store_step c1 s s' -> store_step c2 s s'.
Proof.
  intros Hc [id tx tx' t|id tx tx'|id tx|].
  - by eapply step_transition.
  - by eapply step_annotate.
  - eapply step_create; eauto.
  - by apply step_frame.
Qed.

Lemma steps_mono (c1 c2 : string -> Prop) s s' :
  (forall id, c1 id -> c2 id) -> rtc (store_step c1) s s' -> rtc (store_step c2) s s'.
Proof.
  intros Hc. induction 1 as [|s1 s2 s3 H _ IH]; [apply rtc_refl |].
  eapply rtc_l; [by eapply store_step_mono | done].
Qed.

Lemma history_lookup s s' id h :
  statusHistory s' = <[id := h]> (statusHistory s) -> getStatusHistory s' id = h.
Proof. intros H. unfold getStatusHistory. by rewrite H, lookup_insert_eq. Qed.

Lemma history_lookup_ne s s' id id' h :
  id <> id' -> statusHistory s' = <[id := h]> (statusHistory s) ->
  getStatusHistory s' id' = getStatusHistory s id'.
Proof. intros Hne H. unfold getStatusHistory. by rewrite H, lookup_insert_ne. Qed.

Lemma history_same s s' id :
  statusHistory s' = statusHistory s -> getStatusHistory s' id = getStatusHistory s id.
Proof. intros H. unfold getStatusHistory. by rewrite H. Qed.

Lemma step_history_chain creates s s' :
  store_step creates s s' -> history_chain s -> history_chain s'.
Proof.
  intros [id tx tx' t Htx Hin _ _ Hfrom Hto Ht Hh|id tx tx' Htx Hst _ Ht Hh
         |id tx _ Hst _ Ht Hh|Ht Hh] Hinv id0 tx0 H0; rewrite Ht in H0.
  - destruct (decide (id = id0)) as [<-|Hne].
    + rewrite lookup_insert_eq in H0. injection H0 as <-.
      rewrite (history_lookup _ _ _ _ Hh).
      eapply linked_app; [by apply Hinv |]. simpl. by rewrite Hfrom, Hto.
    + rewrite lookup_insert_ne in H0 by done.
      rewrite (history_lookup_ne _ _ _ _ _ Hne Hh). by apply Hinv.
  - rewrite (history_same _ _ _ Hh).
    destruct (decide (id = id0)) as [<-|Hne].
    + rewrite lookup_insert_eq in H0. injection H0 as <-. rewrite Hst. by apply Hinv.
    + rewrite lookup_insert_ne in H0 by done. by apply Hinv.
  - destruct (decide (id = id0)) as [<-|Hne].
    + rewrite lookup_insert_eq in H0. injection H0 as <-.
      rewrite (history_lookup _ _ _ _ Hh). simpl. by rewrite Hst.
    + rewrite lookup_insert_ne in H0 by done.
      rewrite (history_lookup_ne _ _ _ _ _ Hne Hh). by apply Hinv.
  - rewrite (history_same _ _ _ Hh). by apply Hinv.
Qed.

Lemma step_retry_bound creates s s' :
  store_step creates s s' -> retry_bound s -> retry_bound s'.
Proof.
  intros [id tx tx' t Htx _ Hr Hm _ _ Ht _|id tx tx' Htx _ Hr Ht _
         |id tx _ _ Hr Ht _|Ht _] Hinv id0 tx0 H0; rewrite Ht in H0.
  - destruct (decide (id = id0)) as [<-|Hne].
    + rewrite lookup_insert_eq in H0. injection H0 as <-.
      rewrite Hr, Hm. by eapply Hinv.
    + rewrite lookup_insert_ne in H0 by done. by eapply Hinv.
  - destruct (decide (id = id0)) as [<-|Hne].
    + rewrite lookup_insert_eq in H0. injection H0 as <-. apply Hr. by eapply Hinv.
    + rewrite lookup_insert_ne in H0 by done. by eapply Hinv.
  - destruct (decide (id = id0)) as [<-|Hne].
    + rewrite lookup_insert_eq in H0. by injection H0 as <-.
    + rewrite lookup_insert_ne in H0 by done. by eapply Hinv.
  - by eapply Hinv.
Qed.

Lemma extends_refl id s : extends id s s.
Proof.
  intros tx Htx. exists tx, []. split; [done |]. by rewrite app_nil_r.
Qed.

Lemma extends_trans id s1 s2 s3 :
  extends id s1 s2 -> extends id s2 s3 -> extends id s1 s3.
Proof.
  intros H12 H23 tx Htx.
  destruct (H12 tx Htx) as (tx2 & a12 & Htx2 & Hh2 & Hl2).
  destruct (H23 tx2 Htx2) as (tx3 & a23 & Htx3 & Hh3 & Hl3).
  exists tx3, (a12 ++ a23)%list. split; [done |]. split.
  - by rewrite Hh3, Hh2, app_assoc.
  - by eapply legal_app.
Qed.

Lemma step_extends (creates : string -> Prop) id s s' :
  ~ creates id -> store_step creates s s' -> extends id s s'.
Proof.
  intros Hc [id1 tx1 tx' t Htx Hin _ _ Hfrom Hto Ht Hh|id1 tx1 tx' Htx Hst _ Ht Hh
            |id1 tx1 Hcr _ _ Ht Hh|Ht Hh] tx H0.
  - destruct (decide (id1 = id)) as [->|Hne].
    + exists tx', [t]. rewrite Ht, lookup_insert_eq, (history_lookup _ _ _ _ Hh).
      assert (tx1 = tx) as -> by congruence.
      repeat split; simpl; rewrite ?Hto; auto.
    + exists tx, []. rewrite Ht, lookup_insert_ne by done.
      rewrite (history_lookup_ne _ _ _ _ _ Hne Hh), app_nil_r. by repeat split.
  - rewrite (history_same _ _ _ Hh). destruct (decide (id1 = id)) as [->|Hne].
    + exists tx', []. rewrite Ht, lookup_insert_eq, app_nil_r.
      assert (tx1 = tx) as -> by congruence. by repeat split.
    + exists tx, []. rewrite Ht, lookup_insert_ne by done.
      rewrite app_nil_r. by repeat split.
  - destruct (decide (id1 = id)) as [->|Hne]; [done |].
    exists tx, []. rewrite Ht, lookup_insert_ne by done.
    rewrite (history_lookup_ne _ _ _ _ _ Hne Hh), app_nil_r. by repeat split.
  - exists tx, []. rewrite Ht, (history_same _ _ _ Hh), app_nil_r. by repeat split.
Qed.

Lemma steps_history_chain creates s s' :
  rtc (store_step creates) s s' -> history_chain s -> history_chain s'.
Proof. induction 1; eauto using step_history_chain. Qed.

Lemma steps_retry_bound creates s s' :
  rtc (store_step creates) s s' -> retry_bound s -> retry_bound s'.
Proof. induction 1; eauto using step_retry_bound. Qed.

Lemma steps_extends (creates : string -> Prop) id s s' :
  ~ creates id -> rtc (store_step creates) s s' -> extends id s s'.
Proof.
  intros Hc. induction 1; [apply extends_refl |].
  eapply extends_trans; [by eapply step_extends | done].
Qed.

Section Lifecycle.
Variable uuid_nth : nat -> string.
Variable regexp_test : JsValue -> string -> option bool.
Variable coerce_number : JsValue -> float.


Lemma logError_frame severity category code message transactionId s :
  exists entry s',
    logError uuid_nth severity category code message transactionId s
      = (Returned entry, s') /\ frame s s'.
Proof.
  unfold logError, bind, uuidv4, new_Date, modify, ret.
  eexists _, _. split; [reflexivity |]. by repeat split.
Qed.

(** [updateStatus] on a transaction the table lets move. *)
Lemma updateStatus_moves id newStatus triggeredBy reason s tx :
  transactions s !! id = Some tx ->
  In newStatus (VALID_STATUS_TRANSITIONS (tx_status tx)) ->
  exists s',
    updateStatus uuid_nth id newStatus triggeredBy reason s
      = (Returned (tx_set_status newStatus (clock s) tx), s') /\
    transactions s' = <[id := tx_set_status newStatus (clock s) tx]> (transactions s) /\
    statusHistory s' =
      <[id := (getStatusHistory s id ++
                [mkTransition id (tx_status tx) newStatus (clock s) reason triggeredBy])%list]>
        (statusHistory s) /\
    rules s' = rules s /\ config s' = config s /\ clock s' = clock s /\
    errorLogs s' = errorLogs s /\ uuid_count s' = uuid_count s.
Proof.
  intros Htx Hin. apply status_includes_In in Hin.
  unfold updateStatus, bind, get_state. rewrite Htx, Hin. simpl.
  eexists. split; [reflexivity |]. by repeat split.
Qed.

(** [updateStatus] on a transition outside the table. *)
Lemma updateStatus_rejects id newStatus triggeredBy reason s tx :
  transactions s !! id = Some tx ->
  ~ In newStatus (VALID_STATUS_TRANSITIONS (tx_status tx)) ->
  exists s',
    updateStatus uuid_nth id newStatus triggeredBy reason s
      = (Thrown (invalid_transition (tx_status tx) newStatus), s') /\
    frame s s'.
Proof.
  intros Htx Hin.
  assert (status_includes (VALID_STATUS_TRANSITIONS (tx_status tx)) newStatus = false) as Hf.
  { apply not_true_is_false. by rewrite status_includes_In. }
  unfold updateStatus, bind, get_state. rewrite Htx, Hf. simpl.
  unfold logError, bind, uuidv4, new_Date, modify, ret, throw.
  eexists. split; [reflexivity |]. by repeat split.
Qed.

Lemma updateStatus_missing id newStatus triggeredBy reason s :
  transactions s !! id = None ->
  updateStatus uuid_nth id newStatus triggeredBy reason s = (Thrown (not_found id), s).
Proof.
  intros Htx. unfold updateStatus, bind, get_state. by rewrite Htx.
Qed.

(** *** The rule engine writes to the error log only *)

Lemma evaluate_loop_frame tx remaining acc s :
  frame s (snd (evaluate_loop uuid_nth regexp_test coerce_number tx remaining acc s)).
Proof.
  revert acc s. induction remaining as [|rule rest IH]; intros acc s; simpl.
  - apply frame_refl.
  - unfold bind at 1. simpl.
    destruct (evaluateRule regexp_test coerce_number rule tx (clock s)) as [result|];
      [| apply frame_refl].
    destruct (res_passed result); [apply IH |].
    destruct (res_action result); try apply IH.
    + unfold bind at 1.
      destruct (logError_frame ES_WARNING BUSINESS_RULE RULE_VIOLATION
                  ("Rule " +:+ dquote +:+ rule_name rule +:+ dquote +:+ " violated: "
                     +:+ res_message result) (Some (tx_id tx)) s)
        as (entry & s1 & Hlog & Hf).
      unfold logRuleViolation. rewrite Hlog. unfold bind at 1, get_state.
      destruct (stopOnFirstDeny (config s1)); [done |].
      eapply frame_trans; [exact Hf | apply IH].
    + unfold bind at 1.
      destruct (logError_frame ES_WARNING BUSINESS_RULE RULE_VIOLATION
                  ("Rule " +:+ dquote +:+ rule_name rule +:+ dquote +:+ " violated: "
                     +:+ res_message result) (Some (tx_id tx)) s)
        as (entry & s1 & Hlog & Hf).
      unfold logRuleViolation. rewrite Hlog.
      eapply frame_trans; [exact Hf | apply IH].
Qed.

Lemma evaluateTransaction_frame tx s :
  frame s (snd (evaluateTransaction uuid_nth regexp_test coerce_number tx s)).
Proof. unfold evaluateTransaction, bind, get_state. apply evaluate_loop_frame. Qed.

(** *** Every lifecycle operation is a sequence of store steps *)

Lemma In_dec_status (x : TransactionStatus) l : {In x l} + {~ In x l}.
Proof. apply in_dec. intros a b. destruct (decide (a = b)); auto. Qed.

Lemma updateStatus_steps id newStatus triggeredBy reason s :
  rtc (store_step nothing) s (snd (updateStatus uuid_nth id newStatus triggeredBy reason s)) /\
  forall tx', fst (updateStatus uuid_nth id newStatus triggeredBy reason s) = Returned tx' ->
    transactions (snd (updateStatus uuid_nth id newStatus triggeredBy reason s)) !! id
      = Some tx' /\
    tx_status tx' = newStatus.
Proof.
  destruct (transactions s !! id) as [tx|] eqn:Htx.
  - destruct (In_dec_status newStatus (VALID_STATUS_TRANSITIONS (tx_status tx))) as [Hin|Hin].
    + destruct (updateStatus_moves id newStatus triggeredBy reason s tx Htx Hin)
        as (s' & -> & Ht & Hh & _). simpl. split.
      * apply rtc_once.
        eapply step_transition; [exact Htx | | | | | | exact Ht | exact Hh]; simpl; auto.
      * intros tx' [= <-]. by rewrite Ht, lookup_insert_eq.
    + destruct (updateStatus_rejects id newStatus triggeredBy reason s tx Htx Hin)
        as (s' & -> & Hf). simpl. split; [| done].
      apply rtc_once. by apply frame_step.
  - rewrite updateStatus_missing by done. simpl. split; [apply rtc_refl | done].
Qed.

Lemma annotate_steps id tx' s :
  (forall tx, transactions s !! id = Some tx ->
     tx_status tx' = tx_status tx /\
     ((tx_retryCount tx <= tx_maxRetries tx)%nat ->
      (tx_retryCount tx' <= tx_maxRetries tx')%nat)) ->
  is_Some (transactions s !! id) ->
  store_step nothing s (with_transactions (insert id tx') s).
Proof.
  intros H [tx Htx]. destruct (H tx Htx). by eapply step_annotate.
Qed.

Lemma createTransaction_steps request s :
  store_step (fun id => id = uuid_nth (uuid_count s)) s
    (snd (createTransaction uuid_nth request s)).
Proof.
  unfold createTransaction.
  destruct (_ || _).
  { destruct (logError_frame ES_ERROR VALIDATION INVALID_AMOUNT
                "Amount must be greater than 0" None s) as (e & s' & Hlog & Hf).
    unfold bind, logValidationError. rewrite Hlog. by apply frame_step. }
  destruct (String.eqb (req_currency request) EmptyString).
  { destruct (logError_frame ES_ERROR VALIDATION INVALID_CURRENCY
                "Currency is required" None s) as (e & s' & Hlog & Hf).
    unfold bind, logValidationError. rewrite Hlog. by apply frame_step. }
  destruct (String.eqb (req_sourceAccount request) EmptyString).
  { destruct (logError_frame ES_ERROR VALIDATION INVALID_ACCOUNT
                "Source account is required" None s) as (e & s' & Hlog & Hf).
    unfold bind, logValidationError. rewrite Hlog. by apply frame_step. }
  unfold bind, uuidv4, new_Date, modify, ret. simpl.
  eapply step_create; cycle 3;
    [reflexivity | reflexivity | reflexivity | reflexivity | simpl; lia].
Qed.

Lemma processTransaction_steps random id s :
  rtc (store_step nothing) s
    (snd (processTransaction uuid_nth regexp_test coerce_number random id s)).
Proof.
  unfold processTransaction. unfold bind at 1, get_state.
  destruct (transactions s !! id) as [tx|] eqn:Htx.
  2:{ destruct (logError_frame ES_ERROR EC_PROCESSING TRANSACTION_NOT_FOUND
                  (not_found id) (Some id) s) as (e & s' & Hlog & Hf).
      unfold bind, logProcessingError. rewrite Hlog. simpl.
      apply rtc_once. by apply frame_step. }
  unfold bind at 1.
  destruct (updateStatus_steps id VALIDATING "system" (Some "Starting validation") s)
    as [Hs1 Hp1].
  destruct (updateStatus uuid_nth id VALIDATING "system" (Some "Starting validation") s)
    as [[tx1|e1] s1]; simpl in *; [| done].
  destruct (Hp1 tx1 eq_refl) as [Htx1 _]. clear Hp1.
  unfold bind at 1, stored at 1, bind at 1, get_state. rewrite Htx1. simpl.
  unfold bind at 1.
  pose proof (evaluateTransaction_frame tx1 s1) as Hf2.
  destruct (evaluateTransaction uuid_nth regexp_test coerce_number tx1 s1)
    as [[ev|e2] s2]; simpl in *.
  2:{ eapply rtc_trans; [exact Hs1 |]. apply rtc_once. by apply frame_step. }
  assert (rtc (store_step nothing) s s2) as Hs2.
  { eapply rtc_trans; [exact Hs1 |]. apply rtc_once. by apply frame_step. }
  clear Hs1 Hf2 Htx1.
  destruct (allowed ev); simpl.
  - (* allowed *)
    unfold bind at 1.
    destruct (updateStatus_steps id PROCESSING "system" (Some "Processing transaction") s2)
      as [Hs3 Hp3].
    destruct (updateStatus uuid_nth id PROCESSING "system" (Some "Processing transaction") s2)
      as [[tx3|e3] s3]; simpl in *; [| by eapply rtc_trans].
    destruct (Hp3 tx3 eq_refl) as [Htx3 _]. clear Hp3.
    unfold bind at 1, stored at 1, bind at 1, get_state. rewrite Htx3. simpl.
    unfold bind at 1, simulateProcessing, modify.
    set (s4 := with_clock _ s3).
    assert (rtc (store_step nothing) s s4) as Hs4.
    { eapply rtc_trans; [exact Hs2 |]. eapply rtc_trans; [exact Hs3 |].
      apply rtc_once. by apply step_frame. }
    assert (transactions s4 !! id = Some tx3) as Htx4 by done.
    clearbody s4. clear Hs2 Hs3 Htx3.
    destruct (PrimFloat.ltb _ random).
    + unfold bind at 1.
      destruct (updateStatus_steps id COMPLETED "system"
                  (Some "Transaction completed successfully") s4) as [Hs5 Hp5].
      destruct (updateStatus uuid_nth id COMPLETED "system"
                  (Some "Transaction completed successfully") s4)
        as [[tx5|e5] s5]; simpl in *; [| by eapply rtc_trans].
      destruct (Hp5 tx5 eq_refl) as [Htx5 _]. clear Hp5.
      unfold bind at 1, stored at 1, bind at 1, get_state. rewrite Htx5. simpl.
      eapply rtc_trans; [exact Hs4 |]. eapply rtc_trans; [exact Hs5 |].
      apply rtc_once. apply annotate_steps; [| by eexists].
      intros tx0 Ht. assert (tx0 = tx5) as -> by congruence. by split.
    + unfold bind at 1.
      destruct (updateStatus_steps id FAILED "system" (Some "Processing failed") s4)
        as [Hs5 Hp5].
      destruct (updateStatus uuid_nth id FAILED "system" (Some "Processing failed") s4)
        as [[tx5|e5] s5]; simpl in *; [| by eapply rtc_trans].
      destruct (Hp5 tx5 eq_refl) as [Htx5 _]. clear Hp5.
      unfold bind at 1, stored at 1, bind at 1, get_state. rewrite Htx5. simpl.
      eapply rtc_trans; [exact Hs4 |]. eapply rtc_trans; [exact Hs5 |].
      eapply rtc_l.
      { apply (annotate_steps id (tx_set_error (Some PROCESSING_FAILED)
                                    (Some "Simulated processing failure") tx5) s5);
          [| by eexists].
        intros tx0 Ht. assert (tx0 = tx5) as -> by congruence. split; [reflexivity | done]. }
      eapply rtc_r; cycle 1.
      { apply annotate_steps.
        - simpl. intros tx0. rewrite lookup_insert_eq. intros [= <-]. by split.
        - simpl. rewrite lookup_insert_eq. by eexists. }
      apply rtc_once. apply step_frame; reflexivity.
  - (* denied *)
    unfold bind at 1.
    destruct (updateStatus_steps id FAILED "rules-engine"
                (Some (or_string (denyReason ev) "Rule validation failed")) s2)
      as [Hs3 Hp3].
    destruct (updateStatus uuid_nth id FAILED "rules-engine"
                (Some (or_string (denyReason ev) "Rule validation failed")) s2)
      as [[tx3|e3] s3]; simpl in *; [| by eapply rtc_trans].
    destruct (Hp3 tx3 eq_refl) as [Htx3 _]. clear Hp3.
    unfold bind at 1, stored at 1, bind at 1, get_state. rewrite Htx3. simpl.
    eapply rtc_trans; [exact Hs2 |]. eapply rtc_trans; [exact Hs3 |].
    apply rtc_once. apply annotate_steps; [| by eexists].
    intros tx0 Ht. assert (tx0 = tx3) as -> by congruence. by split.
Qed.

Lemma retryTransaction_exhausted random id s tx :
  transactions s !! id = Some tx ->
  tx_status tx = FAILED ->
  (tx_maxRetries tx <= tx_retryCount tx)%nat ->
  retryTransaction uuid_nth regexp_test coerce_number random id s
    = (Thrown (retries_exhausted (tx_maxRetries tx)), s).
Proof.
  intros Htx Hst Hle. unfold retryTransaction, bind, get_state.
  rewrite Htx, Hst. simpl.
  by rewrite (proj2 (Nat.leb_le _ _) Hle).
Qed.

Lemma retryTransaction_steps random id s :
  rtc (store_step nothing) s
    (snd (retryTransaction uuid_nth regexp_test coerce_number random id s)).
Proof.
  unfold retryTransaction. unfold bind at 1, get_state.
  destruct (transactions s !! id) as [tx|] eqn:Htx; [| apply rtc_refl].
  destruct (negb _); [apply rtc_refl |].
  destruct (Nat.leb_spec (tx_maxRetries tx) (tx_retryCount tx)) as [Hle|Hlt];
    [apply rtc_refl |].
  unfold bind at 1, modify.
  eapply rtc_l.
  { apply (annotate_steps id (tx_begin_retry tx) s); [| by eexists].
    intros tx0 Ht. assert (tx0 = tx) as -> by congruence. split; [done |]. simpl. lia. }
  unfold bind at 1.
  destruct (updateStatus_steps id PENDING "retry-system" (Some "Retry initiated")
              (with_transactions <[id:=tx_begin_retry tx]> s)) as [Hs1 _].
  destruct (updateStatus uuid_nth id PENDING "retry-system" (Some "Retry initiated")
              (with_transactions <[id:=tx_begin_retry tx]> s)) as [[tx1|e1] s1];
    simpl in *; [| done].
  eapply rtc_trans; [exact Hs1 | apply processTransaction_steps].
Qed.

Lemma cancelTransaction_steps id reason s :
  rtc (store_step nothing) s (snd (cancelTransaction uuid_nth id reason s)).
Proof.
  unfold cancelTransaction. unfold bind at 1, get_state.
  destruct (transactions s !! id) as [tx|]; [| apply rtc_refl].
  destruct (bool_decide _); [apply rtc_refl |].
  destruct (bool_decide _); [apply rtc_refl |].
  apply updateStatus_steps.
Qed.

Lemma refundTransaction_steps id reason s :
  rtc (store_step nothing) s (snd (refundTransaction uuid_nth id reason s)).
Proof.
  unfold refundTransaction. unfold bind at 1, get_state.
  destruct (transactions s !! id) as [tx|]; [| apply rtc_refl].
  destruct (negb _); [apply rtc_refl |].
  apply updateStatus_steps.
Qed.

Lemma run_steps op s :
  rtc (store_step (created_by uuid_nth op s)) s
    (run uuid_nth regexp_test coerce_number op s).
Proof.
  destruct op; simpl.
  - apply rtc_once, createTransaction_steps.
  - apply updateStatus_steps.
  - apply processTransaction_steps.
  - apply retryTransaction_steps.
  - apply cancelTransaction_steps.
  - apply refundTransaction_steps.
Qed.

Lemma run_all_history_chain ops s :
  history_chain s -> history_chain (run_all uuid_nth regexp_test coerce_number ops s).
Proof.
  revert s. induction ops as [|op ops IH]; intros s Hs; [done |].
  simpl. apply IH. eapply steps_history_chain; [apply run_steps | done].
Qed.

Lemma run_all_retry_bound ops s :
  retry_bound s -> retry_bound (run_all uuid_nth regexp_test coerce_number ops s).
Proof.
  revert s. induction ops as [|op ops IH]; intros s Hs; [done |].
  simpl. apply IH. eapply steps_retry_bound; [apply run_steps | done].
Qed.

Lemma empty_history_chain s : transactions s = ∅ -> history_chain s.
Proof. intros H id tx. by rewrite H, lookup_empty. Qed.

Lemma empty_retry_bound s : transactions s = ∅ -> retry_bound s.
Proof. intros H id tx. by rewrite H, lookup_empty. Qed.

(** *** The claims about the lifecycle manager *)

(** C1.  The allowed-transition table is the one the specification lists.
    For a stored transaction, [updateStatus] towards a status outside the
    table throws the invalid-transition error, whose message names the
    current and the requested status, and leaves the transaction store
    and every history as they were.  Whatever operation runs (creation of
    another transaction, [updateStatus], process, retry, cancel, refund),
    the transaction stays stored and its history grows by exactly the
    status changes made, each of them a member of the table, leading from
    the old status to the new one. *)
Theorem C1_status_changes_follow_table s id tx :
  transactions s !! id = Some tx ->
  (VALID_STATUS_TRANSITIONS PENDING = [VALIDATING; CANCELLED] /\
   VALID_STATUS_TRANSITIONS VALIDATING = [PROCESSING; FAILED; CANCELLED] /\
   VALID_STATUS_TRANSITIONS PROCESSING = [COMPLETED; FAILED] /\
   VALID_STATUS_TRANSITIONS COMPLETED = [REFUNDED] /\
   VALID_STATUS_TRANSITIONS FAILED = [PENDING] /\
   VALID_STATUS_TRANSITIONS CANCELLED = [] /\
   VALID_STATUS_TRANSITIONS REFUNDED = []) /\
  (forall newStatus triggeredBy reason,
     ~ In newStatus (VALID_STATUS_TRANSITIONS (tx_status tx)) ->
     exists s',
       updateStatus uuid_nth id newStatus triggeredBy reason s
         = (Thrown ("Invalid status transition from " +:+ status_name (tx_status tx)
                      +:+ " to " +:+ status_name newStatus), s') /\
       transactions s' = transactions s /\
       statusHistory s' = statusHistory s) /\
  (forall op,
     ~ created_by uuid_nth op s id ->
     extends id s (run uuid_nth regexp_test coerce_number op s)).
Proof.
  intros Htx. split; [by repeat split |]. split.
  - intros newStatus triggeredBy reason Hin.
    destruct (updateStatus_rejects id newStatus triggeredBy reason s tx Htx Hin)
      as (s' & Hrun & Ht & Hh & _).
    exists s'. by repeat split.
  - intros op Hc. eapply steps_extends; [exact Hc | apply run_steps].
Qed.

(** C4.  Every stored transaction has [retryCount <= maxRetries]: it holds
    of an empty store, every operation keeps it (each single write of an
    operation does), so it holds after any sequence of operations.
    [retryTransaction] on a FAILED transaction whose [retryCount] has
    reached [maxRetries] throws the retries-exhausted error and leaves the
    whole state as it was: nothing is written, processing is not entered. *)
Theorem C4_retry_budget :
  (forall s, transactions s = ∅ -> retry_bound s) /\
  (forall op s, retry_bound s ->
     retry_bound (run uuid_nth regexp_test coerce_number op s)) /\
  (forall ops s, transactions s = ∅ ->
     retry_bound (run_all uuid_nth regexp_test coerce_number ops s)) /\
  (forall random id s tx,
     transactions s !! id = Some tx ->
     tx_status tx = FAILED ->
     (tx_maxRetries tx <= tx_retryCount tx)%nat ->
     retryTransaction uuid_nth regexp_test coerce_number random id s
       = (Thrown ("Maximum retry attempts (" +:+ pretty (tx_maxRetries tx)
                    +:+ ") exceeded"), s)).
Proof.
  split; [apply empty_retry_bound |]. split; [| split].
  - intros op s Hs. eapply steps_retry_bound; [apply run_steps | done].
  - intros ops s Hs. by apply run_all_retry_bound, empty_retry_bound.
  - intros random id s tx. apply retryTransaction_exhausted.
Qed.

(** C6.  On a stored transaction: [cancelTransaction] throws when the
    status is COMPLETED (refund is to be used) and when it is already
    CANCELLED; [refundTransaction] throws whenever the status is not
    COMPLETED.  In each case the state after is the state before, so the
    status and the history are unchanged. *)
Theorem C6_cancel_refund_guards s id tx reason :
  transactions s !! id = Some tx ->
  (tx_status tx = COMPLETED ->
   cancelTransaction uuid_nth id reason s
     = (Thrown "Cannot cancel a completed transaction. Use refund instead.", s)) /\
  (tx_status tx = CANCELLED ->
   cancelTransaction uuid_nth id reason s
     = (Thrown "Transaction is already cancelled", s)) /\
  (tx_status tx <> COMPLETED ->
   refundTransaction uuid_nth id reason s
     = (Thrown "Only completed transactions can be refunded", s)).
Proof.
  intros Htx. repeat split.
  - intros Hst. unfold cancelTransaction, bind, get_state. by rewrite Htx, Hst.
  - intros Hst. unfold cancelTransaction, bind, get_state. by rewrite Htx, Hst.
  - intros Hst. unfold refundTransaction, bind, get_state. rewrite Htx.
    by rewrite bool_decide_eq_false_2.
Qed.

(** C9.  A transaction [createTransaction] returns is stored with status
    PENDING and an empty history.  The chain property (stated with
    [linked]: the history leads from PENDING to the current status, each
    record starting where the previous one ended) is kept by every
    operation, so after any sequence of operations on an initially empty
    store every stored transaction has a history whose first record, if
    any, starts at PENDING, whose consecutive records agree, and whose
    last record, if any, ends at the current status. *)
Theorem C9_history_is_a_chain :
  (forall request s tx s',
     createTransaction uuid_nth request s = (Returned tx, s') ->
     tx_status tx = PENDING /\
     transactions s' !! tx_id tx = Some tx /\
     statusHistory s' !! tx_id tx = Some []) /\
  (forall op s, history_chain s ->
     history_chain (run uuid_nth regexp_test coerce_number op s)) /\
  (forall ops s id tx,
     transactions s = ∅ ->
     transactions (run_all uuid_nth regexp_test coerce_number ops s) !! id = Some tx ->
     chain (getStatusHistory (run_all uuid_nth regexp_test coerce_number ops s) id)
       (tx_status tx)).
Proof.
  split; [| split].
  - intros request s tx s'. unfold createTransaction.
    destruct (_ || _); [done |].
    destruct (String.eqb (req_currency request) EmptyString); [done |].
    destruct (String.eqb (req_sourceAccount request) EmptyString); [done |].
    unfold bind, uuidv4, new_Date, modify, ret. simpl. intros [= <- <-]. simpl.
    by rewrite !lookup_insert_eq.
  - intros op s Hs. eapply steps_history_chain; [apply run_steps | done].
  - intros ops s id tx Hs Htx. apply linked_chain.
    by apply (run_all_history_chain ops s (empty_history_chain s Hs)).
Qed.

End Lifecycle.

(** *** The order in which rules are evaluated *)

Lemma insert_by_priority_perm r l : insert_by_priority r l ≡ₚ r :: l.
Proof.
  induction l as [|x l IH]; simpl; [done |].
  destruct (rule_priority r <=? rule_priority x); [done |].
  rewrite IH. apply Permutation_swap.
Qed.

Lemma sort_by_priority_perm l : sort_by_priority l ≡ₚ l.
Proof.
  induction l as [|x l IH]; simpl; [done |].
  by rewrite insert_by_priority_perm, IH.
Qed.

Lemma insert_by_priority_sorted r l :
  StronglySorted (fun a b => rule_priority a <= rule_priority b) l ->
  StronglySorted (fun a b => rule_priority a <= rule_priority b) (insert_by_priority r l).
Proof.
  induction 1 as [|x l Hs IH Hx]; simpl.
  - repeat constructor.
  - destruct (Z.leb_spec (rule_priority r) (rule_priority x)) as [Hle|Hlt].
    + constructor; [by constructor |]. constructor; [done |].
      eapply Forall_impl; [exact Hx |]. simpl. intros; lia.
    + constructor; [done |].
      rewrite insert_by_priority_perm. constructor; [lia | done].
Qed.

Lemma sort_by_priority_sorted l :
  StronglySorted (fun a b => rule_priority a <= rule_priority b) (sort_by_priority l).
Proof.
  induction l as [|x l IH]; simpl; [constructor |].
  by apply insert_by_priority_sorted.
Qed.

Lemma insert_by_priority_stable p r l :
  filter (fun x => rule_priority x = p) (insert_by_priority r l)
  = filter (fun x => rule_priority x = p) (r :: l).
Proof.
  induction l as [|x l IH]; simpl; [done |].
  destruct (Z.leb_spec (rule_priority r) (rule_priority x)) as [Hle|Hlt]; [done |].
  rewrite (filter_cons _ x), IH, !(filter_cons _ r), !(filter_cons _ x).
  repeat case_decide; try done. lia.
Qed.

Lemma sort_by_priority_stable p l :
  filter (fun x => rule_priority x = p) (sort_by_priority l)
  = filter (fun x => rule_priority x = p) l.
Proof.
  induction l as [|x l IH]; simpl; [done |].
  rewrite insert_by_priority_stable, !(filter_cons _ x), IH. done.
Qed.

Section Rules.
Variable uuid_nth : nat -> string.
Variable regexp_test : JsValue -> string -> option bool.
Variable coerce_number : JsValue -> float.

(** The loop over rules none of which triggers DENY: every rule is
    evaluated, in order, and the verdict stays as it was. *)
Lemma evaluate_loop_passes tx remaining evaluated acc s :
  Forall2 (fun rule res => evaluateRule regexp_test coerce_number rule tx (clock s) = Some res)
    remaining evaluated ->
  Forall (fun res => ~ denies res) evaluated ->
  exists ev s',
    evaluate_loop uuid_nth regexp_test coerce_number tx remaining acc s
      = (Returned ev, s') /\
    frame s s' /\
    results ev = (results acc ++ evaluated)%list /\
    allowed ev = allowed acc /\
    denyReason ev = denyReason acc.
Proof.
  revert evaluated acc s.
  induction remaining as [|rule rest IH]; intros evaluated acc s Hall Hno.
  - inversion Hall; subst. exists acc, s. simpl.
    rewrite app_nil_r. repeat split; done.
  - inversion Hall as [|? res ? evaluated' Hres Hrest]; subst.
    inversion Hno as [|? ? Hnd Hno']; subst.
    simpl. unfold bind at 1. simpl. rewrite Hres.
    assert (forall acc' s1, frame s s1 ->
              results acc' = (results acc ++ [res])%list ->
              allowed acc' = allowed acc -> denyReason acc' = denyReason acc ->
              exists ev s',
                evaluate_loop uuid_nth regexp_test coerce_number tx rest acc' s1
                  = (Returned ev, s') /\
                frame s s' /\
                results ev = (results acc ++ res :: evaluated')%list /\
                allowed ev = allowed acc /\ denyReason ev = denyReason acc) as Hnext.
    { intros acc' s1 Hf Hr Ha Hd.
      destruct (IH evaluated' acc' s1) as (ev & s' & Hrun & Hf' & Hr' & Ha' & Hd').
      - destruct Hf as (_ & _ & _ & _ & Hclock & _). by rewrite Hclock.
      - done.
      - exists ev, s'. split; [done |]. split; [by eapply frame_trans |].
        rewrite Hr', Hr, <- app_assoc. split; [done |]. split; congruence. }
    destruct (res_passed res) eqn:Hp.
    { apply Hnext; [apply frame_refl | done..]. }
    destruct (res_action res) eqn:Ha.
    + apply Hnext; [apply frame_refl | done..].
    + exfalso. apply Hnd. by split.
    + unfold bind at 1.
      destruct (logError_frame uuid_nth ES_WARNING BUSINESS_RULE RULE_VIOLATION
                  ("Rule " +:+ dquote +:+ rule_name rule +:+ dquote +:+ " violated: "
                     +:+ res_message res) (Some (tx_id tx)) s)
        as (entry & s1 & Hlog & Hf).
      unfold logRuleViolation. rewrite Hlog. by apply Hnext.
    + apply Hnext; [apply frame_refl | done..].
Qed.

(** The loop with [stopOnFirstDeny]: the first rule that triggers DENY
    ends it. *)
Lemma evaluate_loop_stops tx before rule after evaluated res acc s :
  stopOnFirstDeny (config s) = true ->
  Forall2 (fun rule res => evaluateRule regexp_test coerce_number rule tx (clock s) = Some res)
    before evaluated ->
  Forall (fun res => ~ denies res) evaluated ->
  evaluateRule regexp_test coerce_number rule tx (clock s) = Some res ->
  denies res ->
  exists ev s',
    evaluate_loop uuid_nth regexp_test coerce_number tx (before ++ rule :: after) acc s
      = (Returned ev, s') /\
    frame s s' /\
    allowed ev = false /\
    denyReason ev = Some (res_message res) /\
    results ev = (results acc ++ evaluated ++ [res])%list.
Proof.
  revert evaluated acc s.
  induction before as [|r0 rest IH]; intros evaluated acc s Hstop Hall Hno Hres [Hp Ha].
  - inversion Hall; subst. simpl. unfold bind at 1. simpl.
    rewrite Hres, Hp, Ha. unfold bind at 1.
    destruct (logError_frame uuid_nth ES_WARNING BUSINESS_RULE RULE_VIOLATION
                ("Rule " +:+ dquote +:+ rule_name rule +:+ dquote +:+ " violated: "
                   +:+ res_message res) (Some (tx_id tx)) s)
      as (entry & s1 & Hlog & Hf).
    unfold logRuleViolation. rewrite Hlog. unfold bind at 1, get_state.
    pose proof Hf as (_ & _ & _ & Hc & _).
    rewrite Hc, Hstop. eexists _, _. split; [reflexivity |].
    split; [exact Hf |]. by repeat split.
  - inversion Hall as [|? res0 ? evaluated' Hres0 Hrest]; subst.
    inversion Hno as [|? ? Hnd Hno']; subst.
    simpl. unfold bind at 1. simpl. rewrite Hres0.
    assert (forall acc' s1, frame s s1 ->
              results acc' = (results acc ++ [res0])%list ->
              exists ev s',
                evaluate_loop uuid_nth regexp_test coerce_number tx
                  (rest ++ rule :: after) acc' s1 = (Returned ev, s') /\
                frame s s' /\ allowed ev = false /\
                denyReason ev = Some (res_message res) /\
                results ev = (results acc ++ (res0 :: evaluated') ++ [res])%list) as Hnext.
    { intros acc' s1 Hf Hr.
      pose proof Hf as (_ & _ & _ & Hconfig & Hclock & _).
      destruct (IH evaluated' acc' s1) as (ev & s' & Hrun & Hf' & Ha' & Hd' & Hr').
      - by rewrite Hconfig.
      - by rewrite Hclock.
      - done.
      - by rewrite Hclock.
      - by split.
      - exists ev, s'. split; [done |]. split; [by eapply frame_trans |].
        rewrite Hr', Hr, <- app_assoc. by repeat split. }
    destruct (res_passed res0) eqn:Hp0.
    { apply Hnext; [apply frame_refl | done]. }
    destruct (res_action res0) eqn:Ha0.
    + apply Hnext; [apply frame_refl | done].
    + exfalso. apply Hnd. by split.
    + unfold bind at 1.
      destruct (logError_frame uuid_nth ES_WARNING BUSINESS_RULE RULE_VIOLATION
                  ("Rule " +:+ dquote +:+ rule_name r0 +:+ dquote +:+ " violated: "
                     +:+ res_message res0) (Some (tx_id tx)) s)
        as (entry & s1 & Hlog & Hf).
      unfold logRuleViolation. rewrite Hlog. by apply Hnext.
    + apply Hnext; [apply frame_refl | done].
Qed.

(** The rules the engine visits once it has been reset to its defaults,
    the four identifiers it drew being distinct. *)
Lemma default_activeRules s0 :
  NoDup [uuid_nth (uuid_count s0); uuid_nth (S (uuid_count s0));
         uuid_nth (S (S (uuid_count s0))); uuid_nth (S (S (S (uuid_count s0))))] ->
  activeRules (snd (resetToDefaults uuid_nth s0)) =
    [instantiate Very_High_Amount_Block (uuid_nth (S (uuid_count s0))) (clock s0);
     instantiate Minimum_Amount (uuid_nth (S (S (uuid_count s0)))) (clock s0);
     instantiate High_Amount_Threshold (uuid_nth (uuid_count s0)) (clock s0);
     instantiate Supported_Currencies (uuid_nth (S (S (S (uuid_count s0))))) (clock s0)]
  /\ config (snd (resetToDefaults uuid_nth s0)) = config s0
  /\ clock (snd (resetToDefaults uuid_nth s0)) = clock s0.
Proof.
  intros Hnd.
  apply NoDup_cons in Hnd as [H0 Hnd]. apply NoDup_cons in Hnd as [H1 Hnd].
  apply NoDup_cons in Hnd as [H2 _].
  apply not_elem_of_cons in H0 as [H01 H0]. apply not_elem_of_cons in H0 as [H02 H0].
  apply not_elem_of_cons in H0 as [H03 _].
  apply not_elem_of_cons in H1 as [H12 H1]. apply not_elem_of_cons in H1 as [H13 _].
  apply not_elem_of_cons in H2 as [H23 _].
  unfold resetToDefaults, initializeDefaultRules, DEFAULT_RULES, activeRules.
  unfold initialize_from, bind, modify, uuidv4, new_Date, ret. simpl.
  repeat (rewrite (proj2 (String.eqb_neq _ _)) by done; simpl).
  split; [reflexivity | done].
Qed.

(** *** The claims about the rule engine *)

(** C2.  The rules [evaluateTransaction] visits are exactly the enabled
    rules, in ascending priority, rules of equal priority in the order of
    the rule store.  When no rule triggers DENY every one of them is
    evaluated and contributes its result.  When a rule triggers DENY and
    [stopOnFirstDeny] is set, the call returns at once with [allowed]
    false, [denyReason] the message of that rule's result, and [results]
    holding the results of the rules before it and its own, nothing more.
    Under the default rule set a transaction of amount 150000 in USD is
    denied by Very High Amount Block, the only rule evaluated. *)
Theorem C2_priority_order_and_first_deny :
  (forall s,
     activeRules s ≡ₚ filter (fun r => rule_enabled r = true) (jsmap_values (rules s)) /\
     StronglySorted (fun a b => rule_priority a <= rule_priority b) (activeRules s) /\
     forall p,
       filter (fun r => rule_priority r = p) (activeRules s)
       = filter (fun r => rule_priority r = p)
           (filter (fun r => rule_enabled r = true) (jsmap_values (rules s)))) /\
  (forall tx s evaluated,
     Forall2 (fun rule res =>
                evaluateRule regexp_test coerce_number rule tx (clock s) = Some res)
       (activeRules s) evaluated ->
     Forall (fun res => ~ denies res) evaluated ->
     exists ev s',
       evaluateTransaction uuid_nth regexp_test coerce_number tx s = (Returned ev, s') /\
       results ev = evaluated /\ allowed ev = true /\ denyReason ev = None) /\
  (forall tx s before rule after evaluated res,
     activeRules s = (before ++ rule :: after)%list ->
     stopOnFirstDeny (config s) = true ->
     Forall2 (fun rule res =>
                evaluateRule regexp_test coerce_number rule tx (clock s) = Some res)
       before evaluated ->
     Forall (fun res => ~ denies res) evaluated ->
     evaluateRule regexp_test coerce_number rule tx (clock s) = Some res ->
     denies res ->
     exists ev s',
       evaluateTransaction uuid_nth regexp_test coerce_number tx s = (Returned ev, s') /\
       allowed ev = false /\
       denyReason ev = Some (res_message res) /\
       results ev = (evaluated ++ [res])%list) /\
  (forall tx s0,
     NoDup [uuid_nth (uuid_count s0); uuid_nth (S (uuid_count s0));
            uuid_nth (S (S (uuid_count s0))); uuid_nth (S (S (S (uuid_count s0))))] ->
     stopOnFirstDeny (config s0) = true ->
     tx_amount tx = 150000%float ->
     tx_currency tx = "USD" ->
     exists ev s' res,
       evaluateTransaction uuid_nth regexp_test coerce_number tx
         (snd (resetToDefaults uuid_nth s0)) = (Returned ev, s') /\
       allowed ev = false /\
       denyReason ev
         = Some "Rule triggered: Very High Amount Block - Block transactions over $100,000" /\
       results ev = [res] /\
       res_ruleName res = "Very High Amount Block").
Proof.
  split; [| split; [| split]].
  - intros s. unfold activeRules. split; [apply sort_by_priority_perm |].
    split; [apply sort_by_priority_sorted | intros p; apply sort_by_priority_stable].
  - intros tx s evaluated Hall Hno.
    destruct (evaluate_loop_passes tx (activeRules s) evaluated
                (mkEvaluation true [] false false None) s Hall Hno)
      as (ev & s' & Hrun & _ & Hr & Ha & Hd).
    exists ev, s'. unfold evaluateTransaction, bind, get_state. by rewrite Hrun.
  - intros tx s before rule after evaluated res Hactive Hstop Hall Hno Hres Hden.
    destruct (evaluate_loop_stops tx before rule after evaluated res
                (mkEvaluation true [] false false None) s Hstop Hall Hno Hres Hden)
      as (ev & s' & Hrun & _ & Ha & Hd & Hr).
    exists ev, s'. unfold evaluateTransaction, bind, get_state.
    rewrite Hactive, Hrun. by repeat split.
  - intros tx s0 Hnd Hstop Hamount Hcurrency.
    destruct (default_activeRules s0 Hnd) as (Hactive & Hconfig & Hclock).
    set (s := snd (resetToDefaults uuid_nth s0)) in *.
    set (rule := instantiate Very_High_Amount_Block (uuid_nth (S (uuid_count s0))) (clock s0)).
    assert (evaluateRule regexp_test coerce_number rule tx (clock s)
            = Some (mkResult (uuid_nth (S (uuid_count s0))) "Very High Amount Block" false
                      DENY RS_CRITICAL
                      "Rule triggered: Very High Amount Block - Block transactions over $100,000"
                      (clock s))) as Hres.
    { unfold evaluateRule, rule. simpl. unfold transaction_field. simpl.
      rewrite Hamount. reflexivity. }
    destruct (evaluate_loop_stops tx [] rule
                [instantiate Minimum_Amount (uuid_nth (S (S (uuid_count s0)))) (clock s0);
                 instantiate High_Amount_Threshold (uuid_nth (uuid_count s0)) (clock s0);
                 instantiate Supported_Currencies (uuid_nth (S (S (S (uuid_count s0)))))
                   (clock s0)] [] _
                (mkEvaluation true [] false false None) s
                ltac:(by rewrite Hconfig) ltac:(constructor) ltac:(constructor) Hres
                ltac:(by split))
      as (ev & s' & Hrun & _ & Ha & Hd & Hr).
    exists ev, s', (mkResult (uuid_nth (S (uuid_count s0))) "Very High Amount Block" false
                      DENY RS_CRITICAL
                      "Rule triggered: Very High Amount Block - Block transactions over $100,000"
                      (clock s)).
    unfold evaluateTransaction, bind, get_state. rewrite Hactive.
    subst rule. cbn [app] in Hrun. rewrite Hrun. by repeat split.
Qed.

(** C3, on the code: under the default rule set a transaction of 100 JPY,
    which no amount rule denies, is evaluated with [allowed] true.  The
    Supported Currencies rule does not pass (its result says so), but a
    result with action ALLOW has no case in the verdict. *)
Theorem C3_unsupported_currency_is_allowed :
  exists ev s',
    evaluateTransaction sample_uuid sample_regexp sample_coerce
      (sample_transaction 100%float "JPY") seeded_state = (Returned ev, s') /\
    allowed ev = true /\
    denyReason ev = None /\
    exists r, last (results ev) = Some r /\
      res_ruleName r = "Supported Currencies" /\
      res_passed r = false /\
      res_message r = "Transaction failed rule: Supported Currencies".
Proof.
  eexists _, _. split; [vm_compute; reflexivity |].
  split; [reflexivity |]. split; [reflexivity |].
  eexists. split; [reflexivity |]. by repeat split.
Qed.

(** C10.  For every transaction: a condition with operator AND and an
    empty list of children is true, with OR and an empty list it is false;
    a condition with operator AND or OR and no [children] is handled as a
    leaf, which is false when no field is named (and also when one is,
    since AND and OR are not leaf operators). *)
Theorem C10_composite_edge_cases type value field tx :
  evaluateCondition regexp_test coerce_number
    (mkCondition type AND value field (Some [])) tx = Some true /\
  evaluateCondition regexp_test coerce_number
    (mkCondition type OR value field (Some [])) tx = Some false /\
  evaluateCondition regexp_test coerce_number
    (mkCondition type AND value None None) tx = Some false /\
  evaluateCondition regexp_test coerce_number
    (mkCondition type OR value None None) tx = Some false /\
  evaluateCondition regexp_test coerce_number
    (mkCondition type AND value field None) tx = Some false /\
  evaluateCondition regexp_test coerce_number
    (mkCondition type OR value field None) tx = Some false.
Proof.
  repeat split; try reflexivity.
  - simpl. destruct field as [f|]; [| done]. by destruct (String.eqb f EmptyString).
  - simpl. destruct field as [f|]; [| done]. by destruct (String.eqb f EmptyString).
Qed.

End Rules.

Section Webhooks.
Variable uuid_nth : nat -> string.
Variable JSON_stringify : Envelope -> string.
Variable hmac_sha256_hex : string -> string -> string.
Variable toISOString : Z -> string.

(** One attempt on a network that rejects it. *)
Lemma sendWebhook_rejected post webhook event payload attempt s message response :
  post (build_request JSON_stringify hmac_sha256_hex toISOString webhook event payload
          (clock s)) = HttpRejected message response ->
  exists s',
    sendWebhook uuid_nth JSON_stringify hmac_sha256_hex toISOString post webhook event
      payload attempt s = (Returned tt, s') /\
    clock s' = clock s /\
    inMemoryWebhookLogs s' =
      <[uuid_nth (uuid_count s) :=
          mkWebhookLog (uuid_nth (uuid_count s)) (wh_id webhook) event payload response
            false (Some message) attempt (clock s)]> (inMemoryWebhookLogs s) /\
    timers s' =
      if (attempt <? wh_maxRetries webhook)%nat then
        (timers s ++ [mkTimer (2 ^ Z.of_nat attempt * 1000) webhook event payload
                        (S attempt)])%list
      else timers s.
Proof.
  intros Hpost. unfold sendWebhook, bind at 1, new_Date. rewrite Hpost.
  unfold bind, uuidv4, new_Date, logError, modify, ret, saveLog, setTimeout. simpl.
  destruct (attempt <? wh_maxRetries webhook)%nat; simpl; eexists; by repeat split.
Qed.

Lemma sendWebhook_resolved post webhook event payload attempt s status data :
  post (build_request JSON_stringify hmac_sha256_hex toISOString webhook event payload
          (clock s)) = HttpResolved status data ->
  exists s',
    sendWebhook uuid_nth JSON_stringify hmac_sha256_hex toISOString post webhook event
      payload attempt s = (Returned tt, s') /\
    inMemoryWebhookLogs s' =
      <[uuid_nth (uuid_count s) :=
          mkWebhookLog (uuid_nth (uuid_count s)) (wh_id webhook) event payload
            (Some (mkResponse status (Some data))) true None attempt (clock s)]>
        (inMemoryWebhookLogs s) /\
    timers s' = timers s.
Proof.
  intros Hpost. unfold sendWebhook, bind at 1, new_Date. rewrite Hpost.
  unfold bind, uuidv4, new_Date, modify, ret, saveLog. simpl.
  eexists; by repeat split.
Qed.

Lemma fire_idle post s :
  timers s = [] ->
  fire uuid_nth JSON_stringify hmac_sha256_hex toISOString post 0 s = (Returned tt, s).
Proof. intros H. unfold fire, bind, get_state. by rewrite H. Qed.

Lemma fires_idle post n s :
  timers s = [] ->
  fires uuid_nth JSON_stringify hmac_sha256_hex toISOString post n s = (Returned tt, s).
Proof.
  intros H. induction n as [|n IH]; [done |].
  simpl. unfold bind. by rewrite fire_idle.
Qed.

(** A delivery to a host that rejects every POST, followed by [n] timers
    coming due: the retry for attempt [attempt + n + 1] is pending while
    [attempt + n] is below [maxRetries], and nothing is pending after. *)
Lemma delivery_chain post webhook event payload n attempt s :
  (forall r, exists message response, post r = HttpRejected message response) ->
  timers s = [] ->
  timers (snd ((sendWebhook uuid_nth JSON_stringify hmac_sha256_hex toISOString post
                  webhook event payload attempt ;;
                fires uuid_nth JSON_stringify hmac_sha256_hex toISOString post n) s))
  = if (attempt + n <? wh_maxRetries webhook)%nat then
      [mkTimer (2 ^ Z.of_nat (attempt + n) * 1000) webhook event payload (S (attempt + n))]
    else [].
Proof.
  intros Hpost. revert attempt s. induction n as [|n IH]; intros attempt s Hs.
  - destruct (Hpost (build_request JSON_stringify hmac_sha256_hex toISOString webhook event
                       payload (clock s))) as (message & response & Hr).
    destruct (sendWebhook_rejected post webhook event payload attempt s message response Hr)
      as (s' & Hrun & _ & _ & Ht).
    unfold bind. rewrite Hrun. simpl. rewrite Ht, Hs, Nat.add_0_r.
    by destruct (attempt <? wh_maxRetries webhook)%nat.
  - destruct (Hpost (build_request JSON_stringify hmac_sha256_hex toISOString webhook event
                       payload (clock s))) as (message & response & Hr).
    destruct (sendWebhook_rejected post webhook event payload attempt s message response Hr)
      as (s' & Hrun & _ & _ & Ht).
    unfold bind at 1. rewrite Hrun. rewrite Hs in Ht.
    destruct (Nat.ltb_spec attempt (wh_maxRetries webhook)) as [Hlt|Hge].
    + simpl in Ht. cbn [fires]. unfold bind at 1, fire at 1, bind at 1, get_state.
      rewrite Ht. cbn [lookup list_lookup]. unfold bind at 1, modify. cbn [timer_webhook
        timer_event timer_payload timer_attempt].
      specialize (IH (S attempt) (with_timers (delete 0%nat) s')).
      unfold bind in IH. rewrite Nat.add_succ_r. simpl in IH. rewrite <- IH.
      * reflexivity.
      * simpl. by rewrite Ht.
    + rewrite fires_idle by done. simpl. rewrite Ht.
      destruct (Nat.ltb_spec (attempt + S n) (wh_maxRetries webhook)); [lia | done].
Qed.

(** *** The claims about the webhook dispatcher *)

(** C5.  One call of [sendWebhook] is one attempt and saves one log: the
    log store gains exactly the entry of this attempt (one more entry, the
    identifier drawn being new), carrying the attempt number.  A rejected
    attempt is logged with [success] false and schedules one retry, for
    attempt + 1 after 2^attempt seconds, exactly when the attempt number is
    below [maxRetries]; otherwise, and after a delivered attempt, no timer
    is added.  With no timer pending nothing runs.  Against a host that
    rejects every POST the retry for attempt [a + n + 1] is pending after
    [n] timers as long as [a + n < maxRetries], and none is pending from
    then on. *)
Theorem C5_attempts_logs_and_retries post webhook event payload :
  (forall attempt s,
     inMemoryWebhookLogs s !! uuid_nth (uuid_count s) = None ->
     exists log s',
       sendWebhook uuid_nth JSON_stringify hmac_sha256_hex toISOString post webhook event
         payload attempt s = (Returned tt, s') /\
       inMemoryWebhookLogs s' = <[log_id log := log]> (inMemoryWebhookLogs s) /\
       size (inMemoryWebhookLogs s') = S (size (inMemoryWebhookLogs s)) /\
       log_webhookId log = wh_id webhook /\
       log_event log = event /\
       log_attempts log = attempt /\
       match post (build_request JSON_stringify hmac_sha256_hex toISOString webhook event
                     payload (clock s)) with
       | HttpResolved _ _ => log_success log = true /\ timers s' = timers s
       | HttpRejected message _ =>
           log_success log = false /\
           log_error log = Some message /\
           timers s' =
             if (attempt <? wh_maxRetries webhook)%nat then
               (timers s ++ [mkTimer (2 ^ Z.of_nat attempt * 1000) webhook event payload
                               (S attempt)])%list
             else timers s
       end) /\
  (forall s, timers s = [] ->
     fire uuid_nth JSON_stringify hmac_sha256_hex toISOString post 0 s = (Returned tt, s)) /\
  (forall n attempt s,
     (forall r, exists message response, post r = HttpRejected message response) ->
     timers s = [] ->
     timers (snd ((sendWebhook uuid_nth JSON_stringify hmac_sha256_hex toISOString post
                     webhook event payload attempt ;;
                   fires uuid_nth JSON_stringify hmac_sha256_hex toISOString post n) s))
     = if (attempt + n <? wh_maxRetries webhook)%nat then
         [mkTimer (2 ^ Z.of_nat (attempt + n) * 1000) webhook event payload
            (S (attempt + n))]
       else []).
Proof.
  split; [| split].
  - intros attempt s Hfresh.
    destruct (post (build_request JSON_stringify hmac_sha256_hex toISOString webhook event
                      payload (clock s))) as [status data|message response] eqn:Hpost.
    + destruct (sendWebhook_resolved post webhook event payload attempt s status data Hpost)
        as (s' & Hrun & Hlogs & Ht).
      eexists _, s'. split; [exact Hrun |]. split; [exact Hlogs |].
      split; [rewrite Hlogs; by apply map_size_insert_None |]. by repeat split.
    + destruct (sendWebhook_rejected post webhook event payload attempt s message response
                  Hpost) as (s' & Hrun & _ & Hlogs & Ht).
      eexists _, s'. split; [exact Hrun |]. split; [exact Hlogs |].
      split; [rewrite Hlogs; by apply map_size_insert_None |]. by repeat split.
  - intros s. apply fire_idle.
  - intros n attempt s. apply delivery_chain.
Qed.

(** C8.  For a webhook whose secret is set (and not empty), the request of
    a delivery carries the envelope [{event, timestamp, payload}] as its
    body and, as [X-Webhook-Signature], the HMAC under that secret of the
    serialized envelope, next to the event and timestamp headers.
    Computing the HMAC again over a serialization equal to the one sent,
    with the same secret, gives the header. *)
Theorem C8_signature_header webhook event payload now secret :
  wh_secret webhook = Some secret ->
  secret <> EmptyString ->
  let request :=
    build_request JSON_stringify hmac_sha256_hex toISOString webhook event payload now in
  http_body request = mkEnvelope event (toISOString now) payload /\
  header "X-Webhook-Event" request = Some event /\
  header "X-Webhook-Timestamp" request = Some (toISOString now) /\
  header "X-Webhook-Signature" request
    = Some (hmac_sha256_hex secret (JSON_stringify (http_body request))) /\
  (forall serialized,
     serialized = JSON_stringify (http_body request) ->
     Some (generateSignature hmac_sha256_hex serialized secret)
     = header "X-Webhook-Signature" request).
Proof.
  intros Hsecret Hne request. subst request.
  unfold build_request, configured_secret, header. rewrite Hsecret.
  rewrite (proj2 (String.eqb_neq _ _) Hne). simpl.
  repeat split. by intros ? ->.
Qed.

End Webhooks.

Section Batch.
Variable uuid_nth : nat -> string.
Variable exponent_form : float -> string.
Variable trigger_rejects : string -> nat -> option string.

Lemma createTransaction_outcome request s :
  match validation_error request with
  | Some message =>
      exists s', createTransaction uuid_nth request s = (Thrown message, s')
  | None =>
      exists transaction s',
        createTransaction uuid_nth request s = (Returned transaction, s')
  end.
Proof.
  unfold validation_error, createTransaction.
  destruct (_ || _); [eexists; reflexivity |].
  destruct (String.eqb (req_currency request) EmptyString); [eexists; reflexivity |].
  destruct (String.eqb (req_sourceAccount request) EmptyString); [eexists; reflexivity |].
  eexists _, _. reflexivity.
Qed.

Lemma expected_failures_length index requests :
  length (expected_failures index requests) = length (List.filter fails_validation requests).
Proof.
  revert index. induction requests as [|r rest IH]; intros index; [done |].
  simpl. unfold fails_validation. destruct (validation_error r); simpl; by rewrite IH.
Qed.

Lemma filter_length_le {A} (f : A -> bool) l : (length (List.filter f l) <= length l)%nat.
Proof. induction l as [|x l IH]; simpl; [lia |]. destruct (f x); simpl; lia. Qed.

Lemma create_each_settles requests index s :
  exists settled s',
    create_each uuid_nth index requests s = (Returned settled, s') /\
    rejected settled = expected_failures index requests /\
    (length (created settled) + length (rejected settled) = length requests)%nat /\
    ((forall i, trigger_rejects TRANSACTION_CREATED i = None) ->
     undelivered trigger_rejects settled = []).
Proof.
  revert index s. induction requests as [|r rest IH]; intros index s.
  - exists [], s. by repeat split.
  - cbn [create_each]. unfold bind at 1.
    pose proof (createTransaction_outcome r s) as Hout.
    destruct (validation_error r) as [message|] eqn:Hv.
    + destruct Hout as (s1 & Hrun). rewrite Hrun.
      destruct (IH (S index) s1) as (settled & s' & Hrest & Hrej & Hlen & Hund).
      unfold bind at 1. rewrite Hrest. eexists _, _. split; [reflexivity |].
      cbn [rejected created undelivered flat_map expected_failures app]. rewrite Hv.
      fold (rejected settled). fold (created settled).
      fold (undelivered trigger_rejects settled).
      split; [by rewrite Hrej |]. split; [simpl; lia | done].
    + destruct Hout as (tx & s1 & Hrun). rewrite Hrun.
      destruct (IH (S index) s1) as (settled & s' & Hrest & Hrej & Hlen & Hund).
      unfold bind at 1. rewrite Hrest. eexists _, _. split; [reflexivity |].
      cbn [rejected created undelivered flat_map expected_failures app]. rewrite Hv.
      fold (rejected settled). fold (created settled).
      fold (undelivered trigger_rejects settled).
      split; [done |]. split; [simpl; lia |].
      intros Hnone. by rewrite Hnone, Hund.
Qed.

Lemma rate_check_sound a b :
  rate_check a b = true ->
  exists t,
    successRate exponent_form a b = rounded_percentage t /\ nearest_tenths_of t a b.
Proof.
  unfold rate_check, successRate, toFixed1, rounded_percentage, nearest_tenths_of.
  set (x := PrimFloat.mul _ _).
  destruct (Prim2SF x) as [sign| | |sign m e]; try discriminate.
  - intros Ha. apply Nat.eqb_eq in Ha as ->. exists 0. split; [reflexivity | simpl; lia].
  - destruct sign; [discriminate |].
    intros Hc. apply andb_prop in Hc as [Hc Hnear]. apply andb_prop in Hc as [Hbig He].
    apply negb_true_iff in Hbig. apply Z.ltb_lt in He. apply Z.leb_le in Hnear.
    rewrite Hbig.
    exists (nearest_tenths m e). split; [reflexivity |].
    unfold nearest_tenths. destruct (Z.leb_spec 0 e) as [?|_]; [lia |].
    rewrite Z.shiftr_div_pow2, Z.shiftl_1_l in Hnear by lia. exact Hnear.
Qed.

(** The double of a mantissa of 53 bits is not shifted by [Prim2SF]. *)
Lemma digits2_pos_size p : digits2_pos p = Pos.size p.
Proof. induction p; simpl; congruence. Qed.

Lemma Zdigits2_53 m : 2 ^ 52 <= m < 2 ^ 53 -> Zdigits2 m = 53.
Proof.
  intros Hm. destruct m as [|p|p]; try lia.
  simpl. rewrite digits2_pos_size.
  pose proof (Pos.size_gt p) as Hgt. pose proof (Pos.size_le p) as Hle.
  apply Pos2Z.pos_lt_pos in Hgt. apply Pos2Z.pos_le_pos in Hle.
  rewrite Pos2Z.inj_pow in Hgt, Hle. rewrite (Pos2Z.inj_xO p) in Hle.
  set (n := Z.pos (Pos.size p)) in *.
  assert (0 < n) by (subst n; lia).
  clearbody n.
  destruct (Z.lt_trichotomy n 53) as [Hlt|[Heq|Hgt53]]; [| assumption |]; exfalso.
  - assert (2 ^ n <= 2 ^ 52) by (apply Z.pow_le_mono_r; lia).
    generalize dependent (2 ^ n). intros. lia.
  - assert (2 ^ 54 <= 2 ^ n) by (apply Z.pow_le_mono_r; lia).
    generalize dependent (2 ^ n). intros. lia.
Qed.

Lemma to_Z_int_of_nat n : (n <= 1000)%nat -> Uint63.to_Z (int_of_nat n) = Z.of_nat n.
Proof.
  intros Hn. unfold int_of_nat. rewrite of_Z_spec. apply Z.mod_small.
  change wB with 9223372036854775808. lia.
Qed.

Lemma rate_check_int_sound a b :
  (a <= 1000)%nat -> (b <= 1000)%nat ->
  rate_check_int (int_of_nat a) (int_of_nat b) = true -> rate_check a b = true.
Proof.
  intros Ha Hb. unfold rate_check_int, rate_check, nat_to_float.
  fold (int_of_nat a). fold (int_of_nat b).
  set (x := PrimFloat.mul _ _).
  intros Hc. apply andb_prop in Hc as [Hnan Hc]. apply negb_true_iff in Hnan.
  unfold Prim2SF. rewrite Hnan.
  destruct (PrimFloat.is_zero x).
  - apply Uint63.eqb_spec in Hc. apply (f_equal Uint63.to_Z) in Hc.
    rewrite to_Z_int_of_nat, to_Z_0 in Hc by done. apply Nat.eqb_eq. lia.
  - apply andb_prop in Hc as [Hc Hbody]. apply andb_prop in Hc as [Hc Hbig].
    apply andb_prop in Hc as [Hinf Hsign].
    apply negb_true_iff in Hinf, Hsign. rewrite Hinf, Hsign.
    unfold Z.frexp. destruct (PrimFloat.frshiftexp x) as [r se].
    set (m := PrimFloat.normfr_mantissa r) in *.
    apply andb_prop in Hbody as [Hc Hcheck]. apply andb_prop in Hc as [Hc Hse2].
    apply andb_prop in Hc as [Hc Hse1]. apply andb_prop in Hc as [Hm1 Hm2].
    apply Uint63.leb_spec in Hm1, Hse1. apply Uint63.ltb_spec in Hm2, Hse2.
    change (Uint63.to_Z 4503599627370496) with (2 ^ 52) in Hm1.
    change (Uint63.to_Z 9007199254740992) with (2 ^ 53) in Hm2.
    change (Uint63.to_Z 2097) with 2097 in Hse1.
    change (Uint63.to_Z 2154) with 2154 in Hse2.
    unfold shr_fexp. rewrite Zdigits2_53 by lia.
    unfold FloatOps.shift, FloatOps.prec, FloatOps.emax, fexp, SpecFloat.emin.
    replace (Z.max _ _ - _) with 0 by lia.
    simpl shr. simpl shr_m.
    destruct (Uint63.to_Z m) as [|p|p] eqn:Hp; try lia.
    cbn [shr_m]. rewrite Hbig. rewrite andb_true_l.
    apply andb_true_intro. split; [apply Z.ltb_lt; lia |].
    apply andb_prop in Hcheck as [Hc Hup]. apply andb_prop in Hc as [Ht Hlow].
    apply Uint63.leb_spec in Ht, Hlow, Hup.
    set (k := (2154 - se)%uint63) in *.
    set (t := ((20 * m + (1 << k)) >> (k + 1))%uint63) in *.
    assert (Uint63.to_Z k = 2154 - Uint63.to_Z se) as Hk.
    { unfold k. rewrite sub_spec. change (Uint63.to_Z 2154) with 2154.
      apply Z.mod_small. change wB with 9223372036854775808. lia. }
    assert (Uint63.to_Z t
            = Z.shiftr (20 * Z.pos p + Z.shiftl 1 (- (Uint63.to_Z se - 2101 - 53)))
                (1 - (Uint63.to_Z se - 2101 - 53))) as Htz.
    { unfold t. rewrite lsr_spec, add_spec, mul_spec, lsl_spec, add_spec, Hk, Hp.
      change (Uint63.to_Z 20) with 20. change (Uint63.to_Z 1) with 1.
      change wB with (2 ^ 63).
      assert (2 ^ (2154 - Uint63.to_Z se) <= 2 ^ 57) by (apply Z.pow_le_mono_r; lia).
      assert (0 < 2 ^ (2154 - Uint63.to_Z se)) by (apply Z.pow_pos_nonneg; lia).
      rewrite (Z.mod_small (20 * Z.pos p)) by lia.
      rewrite (Z.mod_small (1 * _)) by lia.
      rewrite (Z.mod_small (_ + 1 * _)) by lia.
      rewrite (Z.mod_small (2154 - _ + 1)) by lia.
      rewrite Z.shiftr_div_pow2, Z.shiftl_1_l by lia.
      rewrite Z.mul_1_l.
      replace (- (Uint63.to_Z se - 2101 - 53)) with (2154 - Uint63.to_Z se) by lia.
      replace (1 - (Uint63.to_Z se - 2101 - 53)) with (2154 - Uint63.to_Z se + 1) by lia.
      reflexivity. }
    change (Uint63.to_Z 1001) with 1001 in Ht.
    rewrite !add_spec, !mul_spec, !to_Z_int_of_nat in Hlow, Hup by done.
    change (Uint63.to_Z 2) with 2 in *. change (Uint63.to_Z 2000) with 2000 in *.
    change wB with (2 ^ 63) in *.
    assert (0 <= Uint63.to_Z t) by apply to_Z_bounded.
    rewrite (Z.mod_small (2 * Uint63.to_Z t)) in Hlow, Hup by lia.
    rewrite (Z.mod_small (2 * Uint63.to_Z t * _)) in Hlow, Hup by nia.
    rewrite (Z.mod_small (2000 * _)) in Hlow, Hup by lia.
    rewrite (Z.mod_small (2000 * _ + _)) in Hlow by lia.
    rewrite (Z.mod_small (2 * _ * _ + _)) in Hup by nia.
    rewrite <- Htz. apply Z.leb_le. lia.
Qed.

Lemma int_of_nat_S n : (int_of_nat n + 1)%uint63 = int_of_nat (S n).
Proof.
  apply to_Z_inj. unfold int_of_nat.
  rewrite add_spec, !of_Z_spec, Nat2Z.inj_succ. change (Uint63.to_Z 1) with 1.
  rewrite Zplus_mod_idemp_l. reflexivity.
Qed.

Lemma rate_check_row_sound fuel a0 bi a :
  rate_check_row fuel (int_of_nat a0) bi = true ->
  (a0 <= a < a0 + fuel)%nat -> rate_check_int (int_of_nat a) bi = true.
Proof.
  revert a0. induction fuel as [|fuel IH]; intros a0 Hrow Ha; [lia |].
  simpl in Hrow. apply andb_prop in Hrow as [Hhere Hrest].
  destruct (decide (a = a0)) as [->|Hne]; [done |].
  rewrite int_of_nat_S in Hrest. apply (IH (S a0)); [done | lia].
Qed.

Lemma rate_check_rows_sound fuel n a b :
  rate_check_rows fuel n (int_of_nat n) = true ->
  (n <= b < n + fuel)%nat -> (a <= b)%nat ->
  rate_check_int (int_of_nat a) (int_of_nat b) = true.
Proof.
  revert n. induction fuel as [|fuel IH]; intros n Hrows Hb Ha; [lia |].
  cbn [rate_check_rows] in Hrows. apply andb_prop in Hrows as [Hhere Hrest].
  destruct (decide (b = n)) as [->|Hne].
  - apply (rate_check_row_sound (S n) 0); [exact Hhere | lia].
  - rewrite int_of_nat_S in Hrest. apply (IH (S n)); [done | lia | done].
Qed.

(** Every success rate of a batch of at most a thousand requests, checked
    one by one. *)
Lemma rates_checked : rate_check_rows maxBatchSize_limit 1 1%uint63 = true.
Proof. vm_compute. reflexivity. Qed.

Lemma rate_checked a b :
  (1 <= b <= maxBatchSize_limit)%nat -> (a <= b)%nat -> rate_check a b = true.
Proof.
  unfold maxBatchSize_limit. intros Hb Ha. apply rate_check_int_sound; [lia | lia |].
  apply (rate_check_rows_sound 1000 1); [exact rates_checked | lia | lia].
Qed.

(** The configured maximum stays within the limit: the service starts
    with 100 and [setMaxBatchSize] refuses a size above 1000. *)
Lemma setMaxBatchSize_limit size s :
  (maxBatchSize s <= maxBatchSize_limit)%nat ->
  (maxBatchSize (snd (setMaxBatchSize size s)) <= maxBatchSize_limit)%nat.
Proof.
  intros Hs. unfold setMaxBatchSize, maxBatchSize_limit in *.
  destruct (Nat.ltb_spec size 1) as [?|?]; [exact Hs |].
  destruct (Nat.ltb_spec 1000 size) as [?|?]; [exact Hs |].
  simpl. lia.
Qed.

(** *** The claim about the batch orchestrator *)

(** C7, as the code has it.  For a non-empty list of N requests, N within
    the configured maximum batch size (itself at most 1000, the largest
    [setMaxBatchSize] accepts), K of which fail create-validation, and a
    dispatcher whose [triggerEvent] does not reject: [batchCreate] returns
    N - K transactions and K failure entries, one per failing request with
    its position, the request itself and the validation message, and a
    summary with total N, success N - K, failed K and, as [successRate],
    [toFixed(1)] of the double [((N - K) / N) * 100] followed by a percent
    sign.  That string is a number of tenths nearest to the exact
    percentage 100 (N - K) / N (a half may go either way). *)
Theorem C7_batchCreate_counts_and_rate requests s :
  requests <> [] ->
  (length requests <= maxBatchSize s)%nat ->
  (maxBatchSize s <= maxBatchSize_limit)%nat ->
  (forall i, trigger_rejects TRANSACTION_CREATED i = None) ->
  let N := length requests in
  let K := length (List.filter fails_validation requests) in
  exists result s',
    batchCreate uuid_nth exponent_form trigger_rejects requests s = (Returned result, s') /\
    length (bc_successful result) = (N - K)%nat /\
    length (bc_failed result) = K /\
    bc_failed result = expected_failures 0 requests /\
    bc_summary result = mkSummary N (N - K) K (successRate exponent_form (N - K) N) /\
    exists t,
      sum_successRate (bc_summary result) = rounded_percentage t /\
      nearest_tenths_of t (N - K) N.
Proof.
  intros Hne Hsize Hlimit Hdelivers N K.
  destruct (create_each_settles requests 0 s) as (settled & s' & Hrun & Hrej & Hlen & Hund).
  specialize (Hund Hdelivers).
  assert (length (rejected settled) = K) as HK.
  { rewrite Hrej. apply expected_failures_length. }
  assert (length (created settled) = (N - K)%nat) as HS by (subst N; lia).
  assert (1 <= N)%nat as HN.
  { subst N. destruct requests; [done | simpl; lia]. }
  exists (mkBatchCreateResult (created settled) (rejected settled)
            (mkSummary N (N - K) K (successRate exponent_form (N - K) N))), s'.
  split.
  { unfold batchCreate, bind at 1, get_state.
    rewrite (proj2 (Nat.ltb_ge _ _) Hsize). unfold bind. rewrite Hrun. simpl.
    rewrite Hund, app_nil_r, HK, HS. by fold N. }
  simpl. repeat split; try done.
  apply rate_check_sound, rate_checked; lia.
Qed.

End Batch.

(** ** The statements at a sample environment *)

Lemma C1_witness :
  exists s',
    updateStatus sample_uuid first_id COMPLETED "test" None pending_state
      = (Thrown "Invalid status transition from PENDING to COMPLETED", s') /\
    transactions s' = transactions pending_state /\
    statusHistory s' = statusHistory pending_state.
Proof.
  assert (transactions pending_state !! first_id = Some (first_transaction pending_state))
    as Hstored by (vm_compute; reflexivity).
  assert (~ In COMPLETED (VALID_STATUS_TRANSITIONS (tx_status (first_transaction pending_state))))
    as Houtside by (vm_compute; intuition discriminate).
  pose proof (proj1 (proj2 (C1_status_changes_follow_table sample_uuid sample_regexp
                              sample_coerce pending_state first_id
                              (first_transaction pending_state) Hstored))
                COMPLETED "test" None Houtside) as W.
  vm_compute in W. vm_compute. exact W.
Defined.

Lemma C2_witness :
  exists ev s' res,
    evaluateTransaction sample_uuid sample_regexp sample_coerce
      (sample_transaction 150000%float "USD")
      (snd (resetToDefaults sample_uuid initial_state)) = (Returned ev, s') /\
    allowed ev = false /\
    denyReason ev
      = Some "Rule triggered: Very High Amount Block - Block transactions over $100,000" /\
    results ev = [res] /\
    res_ruleName res = "Very High Amount Block".
Proof.
  apply (proj2 (proj2 (proj2 (C2_priority_order_and_first_deny sample_uuid sample_regexp
                                sample_coerce)))).
  - apply (bool_decide_unpack _). vm_compute. exact I.
  - vm_compute. reflexivity.
  - vm_compute. reflexivity.
  - vm_compute. reflexivity.
Defined.

Lemma C4_witness :
  retry_bound exhausted_state /\
  retryTransaction sample_uuid sample_regexp sample_coerce 0.5%float first_id exhausted_state
    = (Thrown ("Maximum retry attempts ("
                 +:+ pretty (tx_maxRetries (first_transaction exhausted_state))
                 +:+ ") exceeded"), exhausted_state).
Proof.
  split.
  - apply (proj1 (proj2 (proj2 (C4_retry_budget sample_uuid sample_regexp sample_coerce)))
             exhausted_ops seeded_state).
    vm_compute. reflexivity.
  - apply (proj2 (proj2 (proj2 (C4_retry_budget sample_uuid sample_regexp sample_coerce)))
             0.5%float first_id exhausted_state (first_transaction exhausted_state)).
    + vm_compute. reflexivity.
    + vm_compute. reflexivity.
    + vm_compute. lia.
Defined.

Lemma C6_witness :
  cancelTransaction sample_uuid first_id None completed_state
    = (Thrown "Cannot cancel a completed transaction. Use refund instead.", completed_state) /\
  cancelTransaction sample_uuid first_id None cancelled_state
    = (Thrown "Transaction is already cancelled", cancelled_state) /\
  refundTransaction sample_uuid first_id None pending_state
    = (Thrown "Only completed transactions can be refunded", pending_state).
Proof.
  split; [| split].
  - apply (proj1 (C6_cancel_refund_guards sample_uuid completed_state first_id
                    (first_transaction completed_state) None
                    ltac:(vm_compute; reflexivity))).
    vm_compute. reflexivity.
  - apply (proj1 (proj2 (C6_cancel_refund_guards sample_uuid cancelled_state first_id
                           (first_transaction cancelled_state) None
                           ltac:(vm_compute; reflexivity)))).
    vm_compute. reflexivity.
  - apply (proj2 (proj2 (C6_cancel_refund_guards sample_uuid pending_state first_id
                           (first_transaction pending_state) None
                           ltac:(vm_compute; reflexivity)))).
    vm_compute. discriminate.
Defined.

Lemma C9_witness :
  chain (getStatusHistory exhausted_state first_id)
    (tx_status (first_transaction exhausted_state)).
Proof.
  apply (proj2 (proj2 (C9_history_is_a_chain sample_uuid sample_regexp sample_coerce))
           exhausted_ops seeded_state first_id (first_transaction exhausted_state)).
  - vm_compute. reflexivity.
  - vm_compute. reflexivity.
Defined.

(** C7, as the claim words it, fails twice.  Of eighty requests of which
    fifty-seven fail validation, twenty-three succeed: the percentage is
    28.75, which rounds to 28.8 (a half up, or a half to even), and the
    summary says 28.7%.  And when the dispatcher rejects, a request that
    passed validation is reported both as successful and as failed. *)
Lemma C7_counterexample :
  (exists result s',
     batchCreate sample_uuid sample_exponent_form always_delivers eighty_requests
       seeded_state = (Returned result, s') /\
     length eighty_requests = 80%nat /\
     length (List.filter fails_validation eighty_requests) = 57%nat /\
     sum_successRate (bc_summary result) = "28.7%" /\
     rounded_percentage (half_up_tenths 23 80) = "28.8%" /\
     rounded_percentage (half_even_tenths 23 80) = "28.8%") /\
  (exists result s',
     batchCreate sample_uuid sample_exponent_form never_delivers [sample_request 100%float]
       seeded_state = (Returned result, s') /\
     length (List.filter fails_validation [sample_request 100%float]) = 0%nat /\
     length (bc_successful result) = 1%nat /\
     length (bc_failed result) = 1%nat /\
     sum_failed (bc_summary result) = 1%nat).
Proof.
  split.
  - eexists _, _. split; [vm_compute; reflexivity |]. by vm_compute.
  - eexists _, _. split; [vm_compute; reflexivity |]. by vm_compute.
Qed.

Lemma C7_witness :
  exists result s',
    batchCreate sample_uuid sample_exponent_form always_delivers eighty_requests
      seeded_state = (Returned result, s') /\
    length (bc_successful result) = (80 - 57)%nat /\
    length (bc_failed result) = 57%nat /\
    bc_failed result = expected_failures 0 eighty_requests /\
    bc_summary result
      = mkSummary 80 (80 - 57) 57 (successRate sample_exponent_form (80 - 57) 80) /\
    exists t,
      sum_successRate (bc_summary result) = rounded_percentage t /\
      nearest_tenths_of t (80 - 57) 80.
Proof.
  apply (C7_batchCreate_counts_and_rate sample_uuid sample_exponent_form always_delivers
           eighty_requests seeded_state).
  - discriminate.
  - vm_compute. lia.
  - vm_compute. lia.
  - reflexivity.
Defined.

Lemma C5_witness :
  timers (snd ((sendWebhook sample_uuid sample_stringify sample_hmac sample_iso unreachable
                  sample_webhook "transaction.created" JNull 1 ;;
                fires sample_uuid sample_stringify sample_hmac sample_iso unreachable 2)
                 seeded_state))
  = [].
Proof.
  apply (proj2 (proj2 (C5_attempts_logs_and_retries sample_uuid sample_stringify sample_hmac
                         sample_iso unreachable sample_webhook "transaction.created" JNull))
           2%nat 1%nat seeded_state).
  - intros r. by eexists _, _.
  - reflexivity.
Defined.

Lemma C8_witness :
  header "X-Webhook-Signature"
    (build_request sample_stringify sample_hmac sample_iso sample_webhook
       "transaction.created" JNull 0)
  = Some (sample_hmac "s3cret"
            (sample_stringify (mkEnvelope "transaction.created" (sample_iso 0) JNull))).
Proof.
  assert (wh_secret sample_webhook = Some "s3cret") as Hsecret by reflexivity.
  assert ("s3cret" <> EmptyString) as Hset by discriminate.
  destruct (C8_signature_header sample_stringify sample_hmac sample_iso sample_webhook
              "transaction.created" JNull 0 "s3cret" Hsecret Hset)
    as (_ & _ & _ & Hsignature & _).
  exact Hsignature.
Defined.

(** ** More about the services *)

(** *** The insertion-ordered map *)

Section JsMapFacts.
Context {V : Type}.
Implicit Types (m : list (string * V)) (k : string) (v : V).

Lemma jsmap_get_set_eq k v m : jsmap_get k (jsmap_set k v m) = Some v.
Proof.
  induction m as [|[k' v'] m IH]; simpl.
  - by rewrite String.eqb_refl.
  - destruct (String.eqb k' k) eqn:Hk; simpl.
    + by rewrite String.eqb_refl.
    + by rewrite Hk.
Qed.

Lemma jsmap_get_set_ne k k' v m :
  k <> k' -> jsmap_get k' (jsmap_set k v m) = jsmap_get k' m.
Proof.
  intros Hne. induction m as [|[k0 v0] m IH]; simpl.
  - by rewrite (proj2 (String.eqb_neq _ _) Hne).
  - destruct (String.eqb_spec k0 k) as [->|Hk0]; simpl.
    + by rewrite (proj2 (String.eqb_neq _ _) Hne).
    + by rewrite IH.
Qed.

Lemma jsmap_get_None k m : jsmap_get k m = None <-> k ∉ map fst m.
Proof.
  induction m as [|[k' v'] m IH]; simpl.
  - split; [intros _; apply not_elem_of_nil | done].
  - rewrite not_elem_of_cons. destruct (String.eqb_spec k' k) as [->|Hk].
    + split; [done | by intros []].
    + rewrite IH. split; [by split | by intros []].
Qed.

Lemma jsmap_get_Some_In k v m : jsmap_get k m = Some v -> (k, v) ∈ m.
Proof.
  induction m as [|[k' v'] m IH]; simpl; [done |].
  destruct (String.eqb_spec k' k) as [->|Hk].
  - intros [= ->]. apply list_elem_of_here.
  - intros H. apply list_elem_of_further. by apply IH.
Qed.

Lemma jsmap_set_keys k v v0 m :
  jsmap_get k m = Some v0 -> map fst (jsmap_set k v m) = map fst m.
Proof.
  induction m as [|[k' v'] m IH]; simpl; [done |].
  destruct (String.eqb_spec k' k) as [->|Hk]; simpl; [done |].
  intros H. by rewrite IH.
Qed.

Lemma jsmap_set_new k v m : jsmap_get k m = None -> jsmap_set k v m = (m ++ [(k, v)])%list.
Proof.
  induction m as [|[k' v'] m IH]; simpl; [done |].
  destruct (String.eqb k' k); [done |]. intros H. by rewrite IH.
Qed.

Lemma jsmap_set_NoDup k v m : NoDup (map fst m) -> NoDup (map fst (jsmap_set k v m)).
Proof.
  intros Hnd. destruct (jsmap_get k m) as [v0|] eqn:Hget.
  - by rewrite (jsmap_set_keys k v v0 m Hget).
  - rewrite (jsmap_set_new k v m Hget), map_app. simpl.
    apply NoDup_app. split; [done |]. split; [| apply NoDup_singleton].
    intros x Hx Hx'. apply list_elem_of_singleton in Hx' as ->.
    by apply jsmap_get_None in Hget.
Qed.

Lemma jsmap_delete_fresh k m : jsmap_get k m = None -> jsmap_delete k m = m.
Proof.
  induction m as [|[k' v'] m IH]; simpl; [done |].
  destruct (String.eqb k' k); [done |]. intros H. by rewrite IH.
Qed.

Lemma jsmap_get_delete_ne k k' m :
  k <> k' -> jsmap_get k' (jsmap_delete k m) = jsmap_get k' m.
Proof.
  intros Hne. induction m as [|[k0 v0] m IH]; simpl; [done |].
  destruct (String.eqb_spec k0 k) as [->|Hk0]; simpl.
  - by rewrite (proj2 (String.eqb_neq _ _) Hne).
  - by rewrite IH.
Qed.

Lemma jsmap_get_delete_eq k m :
  NoDup (map fst m) -> jsmap_get k (jsmap_delete k m) = None.
Proof.
  induction m as [|[k0 v0] m IH]; simpl; [done |].
  intros Hnd. apply NoDup_cons in Hnd as [Hk0 Hnd].
  destruct (String.eqb_spec k0 k) as [->|Hne]; simpl.
  - by apply jsmap_get_None.
  - rewrite (proj2 (String.eqb_neq _ _) Hne). by apply IH.
Qed.

Lemma jsmap_delete_keys k m : map fst (jsmap_delete k m) `sublist_of` map fst m.
Proof.
  induction m as [|[k0 v0] m IH]; simpl; [done |].
  destruct (String.eqb k0 k); simpl.
  - by apply sublist_cons.
  - by apply sublist_skip.
Qed.

Lemma jsmap_delete_NoDup k m : NoDup (map fst m) -> NoDup (map fst (jsmap_delete k m)).
Proof. intros Hnd. eapply sublist_NoDup; [done | apply jsmap_delete_keys]. Qed.

Lemma jsmap_delete_set_new k v m : jsmap_get k m = None -> jsmap_delete k (jsmap_set k v m) = m.
Proof.
  induction m as [|[k' v'] m IH]; simpl.
  - by rewrite String.eqb_refl.
  - destruct (String.eqb k' k) eqn:Hk; [done |]. simpl. rewrite Hk. intros H. by rewrite IH.
Qed.

End JsMapFacts.

(** *** [TransactionService]: creating and processing *)

Section MoreLifecycle.
Variable uuid_nth : nat -> string.
Variable regexp_test : JsValue -> string -> option bool.
Variable coerce_number : JsValue -> float.

Lemma updateStatus_moved id newStatus triggeredBy reason s tx :
  transactions s !! id = Some tx ->
  In newStatus (VALID_STATUS_TRANSITIONS (tx_status tx)) ->
  updateStatus uuid_nth id newStatus triggeredBy reason s
    = (Returned (tx_set_status newStatus (clock s) tx),
       moved id newStatus triggeredBy reason tx s).
Proof.
  intros Htx Hin. apply status_includes_In in Hin.
  unfold updateStatus, bind, get_state. rewrite Htx, Hin. reflexivity.
Qed.

Lemma moved_lookup id newStatus triggeredBy reason tx s :
  transactions (moved id newStatus triggeredBy reason tx s) !! id
    = Some (tx_set_status newStatus (clock s) tx).
Proof. unfold moved. simpl. apply lookup_insert_eq. Qed.

Lemma processTransaction_pending random id s tx o s2 :
  transactions s !! id = Some tx ->
  tx_status tx = PENDING ->
  evaluateTransaction uuid_nth regexp_test coerce_number
    (tx_set_status VALIDATING (clock s) tx)
    (moved id VALIDATING "system" (Some "Starting validation") tx s) = (o, s2) ->
  processTransaction uuid_nth regexp_test coerce_number random id s =
    match o with
    | Thrown e => (Thrown e, s2)
    | Returned evaluation =>
        let tx1 := tx_set_status VALIDATING (clock s) tx in
        if allowed evaluation then
          let tx3 := tx_set_status PROCESSING (clock s2) tx1 in
          let s3 := moved id PROCESSING "system" (Some "Processing transaction") tx1 s2 in
          let s4 := with_clock (clock s3 + PROCESSING_DELAYS (tx_priority tx3)) s3 in
          if PrimFloat.ltb 0x1.999999999999ap-4%float random then
            let tx5 :=
              tx_set_completedAt (clock s4) (tx_set_status COMPLETED (clock s4) tx3) in
            (Returned tx5,
             with_transactions (insert id tx5)
               (moved id COMPLETED "system" (Some "Transaction completed successfully")
                  tx3 s4))
          else
            let tx5 :=
              tx_set_error (Some PROCESSING_FAILED) (Some "Simulated processing failure")
                (tx_set_status FAILED (clock s4) tx3) in
            let s5 :=
              with_transactions (insert id tx5)
                (moved id FAILED "system" (Some "Processing failed") tx3 s4) in
            (Returned tx5,
             with_transactions (insert id tx5)
               (snd (logProcessingError uuid_nth PROCESSING_FAILED
                       "Simulated processing failure" (Some id) s5)))
        else
          let tx3 :=
            tx_set_error (Some RULE_VIOLATION) (denyReason evaluation)
              (tx_set_status FAILED (clock s2) tx1) in
          (Returned tx3,
           with_transactions (insert id tx3)
             (moved id FAILED "rules-engine"
                (Some (or_string (denyReason evaluation) "Rule validation failed")) tx1 s2))
    end.
Proof.
  intros Htx Hst Hev.
  pose proof (evaluateTransaction_frame uuid_nth regexp_test coerce_number
                (tx_set_status VALIDATING (clock s) tx)
                (moved id VALIDATING "system" (Some "Starting validation") tx s)) as Hf.
  rewrite Hev in Hf. simpl in Hf. destruct Hf as (Ht2 & Hh2 & _).
  assert (transactions s2 !! id = Some (tx_set_status VALIDATING (clock s) tx)) as Htx2.
  { rewrite Ht2. apply moved_lookup. }
  unfold processTransaction. unfold bind at 1, get_state. rewrite Htx.
  unfold bind at 1. rewrite (updateStatus_moved _ _ _ _ _ tx) by (rewrite ?Hst; simpl; auto).
  unfold bind at 1, stored at 1, bind at 1, get_state. rewrite moved_lookup.
  unfold ret at 1. unfold bind at 1. rewrite Hev.
  destruct o as [evaluation|e]; [| reflexivity].
  destruct (allowed evaluation); cbn [negb].
  - unfold bind at 1.
    rewrite (updateStatus_moved _ _ _ _ _ _ Htx2) by (simpl; auto).
    unfold bind at 1, stored at 1, bind at 1, get_state. rewrite moved_lookup.
    unfold ret at 1. unfold bind at 1, simulateProcessing, modify.
    set (tx3 := tx_set_status PROCESSING (clock s2) _).
    set (s3 := moved id PROCESSING _ _ _ s2).
    set (s4 := with_clock _ s3).
    assert (transactions s4 !! id = Some tx3) as Htx4 by apply moved_lookup.
    cbv zeta.
    destruct (PrimFloat.ltb _ random).
    + unfold bind at 1.
      rewrite (updateStatus_moved _ _ _ _ _ _ Htx4) by (simpl; auto).
      unfold bind at 1, stored at 1, bind at 1, get_state. rewrite moved_lookup.
      reflexivity.
    + unfold bind at 1.
      rewrite (updateStatus_moved _ _ _ _ _ _ Htx4) by (simpl; auto).
      unfold bind at 1, stored at 1, bind at 1, get_state. rewrite moved_lookup.
      reflexivity.
  - unfold bind at 1.
    rewrite (updateStatus_moved _ _ _ _ _ _ Htx2) by (simpl; auto).
    unfold bind at 1, stored at 1, bind at 1, get_state. rewrite moved_lookup.
    reflexivity.
Qed.


Lemma processTransaction_missing random id s :
  transactions s !! id = None ->
  exists entry,
    processTransaction uuid_nth regexp_test coerce_number random id s
      = (Thrown (not_found id),
         with_errorLogs (insert (err_id entry) entry) (with_uuid_count (S (uuid_count s)) s)) /\
    entry = mkErrorLogEntry (uuid_nth (uuid_count s)) (clock s) ES_ERROR EC_PROCESSING
              TRANSACTION_NOT_FOUND (not_found id) (Some id) false.
Proof.
  intros Htx. eexists. split; [| reflexivity].
  unfold processTransaction, bind at 1, get_state. rewrite Htx. reflexivity.
Qed.

Lemma not_pending_no_validating st :
  st <> PENDING -> ~ In VALIDATING (VALID_STATUS_TRANSITIONS st).
Proof. destruct st; simpl; intuition congruence. Qed.

Lemma processTransaction_not_pending random id s tx :
  transactions s !! id = Some tx ->
  tx_status tx <> PENDING ->
  exists s',
    processTransaction uuid_nth regexp_test coerce_number random id s
      = (Thrown (invalid_transition (tx_status tx) VALIDATING), s') /\
    frame s s'.
Proof.
  intros Htx Hst.
  destruct (updateStatus_rejects uuid_nth id VALIDATING "system" (Some "Starting validation")
              s tx Htx (not_pending_no_validating _ Hst)) as (s' & Hrun & Hf).
  exists s'. split; [| exact Hf].
  unfold processTransaction, bind at 1, get_state. rewrite Htx.
  unfold bind at 1. by rewrite Hrun.
Qed.

(** What [processTransaction] returns is the stored transaction, in
    COMPLETED or FAILED. *)
Lemma processTransaction_returned random id s tx' s' :
  processTransaction uuid_nth regexp_test coerce_number random id s = (Returned tx', s') ->
  transactions s' !! id = Some tx' /\
  (tx_status tx' = COMPLETED \/ tx_status tx' = FAILED) /\
  exists tx, transactions s !! id = Some tx /\ tx_status tx = PENDING /\
    tx_retryCount tx' = tx_retryCount tx /\ tx_maxRetries tx' = tx_maxRetries tx /\
    tx_id tx' = tx_id tx.
Proof.
  intros Hrun.
  destruct (transactions s !! id) as [tx|] eqn:Htx.
  2:{ destruct (processTransaction_missing random id s Htx) as (entry & Hm & _).
      congruence. }
  destruct (decide (tx_status tx = PENDING)) as [Hst|Hst].
  2:{ destruct (processTransaction_not_pending random id s tx Htx Hst) as (s1 & Hm & _).
      congruence. }
  destruct (evaluateTransaction uuid_nth regexp_test coerce_number
              (tx_set_status VALIDATING (clock s) tx)
              (moved id VALIDATING "system" (Some "Starting validation") tx s))
    as [o s2] eqn:Hev.
  rewrite (processTransaction_pending random id s tx o s2 Htx Hst Hev) in Hrun.
  destruct o as [evaluation|e]; [| done].
  cbv zeta in Hrun.
  destruct (allowed evaluation).
  - destruct (PrimFloat.ltb _ random); injection Hrun as <- <-; simpl;
      rewrite lookup_insert_eq; (split; [done |]); (split; [by auto |]);
      exists tx; by repeat split.
  - injection Hrun as <- <-. simpl. rewrite lookup_insert_eq.
    split; [done |]. split; [by auto |]. exists tx. by repeat split.
Qed.



(** An identifier under which nothing is stored: [updateStatus],
    [retryTransaction], [cancelTransaction] and [refundTransaction] throw
    the not-found error and leave the state as it was;
    [processTransaction] throws it too, after logging one processing error
    with code E4002 that names the identifier, and writes nothing else. *)
Theorem absent_transaction_is_not_found random id newStatus triggeredBy reason s :
  transactions s !! id = None ->
  updateStatus uuid_nth id newStatus triggeredBy reason s
    = (Thrown ("Transaction " +:+ id +:+ " not found"), s) /\
  retryTransaction uuid_nth regexp_test coerce_number random id s
    = (Thrown ("Transaction " +:+ id +:+ " not found"), s) /\
  cancelTransaction uuid_nth id reason s
    = (Thrown ("Transaction " +:+ id +:+ " not found"), s) /\
  refundTransaction uuid_nth id reason s
    = (Thrown ("Transaction " +:+ id +:+ " not found"), s) /\
  exists s',
    processTransaction uuid_nth regexp_test coerce_number random id s
      = (Thrown ("Transaction " +:+ id +:+ " not found"), s') /\
    frame s s' /\
    errorLogs s' =
      <[uuid_nth (uuid_count s) :=
          mkErrorLogEntry (uuid_nth (uuid_count s)) (clock s) ES_ERROR EC_PROCESSING "E4002"
            ("Transaction " +:+ id +:+ " not found") (Some id) false]> (errorLogs s).
Proof.
  intros Htx. split; [by apply updateStatus_missing |].
  split; [unfold retryTransaction, bind, get_state; by rewrite Htx |].
  split; [unfold cancelTransaction, bind, get_state; by rewrite Htx |].
  split; [unfold refundTransaction, bind, get_state; by rewrite Htx |].
  destruct (processTransaction_missing random id s Htx) as (entry & Hrun & ->).
  eexists. split; [exact Hrun |]. split; [by repeat split | reflexivity].
Qed.

(** A stored transaction can be processed from PENDING only: in any other
    status [processTransaction] throws the invalid-transition error towards
    VALIDATING (after logging it) and leaves the stored transactions, their
    histories and the clock as they were. *)
Theorem processing_needs_pending random id s tx :
  transactions s !! id = Some tx ->
  tx_status tx <> PENDING ->
  exists s',
    processTransaction uuid_nth regexp_test coerce_number random id s
      = (Thrown ("Invalid status transition from " +:+ status_name (tx_status tx)
                   +:+ " to VALIDATING"), s') /\
    transactions s' = transactions s /\
    statusHistory s' = statusHistory s /\
    clock s' = clock s.
Proof.
  intros Htx Hst.
  destruct (processTransaction_not_pending random id s tx Htx Hst)
    as (s' & Hrun & Ht & Hh & _ & _ & Hc & _).
  exists s'. by repeat split.
Qed.


(** [processTransaction] on a stored PENDING transaction, when the rules
    can be evaluated: it returns the transaction as stored afterwards.
    With the rules allowing it and a draw above 0.1 the transaction is
    COMPLETED, with [completedAt] the time after the processing delay of
    its priority, and its history has gained PENDING to VALIDATING,
    VALIDATING to PROCESSING, PROCESSING to COMPLETED.  With the rules
    allowing it and a draw of 0.1 or less it is FAILED with code E2005.
    With the rules denying it, it is FAILED with code E3001 and the deny
    reason as message, straight from VALIDATING, and no delay is spent.
    Amount, currency, identifier and retry counters are never changed. *)
Theorem processing_a_pending_transaction random id s tx evaluation s2 :
  transactions s !! id = Some tx ->
  tx_status tx = PENDING ->
  evaluateTransaction uuid_nth regexp_test coerce_number
    (tx_set_status VALIDATING (clock s) tx)
    (moved id VALIDATING "system" (Some "Starting validation") tx s)
    = (Returned evaluation, s2) ->
  let now := clock s in
  let later := clock s + PROCESSING_DELAYS (tx_priority tx) in
  let validating := mkTransition id PENDING VALIDATING now (Some "Starting validation") "system" in
  let processing :=
    mkTransition id VALIDATING PROCESSING now (Some "Processing transaction") "system" in
  exists tx' s',
    processTransaction uuid_nth regexp_test coerce_number random id s = (Returned tx', s') /\
    transactions s' = <[id := tx']> (transactions s) /\
    tx_id tx' = tx_id tx /\ tx_amount tx' = tx_amount tx /\
    tx_currency tx' = tx_currency tx /\
    tx_retryCount tx' = tx_retryCount tx /\ tx_maxRetries tx' = tx_maxRetries tx /\
    if allowed evaluation then
      if PrimFloat.ltb 0x1.999999999999ap-4%float random then
        tx_status tx' = COMPLETED /\
        tx_completedAt tx' = Some later /\
        tx_errorCode tx' = tx_errorCode tx /\
        clock s' = later /\
        getStatusHistory s' id =
          (getStatusHistory s id ++
             [validating; processing;
              mkTransition id PROCESSING COMPLETED later
                (Some "Transaction completed successfully") "system"])%list
      else
        tx_status tx' = FAILED /\
        tx_completedAt tx' = tx_completedAt tx /\
        tx_errorCode tx' = Some "E2005" /\
        tx_errorMessage tx' = Some "Simulated processing failure" /\
        clock s' = later /\
        getStatusHistory s' id =
          (getStatusHistory s id ++
             [validating; processing;
              mkTransition id PROCESSING FAILED later (Some "Processing failed") "system"])%list
    else
      tx_status tx' = FAILED /\
      tx_completedAt tx' = tx_completedAt tx /\
      tx_errorCode tx' = Some "E3001" /\
      tx_errorMessage tx' = denyReason evaluation /\
      clock s' = now /\
      getStatusHistory s' id =
        (getStatusHistory s id ++
           [validating;
            mkTransition id VALIDATING FAILED now
              (Some (match denyReason evaluation with
                     | Some reason =>
                         if String.eqb reason EmptyString then "Rule validation failed"
                         else reason
                     | None => "Rule validation failed"
                     end)) "rules-engine"])%list.
Proof.
  intros Htx Hst Hev now later validating processing.
  pose proof (evaluateTransaction_frame uuid_nth regexp_test coerce_number
                (tx_set_status VALIDATING (clock s) tx)
                (moved id VALIDATING "system" (Some "Starting validation") tx s)) as Hf.
  rewrite Hev in Hf. simpl in Hf. destruct Hf as (Ht2 & Hh2 & _ & _ & Hc2 & _).
  simpl in Ht2, Hh2, Hc2.
  rewrite (processTransaction_pending random id s tx _ s2 Htx Hst Hev). cbv zeta.
  destruct (allowed evaluation).
  - destruct (PrimFloat.ltb _ random); eexists _, _; (split; [reflexivity |]);
      unfold getStatusHistory, moved; simpl;
      unfold getStatusHistory, moved; simpl;
      rewrite ?Ht2, ?Hh2, ?Hc2, ?lookup_insert_eq, ?insert_insert_eq; simpl;
      rewrite <- ?app_assoc; simpl; rewrite ?Hst; repeat split; reflexivity.
  - eexists _, _. split; [reflexivity |]. unfold getStatusHistory, moved. simpl.
    unfold getStatusHistory, moved. simpl.
    rewrite ?Ht2, ?Hh2, ?Hc2, ?lookup_insert_eq, ?insert_insert_eq. simpl.
    rewrite <- ?app_assoc. simpl. rewrite ?Hst. repeat split; reflexivity.
Qed.

(** When evaluating the rules throws (a MATCHES rule whose pattern is not a
    regular expression), [processTransaction] throws the same error after
    the move to VALIDATING: the transaction stays stored in VALIDATING,
    with that one transition added to its history. *)
Theorem processing_stops_when_the_rules_throw random id s tx e s2 :
  transactions s !! id = Some tx ->
  tx_status tx = PENDING ->
  evaluateTransaction uuid_nth regexp_test coerce_number
    (tx_set_status VALIDATING (clock s) tx)
    (moved id VALIDATING "system" (Some "Starting validation") tx s)
    = (Thrown e, s2) ->
  processTransaction uuid_nth regexp_test coerce_number random id s = (Thrown e, s2) /\
  transactions s2 = <[id := tx_set_status VALIDATING (clock s) tx]> (transactions s) /\
  getStatusHistory s2 id =
    (getStatusHistory s id ++
       [mkTransition id PENDING VALIDATING (clock s) (Some "Starting validation") "system"])%list.
Proof.
  intros Htx Hst Hev.
  pose proof (evaluateTransaction_frame uuid_nth regexp_test coerce_number
                (tx_set_status VALIDATING (clock s) tx)
                (moved id VALIDATING "system" (Some "Starting validation") tx s)) as Hf.
  rewrite Hev in Hf. simpl in Hf. destruct Hf as (Ht2 & Hh2 & _).
  simpl in Ht2, Hh2.
  rewrite (processTransaction_pending random id s tx _ s2 Htx Hst Hev).
  split; [done |]. split; [done |].
  unfold getStatusHistory. rewrite Hh2, lookup_insert_eq. simpl. by rewrite Hst.
Qed.

End MoreLifecycle.

(** *** [RulesEngine]: the verdict of an evaluation *)

Section Total.
Variable uuid_nth : nat -> string.
Variable regexp_test : JsValue -> string -> option bool.
Variable coerce_number : JsValue -> float.
Hypothesis regexp_total : forall pattern subject, is_Some (regexp_test pattern subject).







End Total.

Section Verdict.
Variable uuid_nth : nat -> string.
Variable regexp_test : JsValue -> string -> option bool.
Variable coerce_number : JsValue -> float.

Lemma logRuleViolation_effect ruleName message transactionId s :
  exists entry,
    logRuleViolation uuid_nth ruleName message transactionId s
      = (Returned entry,
         with_errorLogs (insert (uuid_nth (uuid_count s)) entry)
           (with_uuid_count (S (uuid_count s)) s)).
Proof.
  unfold logRuleViolation, logError, bind, uuidv4, new_Date, modify, ret.
  eexists. reflexivity.
Qed.

Lemma last_deny_message_cons r l :
  last_deny_message (r :: l) =
    match last_deny_message l with
    | Some m => Some m
    | None => if triggers DENY r then Some (res_message r) else None
    end.
Proof.
  unfold last_deny_message. simpl.
  destruct (triggers DENY r).
  2:{ by destruct (last (List.filter (triggers DENY) l)). }
  destruct (List.filter (triggers DENY) l) as [|x l'] eqn:Hl; [done |].
  change (last (r :: x :: l')) with (last (x :: l')).
  destruct (last (x :: l')) eqn:Hlast; [done |]. by apply last_None in Hlast.
Qed.

Lemma evaluate_loop_verdict tx remaining acc s ev s' :
  evaluate_loop uuid_nth regexp_test coerce_number tx remaining acc s = (Returned ev, s') ->
  exists visited new,
    visited `prefix_of` remaining /\
    Forall2 (fun rule res =>
               evaluateRule regexp_test coerce_number rule tx (clock s) = Some res)
      visited new /\
    results ev = (results acc ++ new)%list /\
    allowed ev = allowed acc && negb (existsb (triggers DENY) new) /\
    flagged ev = flagged acc || existsb (triggers FLAG) new /\
    requiresApproval ev = requiresApproval acc || existsb (triggers REQUIRE_APPROVAL) new /\
    denyReason ev = from_option Some (denyReason acc) (last_deny_message new) /\
    (stopOnFirstDeny (config s) = false -> visited = remaining) /\
    uuid_count s' =
      (uuid_count s +
       length (List.filter (fun r => triggers DENY r || triggers FLAG r) new))%nat.
Proof.
  revert acc s ev s'. induction remaining as [|rule rest IH]; intros acc s ev s' Hrun.
  - injection Hrun as <- <-. exists [], []. rewrite app_nil_r, andb_true_r, !orb_false_r.
    simpl. rewrite Nat.add_0_r. by repeat split.
  - simpl in Hrun. unfold bind at 1 in Hrun. simpl in Hrun.
    destruct (evaluateRule regexp_test coerce_number rule tx (clock s)) as [res|] eqn:Hres;
      [| done].
    assert (forall acc1 s1,
              results acc1 = (results acc ++ [res])%list ->
              clock s1 = clock s -> config s1 = config s ->
              evaluate_loop uuid_nth regexp_test coerce_number tx rest acc1 s1
                = (Returned ev, s') ->
              exists visited new,
                visited `prefix_of` rule :: rest /\
                Forall2 (fun rule res =>
                           evaluateRule regexp_test coerce_number rule tx (clock s) = Some res)
                  visited (res :: new) /\
                results ev = (results acc ++ res :: new)%list /\
                allowed ev = allowed acc1 && negb (existsb (triggers DENY) new) /\
                flagged ev = flagged acc1 || existsb (triggers FLAG) new /\
                requiresApproval ev
                  = requiresApproval acc1 || existsb (triggers REQUIRE_APPROVAL) new /\
                denyReason ev = from_option Some (denyReason acc1) (last_deny_message new) /\
                (stopOnFirstDeny (config s) = false -> visited = rule :: rest) /\
                uuid_count s' =
                  (uuid_count s1 +
                   length (List.filter (fun r => triggers DENY r || triggers FLAG r) new))%nat)
      as Hnext.
    { intros acc1 s1 Hr Hc Hcfg Hrest.
      destruct (IH acc1 s1 ev s' Hrest)
        as (visited & new & Hpre & Hall & Hres' & Ha & Hf & Hq & Hd & Hstop & Hn).
      exists (rule :: visited), new.
      split; [by apply prefix_cons |].
      split; [constructor; [done | by rewrite <- Hc] |].
      split; [by rewrite Hres', Hr, <- app_assoc |].
      repeat split; try done.
      intros Hs. rewrite <- Hcfg in Hs. by rewrite (Hstop Hs). }
    assert (forall new,
              last_deny_message (res :: new) =
                match last_deny_message new with
                | Some m => Some m
                | None => if triggers DENY res then Some (res_message res) else None
                end) as Hlast by (intros; apply last_deny_message_cons).
    destruct (res_passed res) eqn:Hp.
    { apply Hnext in Hrun; [| reflexivity..].
      destruct Hrun as (visited & new & Hpre & Hall & Hr & Ha & Hf & Hq & Hd & Hstop & Hn).
      exists visited, (res :: new). rewrite Hlast.
      simpl. unfold triggers at 1 3 5 7 8 9. rewrite Hp. simpl.
      repeat split; try done.
      rewrite Hd. simpl. by destruct (last_deny_message new). }
    destruct (res_action res) eqn:Hact.
    + apply Hnext in Hrun; [| reflexivity..].
      destruct Hrun as (visited & new & Hpre & Hall & Hr & Ha & Hf & Hq & Hd & Hstop & Hn).
      exists visited, (res :: new). rewrite Hlast.
      simpl. unfold triggers at 1 3 5 7 8 9. rewrite Hp, Hact. simpl.
      repeat split; try done.
      rewrite Hd. simpl. by destruct (last_deny_message new).
    + unfold bind at 1 in Hrun.
      destruct (logRuleViolation_effect (rule_name rule) (res_message res)
                  (Some (tx_id tx)) s) as (entry & Hlog).
      rewrite Hlog in Hrun. unfold bind at 1, get_state in Hrun. simpl in Hrun.
      destruct (stopOnFirstDeny (config s)) eqn:Hstop0.
      * injection Hrun as <- <-. exists [rule], [res].
        split; [apply prefix_cons, prefix_nil |].
        split; [by repeat constructor |].
        rewrite Hlast. simpl. unfold triggers. rewrite Hp, Hact. simpl.
        rewrite andb_false_r, !orb_false_r. repeat split; try done. lia.
      * apply Hnext in Hrun; [| reflexivity..].
      destruct Hrun as (visited & new & Hpre & Hall & Hr & Ha & Hf & Hq & Hd & Hstop & Hn).
        exists visited, (res :: new). rewrite Hlast.
        simpl. unfold triggers at 1 3 5 7 8 9. rewrite Hp, Hact. simpl.
        simpl in Ha, Hd, Hn.
        rewrite andb_false_r. repeat split; try done.
        -- rewrite Hd. by destruct (last_deny_message new).
        -- rewrite Hn. lia.
    + unfold bind at 1 in Hrun.
      destruct (logRuleViolation_effect (rule_name rule) (res_message res)
                  (Some (tx_id tx)) s) as (entry & Hlog).
      rewrite Hlog in Hrun.
      apply Hnext in Hrun; [| reflexivity..].
      destruct Hrun as (visited & new & Hpre & Hall & Hr & Ha & Hf & Hq & Hd & Hstop & Hn).
      exists visited, (res :: new). rewrite Hlast.
      simpl. unfold triggers at 1 3 5 7 8 9. rewrite Hp, Hact. simpl.
      simpl in Hf, Hd, Hn.
      repeat split; try done.
      -- rewrite Hf. by rewrite orb_true_r.
      -- rewrite Hd. by destruct (last_deny_message new).
      -- rewrite Hn. lia.
    + apply Hnext in Hrun; [| reflexivity..].
      destruct Hrun as (visited & new & Hpre & Hall & Hr & Ha & Hf & Hq & Hd & Hstop & Hn).
      exists visited, (res :: new). rewrite Hlast.
      simpl. unfold triggers at 1 3 5 7 8 9. rewrite Hp, Hact. simpl.
      simpl in Hq, Hd.
      repeat split; try done.
      -- rewrite Hq. by rewrite orb_true_r.
      -- rewrite Hd. by destruct (last_deny_message new).
Qed.

(** The verdict of [evaluateTransaction] is read off its results: the
    transaction is allowed exactly when no result triggers DENY, flagged
    exactly when one triggers FLAG, in need of approval exactly when one
    triggers REQUIRE_APPROVAL; [denyReason] is the message of the last
    result that triggers DENY, and is set exactly when the transaction is
    not allowed.  A rule that did not pass with a result of action ALLOW
    changes none of them. *)
Theorem verdict_reflects_results tx s ev s' :
  evaluateTransaction uuid_nth regexp_test coerce_number tx s = (Returned ev, s') ->
  allowed ev = negb (existsb (triggers DENY) (results ev)) /\
  flagged ev = existsb (triggers FLAG) (results ev) /\
  requiresApproval ev = existsb (triggers REQUIRE_APPROVAL) (results ev) /\
  denyReason ev = last_deny_message (results ev) /\
  (allowed ev = false <-> exists reason, denyReason ev = Some reason).
Proof.
  unfold evaluateTransaction, bind, get_state. intros Hrun.
  apply evaluate_loop_verdict in Hrun
    as (visited & new & _ & _ & Hr & Ha & Hf & Hq & Hd & _).
  simpl in *. subst new. rewrite Ha, Hf, Hq, Hd.
  repeat split; try by destruct (last_deny_message (results ev)).
  - unfold last_deny_message.
    destruct (List.filter (triggers DENY) (results ev)) as [|r l] eqn:Hl.
    + intros Hex. apply negb_false_iff, existsb_exists in Hex as (r & Hin & Hr).
      assert (In r (List.filter (triggers DENY) (results ev))) as Hin'
        by (apply filter_In; by split).
      by rewrite Hl in Hin'.
    + intros _. destruct (last (r :: l)) eqn:Hlast; [by eexists |].
      by apply last_None in Hlast.
  - intros [reason Hreason]. apply negb_false_iff, existsb_exists.
    unfold last_deny_message in Hreason.
    destruct (last (List.filter (triggers DENY) (results ev))) as [r|] eqn:Hlast; [| done].
    exists r. apply last_Some_elem_of, list_elem_of_In, filter_In in Hlast. exact Hlast.
Qed.

(** The results of [evaluateTransaction] are those of a front part of the
    enabled rules in their priority order, one result for each rule, in
    that order; with [stopOnFirstDeny] off every enabled rule has its
    result, also after a DENY.  The evaluation writes to the error log
    only, with one new identifier (one rule-violation entry) for each
    result that triggers DENY or FLAG and none for the others. *)
Theorem rules_visited_and_logged tx s ev s' :
  evaluateTransaction uuid_nth regexp_test coerce_number tx s = (Returned ev, s') ->
  (exists visited,
     visited `prefix_of` activeRules s /\
     Forall2 (fun rule res =>
                evaluateRule regexp_test coerce_number rule tx (clock s) = Some res)
       visited (results ev) /\
     map res_ruleId (results ev) = map rule_id visited /\
     (stopOnFirstDeny (config s) = false -> visited = activeRules s)) /\
  frame s s' /\
  uuid_count s' =
    (uuid_count s +
     length (List.filter (fun r => triggers DENY r || triggers FLAG r) (results ev)))%nat.
Proof.
  intros Hrun.
  pose proof (evaluateTransaction_frame uuid_nth regexp_test coerce_number tx s) as Hf.
  rewrite Hrun in Hf.
  unfold evaluateTransaction, bind, get_state in Hrun.
  apply evaluate_loop_verdict in Hrun
    as (visited & new & Hpre & Hall & Hr & _ & _ & _ & _ & Hstop & Hn).
  simpl in Hr. subst new. split; [| by split].
  exists visited. repeat split; try done.
  clear Hpre Hstop Hn. induction Hall as [|rule res visited rs Hres _ IH]; [done |].
  simpl. rewrite IH. f_equal. unfold evaluateRule in Hres.
  destruct (evaluateCondition _ _ _ _); [| done]. by injection Hres as <-.
Qed.

End Verdict.

(** *** Sorting by priority and filtering commute *)

Lemma insert_by_priority_first r l :
  Forall (fun x => rule_priority r <= rule_priority x) l -> insert_by_priority r l = r :: l.
Proof.
  destruct 1 as [|x l Hx _]; simpl; [done |].
  by rewrite (proj2 (Z.leb_le _ _) Hx).
Qed.

Lemma filter_insert_by_priority (P : Rule -> Prop) `{!forall x, Decision (P x)} r l :
  StronglySorted (fun a b => rule_priority a <= rule_priority b) l ->
  filter P (insert_by_priority r l)
  = if decide (P r) then insert_by_priority r (filter P l) else filter P l.
Proof.
  induction 1 as [|x l Hs IH Hx]; simpl.
  - rewrite filter_cons, filter_nil. by destruct (decide (P r)).
  - destruct (Z.leb_spec (rule_priority r) (rule_priority x)) as [Hle|Hlt].
    + rewrite (filter_cons _ r). destruct (decide (P r)); [| done].
      rewrite insert_by_priority_first; [done |].
      apply Forall_forall. intros y Hy. apply list_elem_of_filter in Hy as [_ Hy].
      apply elem_of_cons in Hy as [->|Hy]; [done |].
      rewrite Forall_forall in Hx. specialize (Hx y Hy). lia.
    + rewrite !(filter_cons _ x), IH.
      destruct (decide (P x)), (decide (P r)); simpl; try done.
      by rewrite (proj2 (Z.leb_gt _ _) Hlt).
Qed.

Lemma filter_sort_by_priority (P : Rule -> Prop) `{!forall x, Decision (P x)} l :
  filter P (sort_by_priority l) = sort_by_priority (filter P l).
Proof.
  induction l as [|x l IH]; simpl; [done |].
  rewrite filter_insert_by_priority by apply sort_by_priority_sorted.
  rewrite filter_cons, IH. by destruct (decide (P x)).
Qed.

Section RuleStoreFacts.
Variable uuid_nth : nat -> string.
Variable regexp_test : JsValue -> string -> option bool.
Variable coerce_number : JsValue -> float.

Lemma keyed_values_other id (m : list (string * Rule)) :
  Forall (fun entry => rule_id (snd entry) = fst entry) m ->
  id ∉ map fst m ->
  Forall (fun r => rule_id r <> id) (jsmap_values m).
Proof.
  induction 1 as [|[k v] m Hk _ IH]; simpl; [constructor |].
  rewrite not_elem_of_cons. intros [Hne Hid]. constructor; [| by apply IH].
  simpl in Hk. congruence.
Qed.

Lemma filter_all {A} (P : A -> Prop) `{!forall x, Decision (P x)} l :
  Forall P l -> filter P l = l.
Proof.
  induction 1 as [|x l Hx _ IH]; [done |].
  by rewrite filter_cons, decide_True, IH.
Qed.

Lemma disabled_in_place id rule rule' (m : list (string * Rule)) :
  NoDup (map fst m) ->
  Forall (fun entry => rule_id (snd entry) = fst entry) m ->
  jsmap_get id m = Some rule ->
  rule_enabled rule' = false ->
  filter (fun r => rule_enabled r = true) (jsmap_values (jsmap_set id rule' m))
  = filter (fun r => rule_id r <> id)
      (filter (fun r => rule_enabled r = true) (jsmap_values m)).
Proof.
  intros Hnd Hkeyed. revert Hnd.
  induction Hkeyed as [|[k v] m Hk Hkeyed IH]; simpl; [done |].
  intros Hnd Hget Hoff. apply NoDup_cons in Hnd as [Hfresh Hnd]. simpl in Hk.
  destruct (String.eqb_spec k id) as [->|Hne]; simpl.
  - rewrite !(filter_cons _ rule'), !(filter_cons _ v).
    rewrite decide_False by congruence.
    assert (filter (fun r => rule_id r <> id)
              (filter (fun r => rule_enabled r = true) (jsmap_values m))
            = filter (fun r => rule_enabled r = true) (jsmap_values m)) as Hsame.
    { apply filter_all. apply Forall_forall. intros r Hr.
      apply list_elem_of_filter in Hr as [_ Hr].
      pose proof (keyed_values_other id m Hkeyed Hfresh) as Hall.
      rewrite Forall_forall in Hall. by apply Hall. }
    destruct (decide (rule_enabled v = true)); [| done].
    rewrite filter_cons, decide_False by (intros H; by apply H). done.
  - rewrite !(filter_cons _ v). destruct (decide (rule_enabled v = true)).
    + rewrite filter_cons, decide_True by congruence. f_equal. by apply IH.
    + by apply IH.
Qed.

(** [updateRule] on an identifier that is not a rule returns null and
    leaves the state as it was.  On a rule it returns the rule with the
    given properties replaced and [updatedAt] set to now, whatever
    [updatedAt] was given; the rule is stored in the place of the old one,
    under the key it had, so the order of the store is unchanged, and
    every other rule is as it was.  The properties [id] and [createdAt] are
    kept when the updates carry none, as their type has it; an [id] that
    came with the body of a request is taken over, and the rule is then
    stored under a key that is not its identifier. *)
Theorem updateRule_replaces_in_place id updates s :
  match getRule s id with
  | None => updateRule id updates s = (Returned None, s)
  | Some rule =>
      let updated := updated_rule rule updates (clock s) in
      exists s',
        updateRule id updates s = (Returned (Some updated), s') /\
        getRule s' id = Some updated /\
        (forall k, k <> id -> getRule s' k = getRule s k) /\
        map fst (rules s') = map fst (rules s) /\
        rule_id updated = default (rule_id rule) (upd_id updates) /\
        rule_createdAt updated = default (rule_createdAt rule) (upd_createdAt updates) /\
        rule_updatedAt updated = clock s /\
        rule_enabled updated = default (rule_enabled rule) (upd_enabled updates) /\
        rule_priority updated = default (rule_priority rule) (upd_priority updates) /\
        transactions s' = transactions s /\ config s' = config s
  end.
Proof.
  unfold getRule, updateRule, bind, get_state.
  destruct (jsmap_get id (rules s)) as [rule|] eqn:Hget; [| done].
  eexists. split; [reflexivity |]. simpl.
  split; [apply jsmap_get_set_eq |].
  split; [intros k Hk; by apply jsmap_get_set_ne |].
  split; [by eapply jsmap_set_keys |]. by repeat split.
Qed.

(** After [setRuleEnabled(id, false)], whether or not the identifier is a
    rule, the rules [evaluateTransaction] goes through are the ones it
    went through before without the rule [id], in the same order, and no
    evaluation reports a result of that rule (every rule being stored
    under its own identifier). *)
Theorem a_disabled_rule_is_not_evaluated id s o s1 :
  rules_keyed_by_id s ->
  setRuleEnabled id false s = (o, s1) ->
  activeRules s1 = filter (fun r => rule_id r <> id) (activeRules s) /\
  rules_keyed_by_id s1 /\
  forall tx ev s2,
    evaluateTransaction uuid_nth regexp_test coerce_number tx s1 = (Returned ev, s2) ->
    Forall (fun res => res_ruleId res <> id) (results ev).
Proof.
  intros [Hnd Hkeyed] Hrun.
  assert (activeRules s1 = filter (fun r => rule_id r <> id) (activeRules s)
          /\ rules_keyed_by_id s1) as [Hactive Hkeyed1].
  { unfold setRuleEnabled, updateRule, bind, get_state in Hrun.
    destruct (jsmap_get id (rules s)) as [rule|] eqn:Hget.
    - injection Hrun as _ <-. unfold activeRules. simpl. split.
      + rewrite (disabled_in_place id rule) by done.
        by rewrite filter_sort_by_priority.
      + split; simpl; [by apply jsmap_set_NoDup |].
        clear Hnd. induction Hkeyed as [|[k v] m Hk Hkeyed IH]; simpl in *; [done |].
        destruct (String.eqb_spec k id) as [->|Hne].
        * injection Hget as ->. by constructor.
        * constructor; [done | by apply IH].
    - injection Hrun as _ <-. split; [| by split].
      symmetry. apply filter_all. apply Forall_forall. intros r Hr.
      unfold activeRules in Hr. rewrite sort_by_priority_perm in Hr.
      apply list_elem_of_filter in Hr as [_ Hr].
      pose proof (keyed_values_other id (rules s) Hkeyed
                    (proj1 (jsmap_get_None id (rules s)) Hget)) as Hall.
      rewrite Forall_forall in Hall. by apply Hall. }
  split; [done |]. split; [done |].
  intros tx ev s2 Hev. unfold evaluateTransaction, bind, get_state in Hev.
  apply (evaluate_loop_verdict uuid_nth regexp_test coerce_number) in Hev
    as (visited & new & Hpre & Hall & Hr & _).
  simpl in Hr. subst new.
  assert (Forall (fun r => rule_id r <> id) visited) as Hvisited.
  { apply Forall_forall. intros r Hr. destruct Hpre as [after Hafter].
    assert (r ∈ activeRules s1) as Hin by (rewrite Hafter; apply elem_of_app; by left).
    rewrite Hactive in Hin. by apply list_elem_of_filter in Hin as [? _]. }
  clear Hpre. induction Hall as [|rule res visited rs Hres _ IH]; [constructor |].
  apply Forall_cons in Hvisited as [Hrule Hvisited].
  constructor; [| by apply IH].
  unfold evaluateRule in Hres. destruct (evaluateCondition _ _ _ _); [| done].
  by injection Hres as <-.
Qed.

(** [getAllRules()] lists every stored rule once, in ascending priority,
    rules of equal priority in the order of the store; the rules
    [evaluateTransaction] goes through are its enabled ones, in the same
    order. *)
Theorem getAllRules_order s :
  getAllRules s ≡ₚ jsmap_values (rules s) /\
  StronglySorted (fun a b => rule_priority a <= rule_priority b) (getAllRules s) /\
  (forall p,
     filter (fun r => rule_priority r = p) (getAllRules s)
     = filter (fun r => rule_priority r = p) (jsmap_values (rules s))) /\
  activeRules s = filter (fun r => rule_enabled r = true) (getAllRules s).
Proof.
  unfold getAllRules, activeRules.
  split; [apply sort_by_priority_perm |]. split; [apply sort_by_priority_sorted |].
  split; [intros p; apply sort_by_priority_stable |].
  by rewrite filter_sort_by_priority.
Qed.

(** [addRule] stores the new rule under the identifier it draws and returns
    it: it is found by [getRule], every other rule is as it was, and when
    the identifier was not in use the rule comes last in the store.
    [deleteRule] answers whether the identifier was a rule; afterwards it
    is not one, and every other rule is as it was.  Deleting the rule just
    added gives back the store as it was.  (The store holds no key
    twice.) *)
Theorem adding_and_deleting_rules template id s :
  NoDup (map fst (rules s)) ->
  (exists s1,
     let rule := instantiate template (uuid_nth (uuid_count s)) (clock s) in
     addRule uuid_nth template s = (Returned rule, s1) /\
     getRule s1 (rule_id rule) = Some rule /\
     (forall k, k <> rule_id rule -> getRule s1 k = getRule s k) /\
     NoDup (map fst (rules s1)) /\
     (getRule s (rule_id rule) = None ->
      jsmap_values (rules s1) = (jsmap_values (rules s) ++ [rule])%list /\
      exists s2, deleteRule (rule_id rule) s1 = (Returned true, s2) /\ rules s2 = rules s)) /\
  (exists s',
     deleteRule id s = (Returned (bool_decide (is_Some (getRule s id))), s') /\
     getRule s' id = None /\
     (forall k, k <> id -> getRule s' k = getRule s k) /\
     NoDup (map fst (rules s')) /\
     (getRule s id = None -> s' = s)).
Proof.
  intros Hnd. split.
  - eexists. unfold addRule, bind, uuidv4, new_Date, modify, ret, getRule. simpl.
    split; [reflexivity |]. simpl.
    split; [apply jsmap_get_set_eq |].
    split; [intros k Hk; by apply jsmap_get_set_ne |].
    split; [by apply jsmap_set_NoDup |].
    intros Hfresh. split.
    + rewrite (jsmap_set_new _ _ _ Hfresh). unfold jsmap_values. by rewrite map_app.
    + unfold deleteRule, bind, get_state. simpl. rewrite jsmap_get_set_eq.
      eexists. split; [reflexivity |]. simpl. by apply jsmap_delete_set_new.
  - unfold deleteRule, bind, get_state, getRule.
    destruct (jsmap_get id (rules s)) as [rule|] eqn:Hget.
    + eexists. split; [reflexivity |]. simpl.
      split; [by apply jsmap_get_delete_eq |].
      split; [intros k Hk; by apply jsmap_get_delete_ne |].
      split; [by apply jsmap_delete_NoDup | done].
    + exists s. by repeat split.
Qed.

(** [resetToDefaults] discards whatever rules were stored: afterwards the
    store holds the four default rules under the four identifiers just
    drawn (taken to be distinct), and [getAllRules] lists Very High Amount
    Block, Minimum Amount, High Amount Threshold and Supported Currencies,
    in this order, all enabled. *)
Theorem resetToDefaults_restores_the_defaults s :
  NoDup [uuid_nth (uuid_count s); uuid_nth (S (uuid_count s));
         uuid_nth (S (S (uuid_count s))); uuid_nth (S (S (S (uuid_count s))))] ->
  let s' := snd (resetToDefaults uuid_nth s) in
  fst (resetToDefaults uuid_nth s) = Returned tt /\
  map fst (rules s') =
    [uuid_nth (uuid_count s); uuid_nth (S (uuid_count s));
     uuid_nth (S (S (uuid_count s))); uuid_nth (S (S (S (uuid_count s))))] /\
  map rule_name (getAllRules s') =
    ["Very High Amount Block"; "Minimum Amount"; "High Amount Threshold";
     "Supported Currencies"] /\
  map rule_priority (getAllRules s') = [0; 0; 1; 2] /\
  map rule_action (getAllRules s') = [DENY; DENY; FLAG; ALLOW] /\
  Forall (fun r => rule_enabled r = true) (getAllRules s') /\
  rules_keyed_by_id s' /\
  config s' = config s /\ transactions s' = transactions s.
Proof.
  intros Hnd s'. subst s'. pose proof Hnd as Hnd'.
  apply NoDup_cons in Hnd as [H0 Hnd]. apply NoDup_cons in Hnd as [H1 Hnd].
  apply NoDup_cons in Hnd as [H2 _].
  apply not_elem_of_cons in H0 as [H01 H0]. apply not_elem_of_cons in H0 as [H02 H0].
  apply not_elem_of_cons in H0 as [H03 _].
  apply not_elem_of_cons in H1 as [H12 H1]. apply not_elem_of_cons in H1 as [H13 _].
  apply not_elem_of_cons in H2 as [H23 _].
  unfold resetToDefaults, initializeDefaultRules, DEFAULT_RULES, getAllRules,
    rules_keyed_by_id.
  unfold initialize_from, bind, modify, uuidv4, new_Date, ret. simpl.
  repeat (rewrite (proj2 (String.eqb_neq _ _)) by done; simpl).
  split; [done |]. split; [done |]. split; [done |]. split; [done |]. split; [done |].
  split; [by repeat constructor |]. split; [| done].
  split; [exact Hnd' | by repeat constructor].
Qed.

End RuleStoreFacts.

(** *** The count of identifiers drawn *)

Lemma grows_ret {A} (a : A) : grows (ret a).
Proof. intros s. simpl. split; [lia | reflexivity]. Qed.

Lemma grows_throw {A} (e : string) : grows (@throw A e).
Proof. intros s. simpl. split; [lia | reflexivity]. Qed.

Lemma grows_get_state : grows get_state.
Proof. intros s. simpl. split; [lia | reflexivity]. Qed.

Lemma grows_new_Date : grows new_Date.
Proof. intros s. simpl. split; [lia | reflexivity]. Qed.

Lemma grows_uuidv4 uuid_nth : grows (uuidv4 uuid_nth).
Proof. intros s. simpl. split; [lia | reflexivity]. Qed.

Lemma grows_modify (f : State -> State) :
  (forall s, uuid_count (f s) = uuid_count s /\ maxBatchSize (f s) = maxBatchSize s) ->
  grows (modify f).
Proof. intros Hf s. simpl. destruct (Hf s) as [-> ->]. split; [lia | reflexivity]. Qed.

Lemma grows_bind {A B} (m : M A) (k : A -> M B) :
  grows m -> (forall a, grows (k a)) -> grows (bind m k).
Proof.
  intros Hm Hk s. unfold bind. specialize (Hm s).
  destruct (m s) as [[a|e] s1]; simpl in Hm |- *; [| done].
  destruct Hm as [Hcount Hsize], (Hk a s1) as [Hcount' Hsize'].
  split; [lia | congruence].
Qed.

Ltac grows_step :=
  first
    [ apply grows_ret | apply grows_throw | apply grows_get_state | apply grows_new_Date
    | apply grows_uuidv4 | apply grows_modify; intros ?; split; reflexivity
    | apply grows_bind; [| intros ?]
    | assumption
    | match goal with
      | |- grows (match ?x with _ => _ end) => destruct x
      | |- grows (let _ := _ in _) => cbv zeta
      end ].

Section Growth.
Variable uuid_nth : nat -> string.
Variable regexp_test : JsValue -> string -> option bool.
Variable coerce_number : JsValue -> float.

Lemma grows_logError severity category code message transactionId :
  grows (logError uuid_nth severity category code message transactionId).
Proof. unfold logError. repeat grows_step. Qed.

Lemma grows_updateStatus id newStatus triggeredBy reason :
  grows (updateStatus uuid_nth id newStatus triggeredBy reason).
Proof.
  pose proof grows_logError as Hlog.
  unfold updateStatus. repeat grows_step.
Qed.

Lemma grows_stored id : grows (stored id).
Proof. unfold stored. repeat grows_step. Qed.

Lemma grows_evaluate_loop tx rules acc :
  grows (evaluate_loop uuid_nth regexp_test coerce_number tx rules acc).
Proof.
  revert acc. induction rules as [|rule rest IH]; intros acc; simpl; [apply grows_ret |].
  pose proof grows_logError as Hlog. unfold logRuleViolation.
  repeat first [ apply IH | apply Hlog | grows_step ].
Qed.

Lemma grows_evaluateTransaction tx :
  grows (evaluateTransaction uuid_nth regexp_test coerce_number tx).
Proof.
  unfold evaluateTransaction. apply grows_bind; [apply grows_get_state |].
  intros s. apply grows_evaluate_loop.
Qed.

Lemma grows_processTransaction random id :
  grows (processTransaction uuid_nth regexp_test coerce_number random id).
Proof.
  unfold processTransaction, logProcessingError, simulateProcessing.
  repeat first
    [ apply grows_logError | apply grows_updateStatus | apply grows_stored
    | apply grows_evaluateTransaction | grows_step ].
Qed.

Lemma grows_createTransaction request :
  grows (createTransaction uuid_nth request).
Proof.
  unfold createTransaction, logValidationError.
  repeat first [ apply grows_logError | grows_step ].
Qed.

Lemma grows_retryTransaction random id :
  grows (retryTransaction uuid_nth regexp_test coerce_number random id).
Proof.
  unfold retryTransaction.
  repeat first [ apply grows_updateStatus | apply grows_processTransaction | grows_step ].
Qed.

Lemma grows_cancelTransaction id reason :
  grows (cancelTransaction uuid_nth id reason).
Proof. unfold cancelTransaction. repeat first [ apply grows_updateStatus | grows_step ]. Qed.

Lemma grows_refundTransaction id reason :
  grows (refundTransaction uuid_nth id reason).
Proof. unfold refundTransaction. repeat first [ apply grows_updateStatus | grows_step ]. Qed.

Lemma grows_run op s :
  (uuid_count s <= uuid_count (run uuid_nth regexp_test coerce_number op s))%nat.
Proof.
  destruct op; simpl.
  - apply (grows_createTransaction request s).
  - apply (grows_updateStatus transactionId newStatus triggeredBy reason s).
  - apply (grows_processTransaction random transactionId s).
  - apply (grows_retryTransaction random transactionId s).
  - apply (grows_cancelTransaction transactionId reason s).
  - apply (grows_refundTransaction transactionId reason s).
Qed.

End Growth.

(** *** [TransactionService]: one transaction at a time *)

Lemma untouched_refl id s : untouched id s s.
Proof. by split. Qed.

Lemma untouched_trans id s1 s2 s3 :
  untouched id s1 s2 -> untouched id s2 s3 -> untouched id s1 s3.
Proof. intros [? ?] [? ?]. split; congruence. Qed.

Lemma frame_untouched id s s' : frame s s' -> untouched id s s'.
Proof. intros (Ht & Hh & _). split; congruence. Qed.

Lemma moved_untouched id id' newStatus triggeredBy reason tx s :
  id <> id' -> untouched id s (moved id' newStatus triggeredBy reason tx s).
Proof. intros Hne. split; simpl; by rewrite lookup_insert_ne. Qed.

Lemma insert_untouched id id' tx s :
  id <> id' -> untouched id s (with_transactions (insert id' tx) s).
Proof. intros Hne. split; simpl; [by rewrite lookup_insert_ne | done]. Qed.

Section Isolation.
Variable uuid_nth : nat -> string.
Variable regexp_test : JsValue -> string -> option bool.
Variable coerce_number : JsValue -> float.

Lemma updateStatus_untouched id id' newStatus triggeredBy reason s :
  id <> id' ->
  untouched id s (snd (updateStatus uuid_nth id' newStatus triggeredBy reason s)).
Proof.
  intros Hne. destruct (transactions s !! id') as [tx|] eqn:Htx.
  - destruct (In_dec_status newStatus (VALID_STATUS_TRANSITIONS (tx_status tx))) as [Hin|Hin].
    + rewrite (updateStatus_moved uuid_nth _ _ _ _ _ tx) by done.
      by apply moved_untouched.
    + destruct (updateStatus_rejects uuid_nth id' newStatus triggeredBy reason s tx Htx Hin)
        as (s' & -> & Hf). by apply frame_untouched.
  - rewrite updateStatus_missing by done. apply untouched_refl.
Qed.

(** What [updateStatus] leaves under the identifier it is given, when the
    table does not let the transaction move. *)
Lemma updateStatus_stays id newStatus triggeredBy reason s tx :
  transactions s !! id = Some tx ->
  ~ In newStatus (VALID_STATUS_TRANSITIONS (tx_status tx)) ->
  untouched id s (snd (updateStatus uuid_nth id newStatus triggeredBy reason s)).
Proof.
  intros Htx Hin.
  destruct (updateStatus_rejects uuid_nth id newStatus triggeredBy reason s tx Htx Hin)
    as (s' & -> & Hf). by apply frame_untouched.
Qed.

Lemma processTransaction_untouched id id' random s :
  id <> id' ->
  untouched id s
    (snd (processTransaction uuid_nth regexp_test coerce_number random id' s)).
Proof.
  intros Hne. destruct (transactions s !! id') as [tx|] eqn:Htx.
  2:{ destruct (processTransaction_missing uuid_nth regexp_test coerce_number random id' s Htx)
        as (entry & -> & _). by split. }
  destruct (decide (tx_status tx = PENDING)) as [Hst|Hst].
  2:{ destruct (processTransaction_not_pending uuid_nth regexp_test coerce_number random
                  id' s tx Htx Hst) as (s1 & -> & Hf). by apply frame_untouched. }
  destruct (evaluateTransaction uuid_nth regexp_test coerce_number
              (tx_set_status VALIDATING (clock s) tx)
              (moved id' VALIDATING "system" (Some "Starting validation") tx s))
    as [o s2] eqn:Hev.
  pose proof (evaluateTransaction_frame uuid_nth regexp_test coerce_number
                (tx_set_status VALIDATING (clock s) tx)
                (moved id' VALIDATING "system" (Some "Starting validation") tx s)) as Hf.
  rewrite Hev in Hf. simpl in Hf.
  assert (untouched id s s2) as H2.
  { eapply untouched_trans; [by apply moved_untouched | by apply frame_untouched]. }
  rewrite (processTransaction_pending uuid_nth regexp_test coerce_number random id' s tx o s2
             Htx Hst Hev).
  destruct o as [evaluation|e]; [| done]. cbv zeta.
  destruct (allowed evaluation); [destruct (PrimFloat.ltb _ random) |];
    (eapply untouched_trans; [exact H2 |]);
    split; simpl; by rewrite !lookup_insert_ne.
Qed.

Lemma retryTransaction_untouched id id' random s :
  id <> id' ->
  untouched id s
    (snd (retryTransaction uuid_nth regexp_test coerce_number random id' s)).
Proof.
  intros Hne. unfold retryTransaction. unfold bind at 1, get_state.
  destruct (transactions s !! id') as [tx|] eqn:Htx; [| apply untouched_refl].
  destruct (negb _); [apply untouched_refl |].
  destruct (_ <=? _)%nat; [apply untouched_refl |].
  unfold bind at 1, modify. unfold bind at 1.
  pose proof (updateStatus_untouched id id' PENDING "retry-system" (Some "Retry initiated")
                (with_transactions <[id':=tx_begin_retry tx]> s) Hne) as H1.
  destruct (updateStatus uuid_nth id' PENDING "retry-system" (Some "Retry initiated")
              (with_transactions <[id':=tx_begin_retry tx]> s)) as [[tx1|e1] s1]; simpl in *.
  - eapply untouched_trans; [by apply insert_untouched |].
    eapply untouched_trans; [exact H1 |]. by apply processTransaction_untouched.
  - eapply untouched_trans; [by apply insert_untouched | exact H1].
Qed.

Lemma createTransaction_untouched id request s :
  id <> uuid_nth (uuid_count s) ->
  untouched id s (snd (createTransaction uuid_nth request s)).
Proof.
  intros Hne. unfold createTransaction.
  destruct (_ || _); [by split |].
  destruct (String.eqb (req_currency request) EmptyString); [by split |].
  destruct (String.eqb (req_sourceAccount request) EmptyString); [by split |].
  split; simpl; by rewrite lookup_insert_ne.
Qed.

Lemma cancelTransaction_untouched id id' reason s :
  id <> id' -> untouched id s (snd (cancelTransaction uuid_nth id' reason s)).
Proof.
  intros Hne. unfold cancelTransaction. unfold bind at 1, get_state.
  destruct (transactions s !! id'); [| apply untouched_refl].
  destruct (bool_decide _); [apply untouched_refl |].
  destruct (bool_decide _); [apply untouched_refl |].
  by apply updateStatus_untouched.
Qed.

Lemma refundTransaction_untouched id id' reason s :
  id <> id' -> untouched id s (snd (refundTransaction uuid_nth id' reason s)).
Proof.
  intros Hne. unfold refundTransaction. unfold bind at 1, get_state.
  destruct (transactions s !! id'); [| apply untouched_refl].
  destruct (negb _); [apply untouched_refl |].
  by apply updateStatus_untouched.
Qed.

(** An operation writes under the identifier it is aimed at and nowhere
    else: creating, moving, processing, retrying, cancelling or refunding
    one transaction leaves every other stored transaction and its history
    exactly as they were, whether the operation returns or throws. *)
Theorem operations_touch_one_transaction op id s :
  id <> target uuid_nth op s ->
  untouched id s (run uuid_nth regexp_test coerce_number op s).
Proof.
  intros Hne. destruct op; simpl in *.
  - by apply createTransaction_untouched.
  - by apply updateStatus_untouched.
  - by apply processTransaction_untouched.
  - by apply retryTransaction_untouched.
  - by apply cancelTransaction_untouched.
  - by apply refundTransaction_untouched.
Qed.

Lemma run_terminal op id s tx :
  transactions s !! id = Some tx ->
  tx_status tx = CANCELLED \/ tx_status tx = REFUNDED ->
  uuid_nth (uuid_count s) <> id ->
  untouched id s (run uuid_nth regexp_test coerce_number op s).
Proof.
  intros Htx Hst Hfresh.
  assert (forall st, ~ In st (VALID_STATUS_TRANSITIONS (tx_status tx))) as Hfinal.
  { intros st. destruct Hst as [Hs | Hs]; rewrite Hs; simpl; tauto. }
  destruct (decide (id = target uuid_nth op s)) as [Heq|Hne].
  2:{ destruct op; simpl in *.
      - by apply createTransaction_untouched.
      - by apply updateStatus_untouched.
      - by apply processTransaction_untouched.
      - by apply retryTransaction_untouched.
      - by apply cancelTransaction_untouched.
      - by apply refundTransaction_untouched. }
  destruct op; simpl in *; subst.
  - by destruct Hfresh.
  - by eapply updateStatus_stays.
  - assert (tx_status tx <> PENDING) as Hnp by (destruct Hst as [-> | ->]; done).
    destruct (processTransaction_not_pending uuid_nth regexp_test coerce_number random
                transactionId s tx Htx Hnp) as (s1 & -> & Hf). by apply frame_untouched.
  - unfold retryTransaction, bind, get_state. rewrite Htx.
    destruct Hst as [-> | ->]; apply untouched_refl.
  - unfold cancelTransaction. unfold bind at 1, get_state. rewrite Htx.
    destruct Hst as [Hc | Hr].
    + rewrite Hc. apply untouched_refl.
    + rewrite Hr. simpl. by eapply updateStatus_stays.
  - unfold refundTransaction, bind, get_state. rewrite Htx.
    destruct Hst as [-> | ->]; apply untouched_refl.
Qed.

(** CANCELLED and REFUNDED are final.  Whatever operations follow, in any
    number, a transaction in one of these statuses stays stored exactly as
    it is, with the history it has (the identifier generator being taken
    not to hand out the identifier of this transaction again). *)
Theorem cancelled_and_refunded_are_final ops id s tx :
  transactions s !! id = Some tx ->
  tx_status tx = CANCELLED \/ tx_status tx = REFUNDED ->
  (forall n, (uuid_count s <= n)%nat -> uuid_nth n <> id) ->
  transactions (run_all uuid_nth regexp_test coerce_number ops s) !! id = Some tx /\
  getStatusHistory (run_all uuid_nth regexp_test coerce_number ops s) id
    = getStatusHistory s id.
Proof.
  intros Htx Hst Hfresh.
  assert (untouched id s (run_all uuid_nth regexp_test coerce_number ops s)) as [Ht Hh].
  { revert s Htx Hfresh.
    induction ops as [|op ops IH]; intros s Htx Hfresh; [apply untouched_refl |].
    simpl.
    pose proof (run_terminal op id s tx Htx Hst (Hfresh _ (Nat.le_refl _))) as H1.
    eapply untouched_trans; [exact H1 |]. apply IH.
    - destruct H1 as [H1 _]. by rewrite H1.
    - intros n Hn. apply Hfresh.
      pose proof (grows_run uuid_nth regexp_test coerce_number op s). lia. }
  split; [by rewrite Ht |]. unfold getStatusHistory. by rewrite Hh.
Qed.

End Isolation.

(** *** [TransactionService]: retrying, cancelling, refunding *)

Section RetryCancelRefund.
Variable uuid_nth : nat -> string.
Variable regexp_test : JsValue -> string -> option bool.
Variable coerce_number : JsValue -> float.

Lemma moved_history id newStatus triggeredBy reason tx s :
  getStatusHistory (moved id newStatus triggeredBy reason tx s) id
  = (getStatusHistory s id ++
       [mkTransition id (tx_status tx) newStatus (clock s) reason triggeredBy])%list.
Proof. unfold getStatusHistory at 1, moved. simpl. by rewrite lookup_insert_eq. Qed.

(** [retryTransaction] on a FAILED transaction that has retries left:
    whether the call returns or throws, the retry counter of the stored
    transaction has gone up by one, and its history has gained FAILED to
    PENDING, triggered by the retry system, before the transitions of the
    processing that follows.  When the call returns, it returns the stored
    transaction, which is COMPLETED or FAILED again; a completed one
    carries no error code or message. *)
Theorem a_retry_spends_one_attempt random id s tx :
  transactions s !! id = Some tx ->
  tx_status tx = FAILED ->
  (tx_retryCount tx < tx_maxRetries tx)%nat ->
  exists o s' tx' added,
    retryTransaction uuid_nth regexp_test coerce_number random id s = (o, s') /\
    transactions s' !! id = Some tx' /\
    tx_retryCount tx' = S (tx_retryCount tx) /\
    tx_maxRetries tx' = tx_maxRetries tx /\
    getStatusHistory s' id =
      (getStatusHistory s id ++
         mkTransition id FAILED PENDING (clock s) (Some "Retry initiated") "retry-system"
           :: added)%list /\
    (forall returned, o = Returned returned ->
       returned = tx' /\
       (tx_status tx' = COMPLETED \/ tx_status tx' = FAILED) /\
       (tx_status tx' = COMPLETED ->
        tx_errorCode tx' = None /\ tx_errorMessage tx' = None)).
Proof.
  intros Htx Hst Hlt.
  unfold retryTransaction. unfold bind at 1, get_state. rewrite Htx, Hst. simpl.
  rewrite (proj2 (Nat.leb_gt _ _) Hlt).
  unfold bind at 1, modify. unfold bind at 1.
  set (s0 := with_transactions <[id:=tx_begin_retry tx]> s).
  assert (transactions s0 !! id = Some (tx_begin_retry tx)) as Htx0
    by (simpl; apply lookup_insert_eq).
  rewrite (updateStatus_moved uuid_nth _ _ _ _ _ _ Htx0) by (simpl; rewrite Hst; simpl; auto).
  set (tx1 := tx_set_status PENDING (clock s0) (tx_begin_retry tx)).
  set (s1 := moved id PENDING "retry-system" (Some "Retry initiated") (tx_begin_retry tx) s0).
  assert (transactions s1 !! id = Some tx1) as Htx1 by apply moved_lookup.
  assert (getStatusHistory s1 id =
            (getStatusHistory s id ++
               [mkTransition id FAILED PENDING (clock s) (Some "Retry initiated")
                  "retry-system"])%list) as Hh1.
  { unfold s1. rewrite moved_history. simpl. by rewrite Hst. }
  destruct (evaluateTransaction uuid_nth regexp_test coerce_number
              (tx_set_status VALIDATING (clock s1) tx1)
              (moved id VALIDATING "system" (Some "Starting validation") tx1 s1))
    as [o s2] eqn:Hev.
  pose proof (evaluateTransaction_frame uuid_nth regexp_test coerce_number
                (tx_set_status VALIDATING (clock s1) tx1)
                (moved id VALIDATING "system" (Some "Starting validation") tx1 s1)) as Hf.
  rewrite Hev in Hf. simpl in Hf. destruct Hf as (Ht2 & Hh2 & _).
  assert (getStatusHistory s2 id =
            (getStatusHistory s1 id ++
               [mkTransition id PENDING VALIDATING (clock s1) (Some "Starting validation")
                  "system"])%list) as Hh2'.
  { unfold getStatusHistory at 1. rewrite Hh2. apply moved_history. }
  rewrite (processTransaction_pending uuid_nth regexp_test coerce_number random id s1 tx1 o s2
             Htx1 eq_refl Hev).
  destruct o as [evaluation|e].
  2:{ eexists _, _, _, _. split; [reflexivity |].
      split; [rewrite Ht2; apply moved_lookup |].
      split; [reflexivity |]. split; [reflexivity |].
      split; [rewrite Hh2', Hh1, <- app_assoc; reflexivity | done]. }
  cbv zeta. destruct (allowed evaluation); [destruct (PrimFloat.ltb _ random) |].
  - eexists _, _, _, _. split; [reflexivity |].
    split; [simpl; apply lookup_insert_eq |].
    split; [reflexivity |]. split; [reflexivity |]. split.
    + unfold getStatusHistory at 1. simpl. rewrite lookup_insert_eq. simpl.
      unfold getStatusHistory at 1. simpl. rewrite lookup_insert_eq. simpl.
      rewrite Hh2', Hh1, <- !app_assoc. reflexivity.
    + intros returned [= <-]. split; [done |]. split; [by left | done].
  - eexists _, _, _, _. split; [reflexivity |].
    split; [simpl; apply lookup_insert_eq |].
    split; [reflexivity |]. split; [reflexivity |]. split.
    + unfold getStatusHistory at 1. simpl. rewrite lookup_insert_eq. simpl.
      unfold getStatusHistory at 1. simpl. rewrite lookup_insert_eq. simpl.
      rewrite Hh2', Hh1, <- !app_assoc. reflexivity.
    + intros returned [= <-]. split; [done |]. split; [by right | done].
  - eexists _, _, _, _. split; [reflexivity |].
    split; [simpl; apply lookup_insert_eq |].
    split; [reflexivity |]. split; [reflexivity |]. split.
    + unfold getStatusHistory at 1. simpl. rewrite lookup_insert_eq. simpl.
      rewrite Hh2', Hh1, <- !app_assoc. reflexivity.
    + intros returned [= <-]. split; [done |]. split; [by right | done].
Qed.

(** [cancelTransaction] succeeds from PENDING and from VALIDATING: the
    transaction is stored as CANCELLED and its history gains that
    transition, triggered by the user, with the reason given or, when none
    or an empty one is given, "Cancelled by user".  From PROCESSING, FAILED
    and REFUNDED it is the transition table that refuses: the call throws
    the invalid-transition error towards CANCELLED and changes nothing.
    [refundTransaction] moves a COMPLETED transaction to REFUNDED in the
    same way, the default reason being "Refunded by user". *)
Theorem cancelling_and_refunding id reason s tx :
  transactions s !! id = Some tx ->
  let given (fallback : string) :=
    match reason with
    | Some text => if String.eqb text EmptyString then fallback else text
    | None => fallback
    end in
  let moves (call : M Transaction) (status : TransactionStatus) (fallback : string) :=
    exists s',
      call s = (Returned (tx_set_status status (clock s) tx), s') /\
      transactions s' = <[id := tx_set_status status (clock s) tx]> (transactions s) /\
      getStatusHistory s' id =
        (getStatusHistory s id ++
           [mkTransition id (tx_status tx) status (clock s) (Some (given fallback)) "user"])%list
      /\ errorLogs s' = errorLogs s in
  (tx_status tx = PENDING \/ tx_status tx = VALIDATING ->
   moves (cancelTransaction uuid_nth id reason) CANCELLED "Cancelled by user") /\
  (tx_status tx = PROCESSING \/ tx_status tx = FAILED \/ tx_status tx = REFUNDED ->
   exists s',
     cancelTransaction uuid_nth id reason s
       = (Thrown ("Invalid status transition from " +:+ status_name (tx_status tx)
                    +:+ " to CANCELLED"), s') /\
     transactions s' = transactions s /\ statusHistory s' = statusHistory s) /\
  (tx_status tx = COMPLETED ->
   moves (refundTransaction uuid_nth id reason) REFUNDED "Refunded by user").
Proof.
  intros Htx given moves. subst moves. cbv beta. split; [| split].
  - intros Hst. unfold cancelTransaction. unfold bind at 1, get_state. rewrite Htx.
    rewrite !bool_decide_eq_false_2 by (destruct Hst as [-> | ->]; done).
    rewrite (updateStatus_moved uuid_nth _ _ _ _ _ tx Htx)
      by (destruct Hst as [-> | ->]; simpl; auto).
    eexists. split; [reflexivity |]. split; [reflexivity |].
    split; [apply moved_history | reflexivity].
  - intros Hst. unfold cancelTransaction. unfold bind at 1, get_state. rewrite Htx.
    rewrite !bool_decide_eq_false_2 by (destruct Hst as [-> | [-> | ->]]; done).
    destruct (updateStatus_rejects uuid_nth id CANCELLED "user"
                (Some (or_string reason "Cancelled by user")) s tx Htx)
      as (s' & Hrun & Ht & Hh & _).
    { destruct Hst as [-> | [-> | ->]]; simpl; intuition congruence. }
    exists s'. by repeat split.
  - intros Hst. unfold refundTransaction. unfold bind at 1, get_state. rewrite Htx.
    rewrite Hst. simpl.
    rewrite (updateStatus_moved uuid_nth _ _ _ _ _ tx Htx) by (rewrite Hst; simpl; auto).
    eexists. split; [reflexivity |]. split; [reflexivity |].
    split; [rewrite moved_history; by rewrite Hst | reflexivity].
Qed.

End RetryCancelRefund.

(** *** Newest first *)

Section NewestFirstFacts.
Context {A : Type} (time : A -> Z).

Lemma insert_newest_perm x l : insert_newest time x l ≡ₚ x :: l.
Proof.
  induction l as [|y l IH]; simpl; [done |].
  destruct (time y <=? time x); [done |].
  rewrite IH. apply Permutation_swap.
Qed.

Lemma sort_newest_first_perm l : sort_newest_first time l ≡ₚ l.
Proof.
  induction l as [|x l IH]; simpl; [done |].
  by rewrite insert_newest_perm, IH.
Qed.

Lemma insert_newest_sorted x l :
  StronglySorted (fun a b => time b <= time a) l ->
  StronglySorted (fun a b => time b <= time a) (insert_newest time x l).
Proof.
  induction 1 as [|y l Hs IH Hy]; simpl.
  - repeat constructor.
  - destruct (Z.leb_spec (time y) (time x)) as [Hle|Hlt].
    + constructor; [by constructor |]. constructor; [done |].
      eapply Forall_impl; [exact Hy |]. simpl. intros; lia.
    + constructor; [done |].
      rewrite insert_newest_perm. constructor; [lia | done].
Qed.

Lemma sort_newest_first_sorted l :
  StronglySorted (fun a b => time b <= time a) (sort_newest_first time l).
Proof.
  induction l as [|x l IH]; simpl; [constructor |].
  by apply insert_newest_sorted.
Qed.

Lemma insert_newest_stable t x l :
  filter (fun y => time y = t) (insert_newest time x l)
  = filter (fun y => time y = t) (x :: l).
Proof.
  induction l as [|y l IH]; simpl; [done |].
  destruct (Z.leb_spec (time y) (time x)) as [Hle|Hlt]; [done |].
  rewrite (filter_cons _ y), IH, !(filter_cons _ x), !(filter_cons _ y).
  repeat case_decide; try done. lia.
Qed.

Lemma sort_newest_first_stable t l :
  filter (fun y => time y = t) (sort_newest_first time l)
  = filter (fun y => time y = t) l.
Proof.
  induction l as [|x l IH]; simpl; [done |].
  rewrite insert_newest_stable, !(filter_cons _ x), IH. done.
Qed.

Lemma filter_sorted (f : A -> bool) l :
  StronglySorted (fun a b => time b <= time a) l ->
  StronglySorted (fun a b => time b <= time a) (List.filter f l).
Proof.
  induction 1 as [|x l Hs IH Hx]; simpl; [constructor |].
  destruct (f x); [| done]. constructor; [done |].
  apply Forall_forall. intros y Hy. apply list_elem_of_In, filter_In in Hy as [Hy _].
  rewrite Forall_forall in Hx. apply Hx. by apply list_elem_of_In.
Qed.

End NewestFirstFacts.

(** *** The values of a store, in insertion order *)

Section ValuesIn.
Context {V : Type}.
Implicit Types (m : gmap string V) (order : list string).

Lemma elem_of_values_in order m v :
  insertion_order order m -> v ∈ values_in order m <-> exists k, m !! k = Some v.
Proof.
  intros [_ Hkeys]. unfold values_in. rewrite list_elem_of_omap. split.
  - intros (k & _ & Hk). by exists k.
  - intros (k & Hk). exists k. split; [| done]. apply Hkeys. by eexists.
Qed.

Lemma length_values_in order m :
  insertion_order order m -> length (values_in order m) = size m.
Proof.
  intros [Hnd Hkeys].
  assert (length (values_in order m) = length order) as ->.
  { unfold values_in. clear Hnd.
    assert (forall k, k ∈ order -> is_Some (m !! k)) as Hall by (intros; by apply Hkeys).
    clear Hkeys. induction order as [|k order IH]; [done |].
    simpl. destruct (Hall k ltac:(left)) as [v ->]. simpl. f_equal.
    apply IH. intros k' Hk'. apply Hall. by right. }
  assert (order ≡ₚ (map_to_list m).*1) as ->.
  { apply NoDup_Permutation; [done | apply NoDup_fst_map_to_list |].
    intros k. rewrite Hkeys, list_elem_of_fmap. split.
    - intros [v Hv]. exists (k, v). split; [done |]. by apply elem_of_map_to_list.
    - intros ([k' v] & -> & Hv). apply elem_of_map_to_list in Hv. by eexists. }
  by rewrite length_fmap, length_map_to_list.
Qed.

End ValuesIn.

(** *** The queries of the transaction service *)

Lemma count_by_status (l : list Transaction) :
  (length (List.filter (fun t => bool_decide (tx_status t = PENDING)) l) +
   length (List.filter (fun t => bool_decide (tx_status t = VALIDATING)) l) +
   length (List.filter (fun t => bool_decide (tx_status t = PROCESSING)) l) +
   length (List.filter (fun t => bool_decide (tx_status t = COMPLETED)) l) +
   length (List.filter (fun t => bool_decide (tx_status t = FAILED)) l) +
   length (List.filter (fun t => bool_decide (tx_status t = CANCELLED)) l) +
   length (List.filter (fun t => bool_decide (tx_status t = REFUNDED)) l))%nat
  = length l.
Proof.
  induction l as [|t l IH]; [done |].
  simpl. destruct (tx_status t); simpl; lia.
Qed.

Lemma count_by_type (l : list Transaction) :
  (length (List.filter (fun t => bool_decide (tx_type t = PAYMENT)) l) +
   length (List.filter (fun t => bool_decide (tx_type t = TRANSFER)) l) +
   length (List.filter (fun t => bool_decide (tx_type t = WITHDRAWAL)) l) +
   length (List.filter (fun t => bool_decide (tx_type t = DEPOSIT)) l) +
   length (List.filter (fun t => bool_decide (tx_type t = REFUND)) l))%nat
  = length l.
Proof.
  induction l as [|t l IH]; [done |].
  simpl. destruct (tx_type t); simpl; lia.
Qed.

Lemma tally_counts (l : list Transaction) (acc : Tally) :
  (forall status,
     tally_byStatus (fold_left tally_one l acc) status
     = (tally_byStatus acc status
        + length (List.filter (fun t => bool_decide (tx_status t = status)) l))%nat) /\
  (forall type,
     tally_byType (fold_left tally_one l acc) type
     = (tally_byType acc type
        + length (List.filter (fun t => bool_decide (tx_type t = type)) l))%nat).
Proof.
  revert acc. induction l as [|t l IH]; intros acc; simpl.
  - split; intros; lia.
  - destruct (IH (tally_one acc t)) as [Hs Ht]. split.
    + intros status. rewrite Hs. simpl. unfold increment.
      destruct (decide (status = tx_status t)) as [->|Hne].
      * rewrite bool_decide_eq_true_2 by done. simpl. lia.
      * rewrite bool_decide_eq_false_2 by done. lia.
    + intros type. rewrite Ht. simpl. unfold increment.
      destruct (decide (type = tx_type t)) as [->|Hne].
      * rewrite bool_decide_eq_true_2 by done. simpl. lia.
      * rewrite bool_decide_eq_false_2 by done. lia.
Qed.

(** [getAllTransactions()] lists every stored transaction once, the newest
    first, transactions created in the same millisecond in the order they
    were stored.  [getTransactionsByStatus] and [getTransactionsByType]
    return exactly the stored transactions of the status or type asked
    for, in that same order. *)
Theorem transaction_queries order s :
  insertion_order order (transactions s) ->
  length (getAllTransactions order s) = size (transactions s) /\
  (forall t, t ∈ getAllTransactions order s <-> exists id, transactions s !! id = Some t) /\
  StronglySorted (fun a b => tx_createdAt b <= tx_createdAt a) (getAllTransactions order s) /\
  (forall time,
     filter (fun t => tx_createdAt t = time) (getAllTransactions order s)
     = filter (fun t => tx_createdAt t = time) (values_in order (transactions s))) /\
  (forall status,
     StronglySorted (fun a b => tx_createdAt b <= tx_createdAt a)
       (getTransactionsByStatus order status s) /\
     forall t, t ∈ getTransactionsByStatus order status s
               <-> tx_status t = status /\ exists id, transactions s !! id = Some t) /\
  (forall type,
     StronglySorted (fun a b => tx_createdAt b <= tx_createdAt a)
       (getTransactionsByType order type s) /\
     forall t, t ∈ getTransactionsByType order type s
               <-> tx_type t = type /\ exists id, transactions s !! id = Some t).
Proof.
  intros Horder.
  assert (forall t, t ∈ getAllTransactions order s
                    <-> exists id, transactions s !! id = Some t) as Hall.
  { intros t. unfold getAllTransactions. rewrite sort_newest_first_perm.
    by apply elem_of_values_in. }
  split.
  { unfold getAllTransactions.
    rewrite (Permutation_length (sort_newest_first_perm _ _)).
    by apply length_values_in. }
  split; [exact Hall |].
  split; [apply sort_newest_first_sorted |].
  split; [intros time; apply sort_newest_first_stable |].
  split.
  - intros status. split; [apply filter_sorted, sort_newest_first_sorted |].
    intros t. unfold getTransactionsByStatus.
    rewrite list_elem_of_In, filter_In, <- list_elem_of_In, Hall, bool_decide_eq_true. tauto.
  - intros type. split; [apply filter_sorted, sort_newest_first_sorted |].
    intros t. unfold getTransactionsByType.
    rewrite list_elem_of_In, filter_In, <- list_elem_of_In, Hall, bool_decide_eq_true. tauto.
Qed.

(** [getStats()] counts every stored transaction once: [total] is the
    number of stored transactions, each [byStatus] and [byType] count is
    the number of transactions [getTransactionsByStatus] and
    [getTransactionsByType] return, and the seven status counts, as the
    five type counts, add up to [total].  On an empty store the total
    amount and the average are zero: the average is not a division by
    zero. *)
Theorem getStats_counts order s :
  insertion_order order (transactions s) ->
  let stats := getStats order s in
  stats_total stats = size (transactions s) /\
  (forall status,
     stats_byStatus stats status = length (getTransactionsByStatus order status s)) /\
  (forall type, stats_byType stats type = length (getTransactionsByType order type s)) /\
  (stats_byStatus stats PENDING + stats_byStatus stats VALIDATING
   + stats_byStatus stats PROCESSING + stats_byStatus stats COMPLETED
   + stats_byStatus stats FAILED + stats_byStatus stats CANCELLED
   + stats_byStatus stats REFUNDED)%nat = stats_total stats /\
  (stats_byType stats PAYMENT + stats_byType stats TRANSFER + stats_byType stats WITHDRAWAL
   + stats_byType stats DEPOSIT + stats_byType stats REFUND)%nat = stats_total stats /\
  (transactions s = ∅ ->
   stats_total stats = 0%nat /\ stats_totalAmount stats = 0%float /\
   stats_averageAmount stats = 0%float).
Proof.
  intros Horder stats. subst stats. unfold getStats. simpl.
  destruct (tally_counts (getAllTransactions order s)
              (mkTally (fun _ => 0%nat) (fun _ => 0%nat) 0%float)) as [Hs Ht].
  simpl in Hs, Ht.
  assert (length (getAllTransactions order s) = size (transactions s)) as Hlen.
  { unfold getAllTransactions.
    rewrite (Permutation_length (sort_newest_first_perm _ _)).
    by apply length_values_in. }
  split; [exact Hlen |].
  split; [intros status; by rewrite Hs |].
  split; [intros type; by rewrite Ht |].
  split; [rewrite !Hs; apply count_by_status |].
  split; [rewrite !Ht; apply count_by_type |].
  intros Hempty. rewrite Hempty, map_size_empty in Hlen.
  destruct (getAllTransactions order s); [by repeat split | done].
Qed.

(** *** [WebhookService]: the dispatch of an event *)

Lemma dispatch_frame_refl s : dispatch_frame s s.
Proof. by repeat split. Qed.

Lemma dispatch_frame_trans s1 s2 s3 :
  dispatch_frame s1 s2 -> dispatch_frame s2 s3 -> dispatch_frame s1 s3.
Proof.
  unfold dispatch_frame. intros (?&?&?&?&?&?) (?&?&?&?&?&?). repeat split; congruence.
Qed.

Lemma existsb_eqb_elem_of (x : string) l : existsb (String.eqb x) l = true <-> x ∈ l.
Proof.
  rewrite existsb_exists, list_elem_of_In. split.
  - intros (y & Hy & Heq). apply String.eqb_eq in Heq. by subst.
  - intros H. exists x. split; [done | apply String.eqb_refl].
Qed.

Lemma elem_of_active webhooks event w :
  w ∈ getActiveWebhooksForEvent webhooks event <-> subscribed webhooks event w.
Proof.
  unfold getActiveWebhooksForEvent, subscribed.
  rewrite list_elem_of_In, filter_In, <- list_elem_of_In, andb_true_iff, existsb_eqb_elem_of.
  tauto.
Qed.

Section DispatchFacts.
Variable uuid_nth : nat -> string.
Variable JSON_stringify : Envelope -> string.
Variable hmac_sha256_hex : string -> string -> string.
Variable toISOString : Z -> string.
Variable post : Request -> HttpOutcome.
Variable settle : list Webhook -> list Webhook.

(** One first attempt: it returns, and writes one log of this webhook and
    event, at most one timer for the second attempt, and nothing else. *)
Lemma sendWebhook_first webhook event payload s :
  exists s' log,
    sendWebhook uuid_nth JSON_stringify hmac_sha256_hex toISOString post webhook event
      payload 1 s = (Returned tt, s') /\
    dispatch_frame s s' /\
    inMemoryWebhookLogs s' = <[log_id log := log]> (inMemoryWebhookLogs s) /\
    log_webhookId log = wh_id webhook /\ log_event log = event /\
    log_payload log = payload /\ log_attempts log = 1%nat /\
    (timers s' = timers s \/
     timers s' = (timers s ++ [mkTimer 2000 webhook event payload 2])%list).
Proof.
  destruct (post (build_request JSON_stringify hmac_sha256_hex toISOString webhook event
                    payload (clock s))) as [status data|message response] eqn:Hpost.
  - unfold sendWebhook, bind at 1, new_Date. rewrite Hpost.
    unfold bind, uuidv4, new_Date, modify, ret, saveLog. simpl.
    eexists _, (mkWebhookLog _ _ _ _ _ _ _ _ _). split; [reflexivity |].
    split; [by repeat split |]. simpl. split; [reflexivity |]. repeat split; by left.
  - unfold sendWebhook, bind at 1, new_Date. rewrite Hpost.
    unfold bind, uuidv4, new_Date, logError, modify, ret, saveLog, setTimeout. simpl.
    destruct (1 <? wh_maxRetries webhook)%nat; simpl;
      eexists _, (mkWebhookLog _ _ _ _ _ _ _ _ _); (split; [reflexivity |]);
      (split; [by repeat split |]); simpl; (split; [reflexivity |]); repeat split; auto.
Qed.



(** The test of a webhook sends the event [test.ping], which is not one of
    the available events.  When every registered webhook subscribes to
    available events only, as [createWebhook] requests are checked to, the
    test reaches no webhook, the tested one included: nothing is posted,
    logged or scheduled. *)
Theorem a_test_ping_reaches_no_webhook webhooks payload s :
  (forall l, settle l ≡ₚ l) ->
  (forall w event, w ∈ getAllWebhooks webhooks -> event ∈ wh_events w ->
                   event ∈ getAvailableEvents) ->
  getActiveWebhooksForEvent webhooks "test.ping" = [] /\
  triggerEvent uuid_nth JSON_stringify hmac_sha256_hex toISOString post settle webhooks
    "test.ping" payload s = (Returned tt, s).
Proof.
  intros Hsettle Hvalid.
  assert (getActiveWebhooksForEvent webhooks "test.ping" = []) as Hnone.
  { destruct (getActiveWebhooksForEvent webhooks "test.ping") as [|w l] eqn:Hactive; [done |].
    assert (w ∈ getActiveWebhooksForEvent webhooks "test.ping") as Hw
      by (rewrite Hactive; left).
    apply elem_of_active in Hw as (Hin & _ & Hev).
    specialize (Hvalid w "test.ping" Hin Hev).
    unfold getAvailableEvents, WEBHOOK_EVENTS in Hvalid.
    repeat (apply elem_of_cons in Hvalid as [Hvalid|Hvalid]; [discriminate |]).
    by apply elem_of_nil in Hvalid. }
  split; [exact Hnone |]. unfold triggerEvent. rewrite Hnone.
  specialize (Hsettle []). apply Permutation_nil_r in Hsettle. by rewrite Hsettle.
Qed.

(** A webhook without a secret, or with an empty one, is sent unsigned:
    its request carries the content type, the event and the timestamp, and
    no signature header; the body is the envelope of the event, and the
    timeout is ten seconds. *)
Theorem unsigned_without_a_secret webhook event payload now :
  wh_secret webhook = None \/ wh_secret webhook = Some EmptyString ->
  let request :=
    build_request JSON_stringify hmac_sha256_hex toISOString webhook event payload now in
  header "X-Webhook-Signature" request = None /\
  http_headers request =
    [("Content-Type", "application/json"); ("X-Webhook-Event", event);
     ("X-Webhook-Timestamp", toISOString now)] /\
  http_body request = mkEnvelope event (toISOString now) payload /\
  http_url request = wh_url webhook /\
  http_timeout request = 10000.
Proof.
  intros Hsecret request. subst request. unfold build_request, configured_secret, header.
  destruct Hsecret as [-> | ->]; simpl; by repeat split.
Qed.

End DispatchFacts.

(** *** [WebhookService]: the webhook store *)

Lemma webhooks_other id (m : list (string * Webhook)) :
  Forall (fun entry => wh_id (snd entry) = fst entry) m ->
  id ∉ map fst m ->
  Forall (fun w => wh_id w <> id) (jsmap_values m).
Proof.
  induction 1 as [|[k v] m Hk _ IH]; simpl; [constructor |].
  rewrite not_elem_of_cons. intros [Hne Hid]. constructor; [| by apply IH].
  simpl in Hk. congruence.
Qed.

Lemma list_filter_all {A} (f : A -> bool) l :
  Forall (fun x => f x = true) l -> List.filter f l = l.
Proof. induction 1 as [|x l Hx _ IH]; simpl; [done |]. by rewrite Hx, IH. Qed.

Lemma webhook_replaced id (f : Webhook -> bool) webhook webhook' (m : list (string * Webhook)) :
  webhooks_keyed_by_id m ->
  jsmap_get id m = Some webhook ->
  f webhook' = false ->
  List.filter f (jsmap_values (jsmap_set id webhook' m))
  = List.filter (fun w => negb (String.eqb (wh_id w) id)) (List.filter f (jsmap_values m)).
Proof.
  intros [Hnd Hkeyed]. revert Hnd.
  induction Hkeyed as [|[k v] m Hk Hkeyed IH]; simpl; [done |].
  intros Hnd Hget Hoff. apply NoDup_cons in Hnd as [Hfresh Hnd]. simpl in Hk.
  destruct (String.eqb_spec k id) as [->|Hne]; simpl.
  - rewrite Hoff.
    assert (List.filter (fun w => negb (String.eqb (wh_id w) id))
              (List.filter f (jsmap_values m))
            = List.filter f (jsmap_values m)) as Hsame.
    { apply list_filter_all. apply Forall_forall. intros w Hw.
      apply list_elem_of_In, filter_In in Hw as [Hw _]. apply list_elem_of_In in Hw.
      pose proof (webhooks_other id m Hkeyed Hfresh) as Hall.
      rewrite Forall_forall in Hall. apply negb_true_iff, String.eqb_neq. by apply Hall. }
    destruct (f v); [| done]. simpl. rewrite Hk, String.eqb_refl. done.
  - destruct (f v) eqn:Hv; simpl.
    + rewrite (proj2 (String.eqb_neq (wh_id v) id)) by congruence. simpl.
      f_equal. by apply IH.
    + by apply IH.
Qed.

Lemma webhook_deleted id (f : Webhook -> bool) (m : list (string * Webhook)) :
  webhooks_keyed_by_id m ->
  List.filter f (jsmap_values (jsmap_delete id m))
  = List.filter (fun w => negb (String.eqb (wh_id w) id)) (List.filter f (jsmap_values m)).
Proof.
  intros [Hnd Hkeyed]. revert Hnd.
  induction Hkeyed as [|[k v] m Hk Hkeyed IH]; simpl; [done |].
  intros Hnd. apply NoDup_cons in Hnd as [Hfresh Hnd]. simpl in Hk.
  destruct (String.eqb_spec k id) as [->|Hne]; simpl.
  - assert (List.filter (fun w => negb (String.eqb (wh_id w) id))
              (List.filter f (jsmap_values m))
            = List.filter f (jsmap_values m)) as Hsame.
    { apply list_filter_all. apply Forall_forall. intros w Hw.
      apply list_elem_of_In, filter_In in Hw as [Hw _]. apply list_elem_of_In in Hw.
      pose proof (webhooks_other id m Hkeyed Hfresh) as Hall.
      rewrite Forall_forall in Hall. apply negb_true_iff, String.eqb_neq. by apply Hall. }
    destruct (f v); [| done]. simpl. rewrite Hk, String.eqb_refl. done.
  - destruct (f v) eqn:Hv; simpl.
    + rewrite (proj2 (String.eqb_neq (wh_id v) id)) by congruence. simpl.
      f_equal. by apply IH.
    + by apply IH.
Qed.

Section WebhookStore.
Variable uuid_nth : nat -> string.

(** [createWebhook] registers the webhook under a new identifier, active,
    with three attempts allowed: it is found by [getWebhook], and, the
    identifier not being in use, it is the last to receive each of its
    events, after the webhooks that received them before; for other events
    nothing changes.  [deleteWebhook] answers whether the identifier was
    registered; afterwards it is not, the other webhooks are as they were,
    and every event goes to the webhooks it went to before except the
    deleted one.  (Every webhook is registered under its own identifier.) *)
Theorem registering_and_removing_webhooks data id webhooks s :
  webhooks_keyed_by_id webhooks ->
  (exists webhook registered,
     createWebhook uuid_nth data webhooks s
       = (Returned (webhook, registered), with_uuid_count (S (uuid_count s)) s) /\
     webhook =
       mkWebhook (uuid_nth (uuid_count s)) (wd_name data) (wd_url data) (wd_secret data)
         (wd_events data) true 0 3 (clock s) (clock s) /\
     getWebhook registered (wh_id webhook) = Some webhook /\
     (forall k, k <> wh_id webhook -> getWebhook registered k = getWebhook webhooks k) /\
     webhooks_keyed_by_id registered /\
     (getWebhook webhooks (wh_id webhook) = None ->
      forall event,
        getActiveWebhooksForEvent registered event
        = (getActiveWebhooksForEvent webhooks event
             ++ (if bool_decide (event ∈ wd_events data) then [webhook] else []))%list)) /\
  (exists remaining,
     deleteWebhook id webhooks
       = (bool_decide (is_Some (getWebhook webhooks id)), remaining) /\
     getWebhook remaining id = None /\
     (forall k, k <> id -> getWebhook remaining k = getWebhook webhooks k) /\
     webhooks_keyed_by_id remaining /\
     forall event,
       getActiveWebhooksForEvent remaining event
       = List.filter (fun w => negb (String.eqb (wh_id w) id))
           (getActiveWebhooksForEvent webhooks event)).
Proof.
  intros Hkeyed. pose proof Hkeyed as [Hnd Hids]. split.
  - eexists _, _. unfold createWebhook, bind, uuidv4, new_Date, ret. simpl.
    split; [reflexivity |]. split; [reflexivity |]. simpl.
    split; [apply jsmap_get_set_eq |].
    split; [intros k Hk; by apply jsmap_get_set_ne |].
    split.
    { split; [by apply jsmap_set_NoDup |].
      clear Hnd Hkeyed. induction Hids as [|[k v] m Hk Hids IH]; simpl.
      - by repeat constructor.
      - destruct (String.eqb_spec k (uuid_nth (uuid_count s))) as [->|Hne].
        + by constructor.
        + by constructor. }
    intros Hfresh event. unfold getActiveWebhooksForEvent, getAllWebhooks, getWebhook in *.
    rewrite (jsmap_set_new _ _ _ Hfresh). unfold jsmap_values.
    rewrite map_app, List.filter_app. simpl. f_equal.
    destruct (existsb (String.eqb event) (wd_events data)) eqn:Hev.
    + rewrite bool_decide_eq_true_2 by (by apply existsb_eqb_elem_of). done.
    + rewrite bool_decide_eq_false_2; [done |].
      intros Hin. apply existsb_eqb_elem_of in Hin. congruence.
  - unfold deleteWebhook, getWebhook.
    destruct (jsmap_get id webhooks) as [webhook|] eqn:Hget.
    + eexists. split; [reflexivity |].
      split; [by apply jsmap_get_delete_eq |].
      split; [intros k Hk; by apply jsmap_get_delete_ne |].
      split.
      { split; [by apply jsmap_delete_NoDup |].
        clear Hnd Hkeyed Hget. induction Hids as [|[k v] m Hk Hids IH]; simpl; [done |].
        destruct (String.eqb k id); [done | by constructor]. }
      intros event. by apply webhook_deleted.
    + exists webhooks. split; [reflexivity |]. split; [done |]. split; [done |].
      split; [done |]. intros event. symmetry. apply list_filter_all.
      apply Forall_forall. intros w Hw.
      apply list_elem_of_In, filter_In in Hw as [Hw _]. apply list_elem_of_In in Hw.
      pose proof (webhooks_other id webhooks Hids
                    (proj1 (jsmap_get_None id webhooks) Hget)) as Hall.
      rewrite Forall_forall in Hall. apply negb_true_iff, String.eqb_neq. by apply Hall.
Qed.

(** [updateWebhook] on an identifier that is not registered returns null
    and changes nothing.  On a webhook it returns it with the given
    properties replaced and [updatedAt] set to now, registered in the place
    of the old one.  When the update switches [isActive] off, every event
    goes to the webhooks it went to before except this one. *)
Theorem updateWebhook_replaces_in_place id updates webhooks s :
  match getWebhook webhooks id with
  | None => updateWebhook id updates webhooks s = (Returned (None, webhooks), s)
  | Some webhook =>
      let updated := updated_webhook webhook updates (clock s) in
      exists registered,
        updateWebhook id updates webhooks s = (Returned (Some updated, registered), s) /\
        getWebhook registered id = Some updated /\
        (forall k, k <> id -> getWebhook registered k = getWebhook webhooks k) /\
        map fst registered = map fst webhooks /\
        wh_updatedAt updated = clock s /\
        wh_isActive updated = default (wh_isActive webhook) (wu_isActive updates) /\
        (webhooks_keyed_by_id webhooks ->
         wu_isActive updates = Some false ->
         forall event,
           getActiveWebhooksForEvent registered event
           = List.filter (fun w => negb (String.eqb (wh_id w) id))
               (getActiveWebhooksForEvent webhooks event))
  end.
Proof.
  unfold getWebhook, updateWebhook.
  destruct (jsmap_get id webhooks) as [webhook|] eqn:Hget; [| done].
  eexists. unfold bind, new_Date, ret. split; [reflexivity |].
  split; [apply jsmap_get_set_eq |].
  split; [intros k Hk; by apply jsmap_get_set_ne |].
  split; [by eapply jsmap_set_keys |]. split; [done |]. split; [done |].
  intros Hkeyed Hoff event. unfold getActiveWebhooksForEvent, getAllWebhooks.
  apply (webhook_replaced id _ webhook); [done | done |].
  simpl. by rewrite Hoff.
Qed.

End WebhookStore.

(** *** [BatchService]: the batches *)

Lemma full_rate_checked : forallb (reads_as "100.0%" 1000) (seq 0 1001) = true.
Proof. vm_compute. reflexivity. Qed.

Lemma zero_rate_checked : forallb (reads_as "0.0%" 0) (seq 0 1001) = true.
Proof. vm_compute. reflexivity. Qed.

Lemma nan_rate_checked : forallb (reads_as "NaN%" (-1)) (seq 0 1001) = true.
Proof. vm_compute. reflexivity. Qed.

Lemma nearest_tenths_range t a b :
  (1 <= b)%nat -> (a <= b)%nat -> nearest_tenths_of t a b -> 0 <= t <= 1000.
Proof. unfold nearest_tenths_of. intros Hb Ha Hn. nia. Qed.

Lemma reads_as_sound text tenths t :
  forallb (reads_as text tenths) (seq 0 1001) = true ->
  0 <= t <= 1000 ->
  rounded_percentage t = text -> t = tenths.
Proof.
  intros Hall Ht Htext. rewrite forallb_forall in Hall.
  specialize (Hall (Z.to_nat t) ltac:(apply in_seq; lia)).
  unfold reads_as in Hall. rewrite Z2Nat.id in Hall by lia.
  rewrite Htext, String.eqb_refl in Hall. simpl in Hall. by apply Z.eqb_eq.
Qed.


Section BatchFacts.
Variable uuid_nth : nat -> string.
Variable regexp_test : JsValue -> string -> option bool.
Variable coerce_number : JsValue -> float.
Variable exponent_form : float -> string.
Variable trigger_rejects : string -> nat -> option string.
Variable JSON_stringify : Envelope -> string.
Variable hmac_sha256_hex : string -> string -> string.
Variable toISOString : Z -> string.
Variable post : Request -> HttpOutcome.
Variable settle : list Webhook -> list Webhook.
Variable webhooks : list (string * Webhook).
Variable random : nat -> float.

Lemma batchCreate_returns requests s :
  (length requests <= maxBatchSize s)%nat ->
  (forall i, trigger_rejects TRANSACTION_CREATED i = None) ->
  exists successful s',
    batchCreate uuid_nth exponent_form trigger_rejects requests s
      = (Returned
           (mkBatchCreateResult successful (expected_failures 0 requests)
              (mkSummary (length requests) (length successful)
                 (length (expected_failures 0 requests))
                 (successRate exponent_form (length successful) (length requests)))), s') /\
    (length successful + length (expected_failures 0 requests) = length requests)%nat.
Proof.
  intros Hsize Hdelivers.
  destruct (create_each_settles uuid_nth trigger_rejects requests 0 s)
    as (settled & s' & Hrun & Hrej & Hlen & Hund).
  specialize (Hund Hdelivers).
  exists (created settled), s'. split; [| by rewrite <- Hrej].
  unfold batchCreate, bind at 1, get_state.
  rewrite (proj2 (Nat.ltb_ge _ _) Hsize). unfold bind. rewrite Hrun. simpl.
  by rewrite Hund, app_nil_r, Hrej.
Qed.

(** The success rate [batchCreate] reports for a batch that is not empty
    and within the limit of a thousand requests, the dispatch of the
    created events not failing, reads 100.0% exactly when no request failed
    and 0.0% exactly when none succeeded: one failure among a thousand
    already shows.  A batch whose requests all pass create-validation, as
    the batch controller requires before it calls the service, creates
    every transaction and reports no failure. *)
Theorem reading_the_success_rate requests s :
  requests <> [] ->
  (length requests <= maxBatchSize s)%nat ->
  (maxBatchSize s <= maxBatchSize_limit)%nat ->
  (forall i, trigger_rejects TRANSACTION_CREATED i = None) ->
  exists result s',
    batchCreate uuid_nth exponent_form trigger_rejects requests s = (Returned result, s') /\
    (sum_successRate (bc_summary result) = "100.0%" <-> bc_failed result = []) /\
    (sum_successRate (bc_summary result) = "0.0%" <-> bc_successful result = []) /\
    (Forall (fun request => validation_error request = None) requests ->
     bc_failed result = [] /\ length (bc_successful result) = length requests).
Proof.
  intros Hne Hsize Hlimit Hdelivers.
  destruct (batchCreate_returns requests s Hsize Hdelivers) as (successful & s' & Hrun & Hlen).
  eexists _, s'. split; [exact Hrun |]. simpl.
  assert (1 <= length requests)%nat as HN by (destruct requests; [done | simpl; lia]).
  assert (length requests <= maxBatchSize_limit)%nat as HN' by lia.
  destruct (rate_check_sound exponent_form (length successful) (length requests))
    as (t & Hrate & Hnear).
  { apply rate_checked; lia. }
  assert (length successful <= length requests)%nat as Hle by lia.
  pose proof (nearest_tenths_range t _ _ HN Hle Hnear) as Hrange.
  unfold maxBatchSize_limit in HN'. unfold nearest_tenths_of in Hnear.
  rewrite Hrate. split; [| split].
  - split.
    + intros Htext. apply (reads_as_sound _ _ _ full_rate_checked Hrange) in Htext.
      subst t. apply nil_length_inv. nia.
    + intros Hnil. rewrite Hnil in Hlen. simpl in Hlen.
      assert (t = 1000) as -> by nia. reflexivity.
  - split.
    + intros Htext. apply (reads_as_sound _ _ _ zero_rate_checked Hrange) in Htext.
      subst t. apply nil_length_inv. nia.
    + intros Hnil. rewrite Hnil in Hnear. simpl in Hnear.
      assert (t = 0) as -> by nia. reflexivity.
  - intros Hvalid.
    assert (expected_failures 0 requests = []) as Hnone.
    { clear -Hvalid. generalize 0%nat. induction Hvalid as [|r l Hr _ IH]; intros n; [done |].
      simpl. rewrite Hr. apply IH. }
    rewrite Hnone in *. simpl in Hlen. split; [done | lia].
Qed.



Lemma send_each_returns event payload targets s :
  exists s',
    send_each uuid_nth JSON_stringify hmac_sha256_hex toISOString post event payload targets s
      = (Returned tt, s') /\
    dispatch_frame s s'.
Proof.
  revert s. induction targets as [|w targets IH]; intros s.
  - exists s. split; [done | apply dispatch_frame_refl].
  - destruct (sendWebhook_first uuid_nth JSON_stringify hmac_sha256_hex toISOString post
                w event payload s) as (s1 & log & Hrun & Hf1 & _).
    destruct (IH s1) as (s' & Hrest & Hf).
    exists s'. split; [| by eapply dispatch_frame_trans].
    cbn [send_each]. unfold bind at 1, attempt. rewrite Hrun. exact Hrest.
Qed.

Lemma triggerEvent_returns event payload s :
  exists s',
    triggerEvent uuid_nth JSON_stringify hmac_sha256_hex toISOString post settle webhooks
      event payload s = (Returned tt, s') /\
    dispatch_frame s s'.
Proof. apply send_each_returns. Qed.

Lemma count_completed_le processed : (count_completed processed <= length processed)%nat.
Proof. apply filter_length_le. Qed.

(** The loop of [batchProcess] sorts every identifier into one of the two
    arrays. *)
Lemma process_each_accounts index ids processed failed s :
  exists processed' failed' s',
    process_each uuid_nth regexp_test coerce_number JSON_stringify hmac_sha256_hex
      toISOString post settle webhooks random index ids processed failed s
      = (Returned ((processed ++ processed')%list, (failed ++ failed')%list), s') /\
    (length processed' + length failed' = length ids)%nat /\
    Forall (fun t => tx_status t = COMPLETED \/ tx_status t = FAILED) processed' /\
    Forall (fun f => fi_transactionId f ∈ ids) failed' /\
    maxBatchSize s' = maxBatchSize s.
Proof.
  revert index processed failed s.
  induction ids as [|id ids IH]; intros index processed failed s.
  - exists [], [], s. rewrite !app_nil_r. by repeat split.
  - cbn [process_each]. unfold bind at 1, attempt.
    pose proof (grows_processTransaction uuid_nth regexp_test coerce_number (random index)
                  id s) as [_ Hsize1].
    destruct (processTransaction uuid_nth regexp_test coerce_number (random index) id s)
      as [[tx'|e] s1] eqn:Hrun; simpl in Hsize1.
    + apply processTransaction_returned in Hrun as (_ & Hfinal & _).
      unfold bind at 1, attempt.
      destruct (triggerEvent_returns
                  (if bool_decide (tx_status tx' = COMPLETED) then TRANSACTION_COMPLETED
                   else TRANSACTION_FAILED) JObject s1)
        as (s2 & -> & (_ & _ & _ & _ & _ & Hsize2)).
      destruct (IH (S index) (processed ++ [tx'])%list failed s2)
        as (processed' & failed' & s' & -> & Hlen & Hp & Hf & Hsize).
      exists (tx' :: processed'), failed', s'. rewrite <- app_assoc.
      split; [done |]. split; [simpl; lia |]. split; [by constructor |].
      split; [| congruence].
      eapply Forall_impl; [exact Hf |]. simpl. intros f Hin. by right.
    + unfold bind at 1, logError, bind, uuidv4, new_Date, modify, ret. simpl.
      match goal with
      | |- context [process_each _ _ _ _ _ _ _ _ _ _ _ _ _ _ ?s0] =>
          destruct (IH (S index) processed (failed ++ [mkFailedItem id e])%list s0)
            as (processed' & failed' & s' & -> & Hlen & Hp & Hf & Hsize)
      end.
      simpl in Hsize.
      exists processed', (mkFailedItem id e :: failed'), s'. rewrite <- app_assoc.
      split; [done |]. split; [simpl; lia |]. split; [done |].
      split; [| congruence].
      constructor; [simpl; left |].
      eapply Forall_impl; [exact Hf |]. simpl. intros f Hin. by right.
Qed.

Lemma batchProcess_returns ids s :
  (length ids <= maxBatchSize s)%nat ->
  exists processed failed s',
    batchProcess uuid_nth regexp_test coerce_number exponent_form JSON_stringify
      hmac_sha256_hex toISOString post settle webhooks random ids s
    = (Returned (mkBatchProcessResult processed failed
                   (process_summary exponent_form (length ids) processed failed)), s') /\
    (length processed + length failed = length ids)%nat /\
    Forall (fun t => tx_status t = COMPLETED \/ tx_status t = FAILED) processed /\
    Forall (fun f => fi_transactionId f ∈ ids) failed /\
    maxBatchSize s' = maxBatchSize s.
Proof.
  intros Hsize. unfold batchProcess, bind at 1, get_state.
  rewrite (proj2 (Nat.ltb_ge _ _) Hsize). unfold bind.
  destruct (process_each_accounts 0 ids [] [] s)
    as (processed & failed & s' & -> & Hlen & Hp & Hf & Hkept).
  simpl. by exists processed, failed, s'.
Qed.


(** NaN% is the success rate of the empty batch and of no other.  An empty
    batch is not refused by the service: [batchCreate] and [batchProcess]
    return empty lists and a summary of zeros whose success rate, zero
    divided by zero, reads NaN%, [batchCancel] returns two empty lists,
    and the state is left as it was.  A batch that is not empty, within
    the limit of a thousand items, never reads NaN% (for [batchCreate],
    the dispatch of the created events not failing). *)
Theorem an_empty_batch_reports_NaN requests ids s :
  (length requests <= maxBatchSize s)%nat ->
  (length ids <= maxBatchSize s)%nat ->
  (maxBatchSize s <= maxBatchSize_limit)%nat ->
  (forall i, trigger_rejects TRANSACTION_CREATED i = None) ->
  (exists result s',
     batchCreate uuid_nth exponent_form trigger_rejects requests s = (Returned result, s') /\
     (sum_successRate (bc_summary result) = "NaN%" <-> requests = [])) /\
  (exists result s',
     batchProcess uuid_nth regexp_test coerce_number exponent_form JSON_stringify
       hmac_sha256_hex toISOString post settle webhooks random ids s
     = (Returned result, s') /\
     (ps_successRate (bp_summary result) = "NaN%" <-> ids = [])) /\
  batchCreate uuid_nth exponent_form trigger_rejects [] s
    = (Returned (mkBatchCreateResult [] [] (mkSummary 0 0 0 "NaN%")), s) /\
  batchProcess uuid_nth regexp_test coerce_number exponent_form JSON_stringify
    hmac_sha256_hex toISOString post settle webhooks random [] s
    = (Returned (mkBatchProcessResult [] [] (mkProcessSummary 0 0 0 "NaN%")), s) /\
  batchCancel uuid_nth JSON_stringify hmac_sha256_hex toISOString post settle webhooks
    [] None s = (Returned (mkBatchCancelResult [] []), s).
Proof.
  intros Hrequests Hids Hlimit Hdelivers.
  assert (forall a b : nat,
            (a <= b)%nat -> (b <= maxBatchSize s)%nat ->
            successRate exponent_form a b = "NaN%" <-> b = 0%nat) as Hrate.
  { intros a b Hab Hb. destruct b as [|b].
    - assert (a = 0%nat) as -> by lia. by split.
    - split; [| done]. intros Htext.
      destruct (rate_check_sound exponent_form a (S b)) as (t & Hrate & Hnear).
      { apply rate_checked; lia. }
      assert (0 <= t <= 1000) as Hrange by (eapply nearest_tenths_range; [| | exact Hnear]; lia).
      rewrite Hrate in Htext.
      apply (reads_as_sound _ _ _ nan_rate_checked Hrange) in Htext. lia. }
  split; [| split; [| split; [| split]]].
  - destruct (batchCreate_returns requests s Hrequests Hdelivers)
      as (successful & s' & Hrun & Hlen).
    eexists _, s'. split; [exact Hrun |]. simpl.
    rewrite Hrate by lia. split.
    + apply nil_length_inv.
    + by intros ->.
  - destruct (batchProcess_returns ids s Hids)
      as (processed & failed & s' & Hrun & Hlen & _).
    eexists _, s'. split; [exact Hrun |]. simpl.
    pose proof (count_completed_le processed).
    rewrite Hrate by lia. split.
    + apply nil_length_inv.
    + by intros ->.
  - unfold batchCreate, bind, get_state. simpl. reflexivity.
  - unfold batchProcess, bind, get_state. simpl. reflexivity.
  - unfold batchCancel, bind. simpl. reflexivity.
Qed.







Hypothesis regexp_total : forall pattern subject, is_Some (regexp_test pattern subject).








End BatchFacts.

(** *** [WebhookService]: the delivery logs *)



(** ** The statements above at the sample environment *)

(** A store filled key by key keeps the order of its keys, and its
    transactions stay under their own identifiers. *)
Lemma insertion_order_empty {V} : insertion_order [] (∅ : gmap string V).
Proof.
  split; [constructor |]. intros k. rewrite lookup_empty. split.
  - intros Hk. by apply elem_of_nil in Hk.
  - intros [v Hv]. discriminate.
Qed.

Lemma insertion_order_insert {V} order (m : gmap string V) k v :
  insertion_order order m -> m !! k = None ->
  insertion_order (order ++ [k]) (<[k := v]> m).
Proof.
  intros [Hnd Hkeys] Hfresh. split.
  - apply NoDup_app. split; [done |]. split; [| apply NoDup_singleton].
    intros x Hx Hx'. apply list_elem_of_singleton in Hx'. subst x.
    apply Hkeys in Hx as [w Hw]. congruence.
  - intros x. rewrite elem_of_app, list_elem_of_singleton.
    destruct (decide (x = k)) as [->|Hne].
    + rewrite lookup_insert_eq. split; [by eexists | by right].
    + rewrite lookup_insert_ne by done. rewrite Hkeys. tauto.
Qed.

Lemma keyed_insert (m : gmap string Transaction) k v :
  (forall id tx, m !! id = Some tx -> tx_id tx = id) ->
  tx_id v = k ->
  forall id tx, <[k := v]> m !! id = Some tx -> tx_id tx = id.
Proof.
  intros Hm Hv id tx. destruct (decide (id = k)) as [->|Hne].
  - rewrite lookup_insert_eq. by intros [= <-].
  - rewrite lookup_insert_ne by done. apply Hm.
Qed.

Lemma two_pending_stored :
  insertion_order two_pending_order (transactions two_pending_state) /\
  (forall id tx, transactions two_pending_state !! id = Some tx -> tx_id tx = id).
Proof.
  assert (transactions two_pending_state
          = <[second_id := second_transaction two_pending_state]>
              (<[first_id := first_transaction two_pending_state]> ∅)) as ->
    by (vm_compute; reflexivity).
  split.
  - apply (insertion_order_insert [first_id]); [| vm_compute; reflexivity].
    apply (insertion_order_insert []); [apply insertion_order_empty | apply lookup_empty].
  - apply keyed_insert; [| vm_compute; reflexivity].
    apply keyed_insert; [| vm_compute; reflexivity].
    intros id tx. by rewrite lookup_empty.
Qed.

Lemma sample_uuid_inj n m : sample_uuid n = sample_uuid m -> n = m.
Proof.
  unfold sample_uuid. intros H. cbn [String.app] in H. injection H as H.
  by apply pretty_nat_inj in H.
Qed.


Lemma absent_transaction_is_not_found_witness :
  cancelTransaction sample_uuid "missing" None seeded_state
    = (Thrown "Transaction missing not found", seeded_state) /\
  fst (processTransaction sample_uuid sample_regexp sample_coerce 0.5%float "missing"
         seeded_state)
    = Thrown "Transaction missing not found".
Proof.
  destruct (absent_transaction_is_not_found sample_uuid sample_regexp sample_coerce 0.5%float
              "missing" COMPLETED "test" None seeded_state)
    as (_ & _ & Hcancel & _ & s' & Hprocess & _).
  - vm_compute. reflexivity.
  - split; [exact Hcancel | rewrite Hprocess; reflexivity].
Defined.

Lemma processing_needs_pending_witness :
  exists s',
    processTransaction sample_uuid sample_regexp sample_coerce 0.5%float first_id
      completed_state
      = (Thrown "Invalid status transition from COMPLETED to VALIDATING", s') /\
    transactions s' = transactions completed_state.
Proof.
  destruct (processing_needs_pending sample_uuid sample_regexp sample_coerce 0.5%float
              first_id completed_state (first_transaction completed_state))
    as (s' & Hrun & Hstored & _).
  - vm_compute. reflexivity.
  - vm_compute. discriminate.
  - exists s'. split; [exact Hrun | exact Hstored].
Defined.

Lemma processing_a_pending_transaction_witness :
  exists tx' s',
    processTransaction sample_uuid sample_regexp sample_coerce 0.5%float first_id pending_state
      = (Returned tx', s') /\
    tx_status tx' = COMPLETED /\
    tx_completedAt tx' = Some (clock pending_state + PROCESSING_DELAYS NORMAL) /\
    length (getStatusHistory s' first_id) = 3%nat.
Proof.
  set (tx := first_transaction pending_state).
  set (outcome :=
         evaluateTransaction sample_uuid sample_regexp sample_coerce
           (tx_set_status VALIDATING (clock pending_state) tx)
           (moved first_id VALIDATING "system" (Some "Starting validation") tx pending_state)).
  assert (exists evaluation, outcome = (Returned evaluation, snd outcome) /\
                             allowed evaluation = true) as (evaluation & Hevaluation & Hallowed).
  { vm_compute. eexists. split; reflexivity. }
  destruct (processing_a_pending_transaction sample_uuid sample_regexp sample_coerce 0.5%float
              first_id pending_state tx evaluation (snd outcome))
    as (tx' & s' & Hrun & _ & _ & _ & _ & _ & _ & Hcase).
  - vm_compute. reflexivity.
  - vm_compute. reflexivity.
  - exact Hevaluation.
  - rewrite Hallowed in Hcase.
    replace (PrimFloat.ltb 0x1.999999999999ap-4%float 0.5%float) with true in Hcase
      by (vm_compute; reflexivity).
    destruct Hcase as (Hstatus & Hcompleted & _ & _ & Hhistory).
    exists tx', s'. split; [exact Hrun |]. split; [exact Hstatus |].
    split; [exact Hcompleted |]. rewrite Hhistory. vm_compute. reflexivity.
Defined.

Lemma processing_stops_when_the_rules_throw_witness :
  exists s2,
    processTransaction sample_uuid refusing_regexp sample_coerce 0.5%float first_id
      pattern_state = (Thrown "Invalid regular expression", s2) /\
    option_map tx_status (transactions s2 !! first_id) = Some VALIDATING.
Proof.
  set (tx := first_transaction pattern_state).
  set (outcome :=
         evaluateTransaction sample_uuid refusing_regexp sample_coerce
           (tx_set_status VALIDATING (clock pattern_state) tx)
           (moved first_id VALIDATING "system" (Some "Starting validation") tx pattern_state)).
  destruct (processing_stops_when_the_rules_throw sample_uuid refusing_regexp sample_coerce
              0.5%float first_id pattern_state tx "Invalid regular expression" (snd outcome))
    as (Hrun & Hstored & _).
  - vm_compute. reflexivity.
  - vm_compute. reflexivity.
  - vm_compute. reflexivity.
  - exists (snd outcome). split; [exact Hrun |].
    rewrite Hstored, lookup_insert_eq. reflexivity.
Defined.

Lemma a_retry_spends_one_attempt_witness :
  exists o s' tx',
    retryTransaction sample_uuid sample_regexp sample_coerce 0.5%float first_id denied_state
      = (o, s') /\
    transactions s' !! first_id = Some tx' /\
    tx_retryCount tx' = 1%nat /\ tx_maxRetries tx' = 3%nat.
Proof.
  destruct (a_retry_spends_one_attempt sample_uuid sample_regexp sample_coerce 0.5%float
              first_id denied_state (first_transaction denied_state))
    as (o & s' & tx' & added & Hrun & Hstored & Hcount & Hmax & _).
  - vm_compute. reflexivity.
  - vm_compute. reflexivity.
  - vm_compute. lia.
  - exists o, s', tx'. split; [exact Hrun |]. split; [exact Hstored |].
    rewrite Hcount, Hmax. vm_compute. split; reflexivity.
Defined.

Lemma cancelling_and_refunding_witness :
  (exists s',
     cancelTransaction sample_uuid first_id None pending_state
       = (Returned (tx_set_status CANCELLED (clock pending_state)
                      (first_transaction pending_state)), s') /\
     errorLogs s' = errorLogs pending_state) /\
  (exists s',
     refundTransaction sample_uuid first_id (Some "duplicate") completed_state
       = (Returned (tx_set_status REFUNDED (clock completed_state)
                      (first_transaction completed_state)), s') /\
     errorLogs s' = errorLogs completed_state).
Proof.
  split.
  - destruct (proj1 (cancelling_and_refunding sample_uuid first_id None pending_state
                       (first_transaction pending_state) ltac:(vm_compute; reflexivity)))
      as (s' & Hrun & _ & _ & Hlogs).
    + left. vm_compute. reflexivity.
    + exists s'. split; [exact Hrun | exact Hlogs].
  - destruct (proj2 (proj2 (cancelling_and_refunding sample_uuid first_id (Some "duplicate")
                              completed_state (first_transaction completed_state)
                              ltac:(vm_compute; reflexivity))))
      as (s' & Hrun & _ & _ & Hlogs).
    + vm_compute. reflexivity.
    + exists s'. split; [exact Hrun | exact Hlogs].
Defined.

Lemma operations_touch_one_transaction_witness :
  untouched first_id two_pending_state
    (run sample_uuid sample_regexp sample_coerce (OpProcess 0.5%float second_id)
       two_pending_state).
Proof.
  apply (operations_touch_one_transaction sample_uuid sample_regexp sample_coerce
           (OpProcess 0.5%float second_id) first_id two_pending_state).
  simpl. discriminate.
Defined.

Lemma cancelled_and_refunded_are_final_witness :
  transactions
    (run_all sample_uuid sample_regexp sample_coerce
       [OpProcess 0.5%float first_id; OpRefund first_id None;
        OpCreate (sample_request 100%float);
        OpUpdateStatus first_id PENDING "test" None] cancelled_state) !! first_id
  = Some (first_transaction cancelled_state).
Proof.
  apply (cancelled_and_refunded_are_final sample_uuid sample_regexp sample_coerce
           [OpProcess 0.5%float first_id; OpRefund first_id None;
            OpCreate (sample_request 100%float);
            OpUpdateStatus first_id PENDING "test" None]
           first_id cancelled_state (first_transaction cancelled_state)).
  - vm_compute. reflexivity.
  - left. vm_compute. reflexivity.
  - intros n Hn Hsame. change first_id with (sample_uuid 4) in Hsame.
    apply sample_uuid_inj in Hsame. subst n. vm_compute in Hn. lia.
Defined.

Lemma verdict_reflects_results_witness :
  exists ev s',
    evaluateTransaction sample_uuid sample_regexp sample_coerce
      (sample_transaction 150000%float "USD") seeded_state = (Returned ev, s') /\
    allowed ev = negb (existsb (triggers DENY) (results ev)) /\
    denyReason ev = last_deny_message (results ev) /\
    (allowed ev = false <-> exists reason, denyReason ev = Some reason).
Proof.
  set (outcome :=
         evaluateTransaction sample_uuid sample_regexp sample_coerce
           (sample_transaction 150000%float "USD") seeded_state).
  assert (exists ev, outcome = (Returned ev, snd outcome)) as (ev & Hev).
  { vm_compute. eexists. reflexivity. }
  destruct (verdict_reflects_results sample_uuid sample_regexp sample_coerce
              (sample_transaction 150000%float "USD") seeded_state ev (snd outcome) Hev)
    as (Hallowed & _ & _ & Hreason & Hboth).
  exists ev, (snd outcome).
  split; [exact Hev | split; [exact Hallowed | split; [exact Hreason | exact Hboth]]].
Defined.

Lemma rules_visited_and_logged_witness :
  exists ev s',
    evaluateTransaction sample_uuid sample_regexp sample_coerce
      (sample_transaction 150000%float "USD") seeded_state = (Returned ev, s') /\
    frame seeded_state s' /\
    uuid_count s' =
      (uuid_count seeded_state +
       length (List.filter (fun r => triggers DENY r || triggers FLAG r) (results ev)))%nat.
Proof.
  set (outcome :=
         evaluateTransaction sample_uuid sample_regexp sample_coerce
           (sample_transaction 150000%float "USD") seeded_state).
  assert (exists ev, outcome = (Returned ev, snd outcome)) as (ev & Hev).
  { vm_compute. eexists. reflexivity. }
  destruct (rules_visited_and_logged sample_uuid sample_regexp sample_coerce
              (sample_transaction 150000%float "USD") seeded_state ev (snd outcome) Hev)
    as (_ & Hframe & Hcount).
  exists ev, (snd outcome). split; [exact Hev | split; [exact Hframe | exact Hcount]].
Defined.

Lemma a_disabled_rule_is_not_evaluated_witness :
  activeRules (snd (setRuleEnabled "uuid-1" false seeded_state))
  = filter (fun r => rule_id r <> "uuid-1") (activeRules seeded_state).
Proof.
  apply (a_disabled_rule_is_not_evaluated sample_uuid sample_regexp sample_coerce "uuid-1"
           seeded_state (fst (setRuleEnabled "uuid-1" false seeded_state))
           (snd (setRuleEnabled "uuid-1" false seeded_state))).
  - apply (bool_decide_unpack _). vm_compute. exact I.
  - destruct (setRuleEnabled "uuid-1" false seeded_state). reflexivity.
Defined.

Lemma adding_and_deleting_rules_witness :
  exists s',
    deleteRule "uuid-0" seeded_state = (Returned true, s') /\
    getRule s' "uuid-0" = None /\
    (forall k, k <> "uuid-0" -> getRule s' k = getRule seeded_state k).
Proof.
  destruct (proj2 (adding_and_deleting_rules sample_uuid Account_Pattern "uuid-0" seeded_state
                     ltac:(apply (bool_decide_unpack _); vm_compute; exact I)))
    as (s' & Hrun & Hgone & Hothers & _).
  exists s'. split; [| split; [exact Hgone | exact Hothers]]. rewrite Hrun. f_equal.
Defined.

Lemma resetToDefaults_restores_the_defaults_witness :
  map rule_priority (getAllRules (snd (resetToDefaults sample_uuid pending_state)))
    = [0; 0; 1; 2] /\
  transactions (snd (resetToDefaults sample_uuid pending_state)) = transactions pending_state.
Proof.
  destruct (resetToDefaults_restores_the_defaults sample_uuid pending_state
              ltac:(apply (bool_decide_unpack _); vm_compute; exact I))
    as (_ & _ & _ & Hpriorities & _ & _ & _ & _ & Hstored).
  split; [exact Hpriorities | exact Hstored].
Defined.

Lemma transaction_queries_witness :
  length (getAllTransactions two_pending_order two_pending_state)
    = size (transactions two_pending_state) /\
  StronglySorted (fun a b => tx_createdAt b <= tx_createdAt a)
    (getAllTransactions two_pending_order two_pending_state).
Proof.
  destruct (transaction_queries two_pending_order two_pending_state (proj1 two_pending_stored))
    as (Hlength & _ & Hsorted & _).
  split; [exact Hlength | exact Hsorted].
Defined.

Lemma getStats_counts_witness :
  stats_total (getStats two_pending_order two_pending_state)
    = size (transactions two_pending_state) /\
  stats_byStatus (getStats two_pending_order two_pending_state) PENDING
    = length (getTransactionsByStatus two_pending_order PENDING two_pending_state).
Proof.
  destruct (getStats_counts two_pending_order two_pending_state (proj1 two_pending_stored))
    as (Htotal & Hstatus & _).
  split; [exact Htotal | apply Hstatus].
Defined.


Lemma a_test_ping_reaches_no_webhook_witness :
  triggerEvent sample_uuid sample_stringify sample_hmac sample_iso unreachable
    sample_settle sample_webhooks "test.ping" JNull seeded_state
  = (Returned tt, seeded_state).
Proof.
  apply (a_test_ping_reaches_no_webhook sample_uuid sample_stringify sample_hmac sample_iso
           unreachable sample_settle sample_webhooks JNull seeded_state).
  - intros l. apply reverse_Permutation.
  - intros w event Hw Hevent. apply list_elem_of_singleton in Hw. subst w.
    apply list_elem_of_singleton in Hevent. subst event. apply list_elem_of_here.
Defined.

Lemma unsigned_without_a_secret_witness :
  header "X-Webhook-Signature"
    (build_request sample_stringify sample_hmac sample_iso open_webhook
       "transaction.completed" JNull 0)
  = None.
Proof.
  apply (unsigned_without_a_secret sample_stringify sample_hmac sample_iso open_webhook
           "transaction.completed" JNull 0).
  left. reflexivity.
Defined.

Lemma registering_and_removing_webhooks_witness :
  exists remaining,
    deleteWebhook "wh-1" sample_webhooks = (true, remaining) /\
    getWebhook remaining "wh-1" = None /\
    forall event, getActiveWebhooksForEvent remaining event
                  = List.filter (fun w => negb (String.eqb (wh_id w) "wh-1"))
                      (getActiveWebhooksForEvent sample_webhooks event).
Proof.
  destruct (proj2 (registering_and_removing_webhooks sample_uuid sample_data "wh-1"
                     sample_webhooks seeded_state
                     ltac:(apply (bool_decide_unpack _); vm_compute; exact I)))
    as (remaining & Hrun & Hgone & _ & _ & Hactive).
  exists remaining. split; [| split; [exact Hgone | exact Hactive]]. rewrite Hrun. f_equal.
Defined.

Lemma reading_the_success_rate_witness :
  exists result s',
    batchCreate sample_uuid sample_exponent_form always_delivers eighty_requests seeded_state
      = (Returned result, s') /\
    (sum_successRate (bc_summary result) = "100.0%" <-> bc_failed result = []) /\
    (sum_successRate (bc_summary result) = "0.0%" <-> bc_successful result = []).
Proof.
  destruct (reading_the_success_rate sample_uuid sample_exponent_form always_delivers
              eighty_requests seeded_state)
    as (result & s' & Hrun & Hfull & Hzero & _).
  - discriminate.
  - vm_compute. lia.
  - vm_compute. lia.
  - reflexivity.
  - exists result, s'. split; [exact Hrun | split; [exact Hfull | exact Hzero]].
Defined.

Lemma an_empty_batch_reports_NaN_witness :
  exists result s',
    batchCreate sample_uuid sample_exponent_form always_delivers eighty_requests
      pending_state = (Returned result, s') /\
    (sum_successRate (bc_summary result) = "NaN%" <-> eighty_requests = []).
Proof.
  destruct (an_empty_batch_reports_NaN sample_uuid sample_regexp sample_coerce
              sample_exponent_form always_delivers sample_stringify sample_hmac sample_iso
              unreachable sample_settle sample_webhooks sample_random
              eighty_requests [first_id] pending_state)
    as ((result & s' & Hrun & Hrate) & _).
  - vm_compute. lia.
  - vm_compute. lia.
  - vm_compute. lia.
  - reflexivity.
  - exists result, s'. split; [exact Hrun | exact Hrate].
Defined.





